(** * Fantasy football tracker: points aggregation and standings comparison

    A shallow embedding of [fantasy_football_tracker.py]: the aggregation
    and ranking core, the reading of the API responses and the figures of
    the report, with the properties of them that the specification states
    and further ones that the code shows.

    Python integers are unbounded, hence [Z].  The module-level tables of
    the script ([PHASES], [POINT_CORRECTIONS], [manager_squads],
    [gameweek_data], [current_gameweek], [previous_standings]) are the
    fields of one record of globals that every function receives.  A
    dictionary whose iteration order is observable (rosters, score tables,
    standings) is an insertion-ordered association list with the item
    assignment of Python; [gameweek_data] and [player_data], which are only
    ever looked up, are finite maps.  [print] appends to a log of
    diagnostics, an uncaught exception is a [Raise] result.  The standings
    file, [json.load], the responses of the API, the draws of [random]
    in [--test-movement] and the order in which a set is iterated are
    inputs of the functions that use them; an object of the API is a
    record of what the keys that the script reads hold when they are
    there.  [load_previous_standings] returns whatever [json.load] gives
    and raises what its handler does not take; the run is modelled for a
    standings file whose JSON is a standings dictionary.  The parsers of
    the squads file are the loops over its rows,
    with the functions of Python's [str], [int] and [re] that they call as
    the fields of a class.  The HTML is left out: [generate_league_table]
    and [generate_squad_details] return the figures of their rows, and
    [main] stands for the run from the parsed squads to the league
    table. *)

From stdpp Require Import base list gmap strings fin_maps sorting.
From Stdlib Require Import ZArith Lia.

Local Open Scope Z_scope.

(** ** Exceptions *)

Inductive pykey : Type :=
| KInt (z : Z)
| KStr (s : string).

Inductive exn : Type :=
| KeyError (k : pykey)
| UnicodeDecodeError.

Inductive res (A : Type) : Type :=
| Ok (a : A)
| Raise (e : exn).
Arguments Ok {A} a.
Arguments Raise {A} e.

#[global] Instance res_ret : MRet res := fun A a => Ok a.
#[global] Instance res_bind : MBind res := fun A B f m =>
  match m with
  | Ok a => f a
  | Raise e => Raise e
  end.

(** [for x in l: body], threading the state and stopping at the first
    exception. *)
Fixpoint for_each {A S : Type} (l : list A) (body : A -> S -> res S) (s : S)
  : res S :=
  match l with
  | [] => Ok s
  | x :: l' =>
      match body x s with
      | Ok s' => for_each l' body s'
      | Raise e => Raise e
      end
  end.

(** ** Insertion-ordered dictionaries *)

Abbreviation dict K V := (list (K * V)) (only parsing).

Section Dict.
Context {K V : Type} `{EqDecision K}.

(** [d.get(k)] *)
Fixpoint dict_get (d : dict K V) (k : K) : option V :=
  match d with
  | [] => None
  | (k', v) :: d' => if decide (k = k') then Some v else dict_get d' k
  end.

(** [k in d] *)
Definition dict_mem (d : dict K V) (k : K) : bool :=
  match dict_get d k with Some _ => true | None => false end.

(** [d[k] = v]: an existing key keeps its place, a new key goes last. *)
Fixpoint dict_set (d : dict K V) (k : K) (v : V) : dict K V :=
  match d with
  | [] => [(k, v)]
  | (k', v') :: d' =>
      if decide (k = k') then (k, v) :: d' else (k', v') :: dict_set d' k v
  end.

Definition dict_keys (d : dict K V) : list K := map fst d.
Definition dict_values (d : dict K V) : list V := map snd d.
End Dict.

(** [d[k]] for the two key types of the script. *)
Definition getitem_int {V} (d : dict Z V) (k : Z) : res V :=
  match dict_get d k with
  | Some v => Ok v
  | None => Raise (KeyError (KInt k))
  end.

Definition getitem_str {V} (d : dict string V) (k : string) : res V :=
  match dict_get d k with
  | Some v => Ok v
  | None => Raise (KeyError (KStr k))
  end.

(** [sum(xs)] *)
Definition sum (xs : list Z) : Z := foldl Z.add 0 xs.

(** [range(a, b)] *)
Definition range (a b : Z) : list Z := seqZ a (b - a).

(** [x in xs] for a list of integers *)
Definition list_mem (x : Z) (xs : list Z) : bool := bool_decide (x ∈ xs).

(** ** Module-level tables *)

(** [print] calls that the specification calls diagnostics.  The player
    name that the message looks up in [player_data] is left out: the
    identifier is what the message is about. *)
Inductive diag : Type :=
| NoSquadData                       (* "Warning: No manager squad data available." *)
| NoGameweekData                    (* "Warning: No gameweek data available." *)
| NoPointsFor (player_id gw : Z)    (* "Player .. has no points for gameweek .." *)
| NoPhaseFor (gw : Z)               (* "WARNING: Could not determine phase for gameweek .." *)
| StandingsCorrupted.               (* "Warning: Previous standings file .. is corrupted" *)

#[global] Instance diag_eq_dec : EqDecision diag.
Proof. solve_decision. Defined.

(** A standings dictionary [{"gameweek": g, "standings": {..}}]; either key
    may be missing, as in the initial [previous_standings = {}]. *)
Record snapshot : Type := {
  snap_gameweek : option Z;
  snap_standings : option (dict string Z)
}.

Definition empty_snapshot : snapshot :=
  {| snap_gameweek := None; snap_standings := None |}.

Record globals : Type := {
  PHASES : dict Z (list Z);
  POINT_CORRECTIONS : list (Z * Z * Z);
  manager_squads : dict string (dict Z (list Z));
  gameweek_data : gmap Z (gmap Z Z);
  current_gameweek : Z;
  previous_standings : snapshot
}.

Definition PHASES_default : dict Z (list Z) :=
  [ (1, range 1 12); (2, range 12 21); (3, range 21 25);
    (4, range 25 30); (5, range 30 39) ].

Definition POINT_CORRECTIONS_default : list (Z * Z * Z) :=
  [ (218, 4, 8); (324, 3, -1); (450, 4, 1) ].

(** An entry of [manager_points]: [{'total': t, 'phase_1': .., ..}].  The
    keys [f'phase_{k}'] are distinct for distinct [k] and differ from
    ['total'], so the entry is a total and a dictionary keyed by [k]. *)
Record mp_entry : Type := {
  total : Z;
  phase_fields : dict Z Z
}.

(** ** calculate_manager_points *)

Record cmp_state : Type := {
  st_manager_points : dict string mp_entry;
  st_phase_points : dict string (dict Z Z);
  st_highest_gameweek_manager : option string;
  st_highest_gameweek_points : Z;
  st_printed : list diag
}.

(** [phase_points[manager][phase] = v] *)
Definition pp_setitem (pp : dict string (dict Z Z)) (manager : string)
    (phase v : Z) : res (dict string (dict Z Z)) :=
  inner ← getitem_str pp manager;
  mret (dict_set pp manager (dict_set inner phase v)).

(** [phase_points[manager][phase] += v] *)
Definition pp_iadd (pp : dict string (dict Z Z)) (manager : string)
    (phase v : Z) : res (dict string (dict Z Z)) :=
  inner ← getitem_str pp manager;
  old ← getitem_int inner phase;
  mret (dict_set pp manager (dict_set inner phase (old + v))).

(** Lines 341-350: the points of one squad in one gameweek. *)
Definition players_loop (G : globals) (gw : Z) (scores : gmap Z Z)
    (player_ids : list Z) (printed : list diag) : Z * list diag :=
  foldl (fun acc player_id =>
           match scores !! player_id with
           | Some pts => (acc.1 + pts, acc.2)
           | None =>
               if bool_decide (gw = current_gameweek G)
               then (acc.1, acc.2 ++ [NoPointsFor player_id gw])
               else acc
           end)
        (0, printed) player_ids.

(** Lines 339-358: the body of [for gw in PHASES[phase_num]]. *)
Definition gw_body (G : globals) (manager : string) (phase_num : Z)
    (player_ids : list Z) (gw : Z) (st : cmp_state) : res cmp_state :=
  match gameweek_data G !! gw with
  | None => Ok st
  | Some scores =>
      let r := players_loop G gw scores player_ids (st_printed st) in
      let gw_points := r.1 in
      pp ← pp_iadd (st_phase_points st) manager phase_num gw_points;
      let new_high :=
        bool_decide (gw = current_gameweek G)
        && bool_decide (st_highest_gameweek_points st < gw_points) in
      mret {| st_manager_points := st_manager_points st;
              st_phase_points := pp;
              st_highest_gameweek_manager :=
                if new_high then Some manager
                else st_highest_gameweek_manager st;
              st_highest_gameweek_points :=
                if new_high then gw_points
                else st_highest_gameweek_points st;
              st_printed := r.2 |}
  end.

(** Lines 336-358: the body of [for phase_num, player_ids in phases.items()]. *)
Definition phase_body (G : globals) (manager : string)
    (item : Z * list Z) (st : cmp_state) : res cmp_state :=
  let phase_num := item.1 in
  let player_ids := item.2 in
  pp ← pp_setitem (st_phase_points st) manager phase_num 0;
  gws ← getitem_int (PHASES G) phase_num;
  for_each gws (gw_body G manager phase_num player_ids)
    {| st_manager_points := st_manager_points st;
       st_phase_points := pp;
       st_highest_gameweek_manager := st_highest_gameweek_manager st;
       st_highest_gameweek_points := st_highest_gameweek_points st;
       st_printed := st_printed st |}.

(** Lines 332-358: the body of [for manager, phases in manager_squads.items()]. *)
Definition manager_body (G : globals) (item : string * dict Z (list Z))
    (st : cmp_state) : res cmp_state :=
  let manager := item.1 in
  let phases := item.2 in
  for_each phases (phase_body G manager)
    {| st_manager_points :=
         dict_set (st_manager_points st) manager
                  {| total := 0; phase_fields := [] |};
       st_phase_points := dict_set (st_phase_points st) manager [];
       st_highest_gameweek_manager := st_highest_gameweek_manager st;
       st_highest_gameweek_points := st_highest_gameweek_points st;
       st_printed := st_printed st |}.

(** Lines 362-365: one entry of [POINT_CORRECTIONS] against one manager. *)
Definition correction_manager_body (c : Z * Z * Z)
    (item : string * dict Z (list Z)) (pp : dict string (dict Z Z))
  : res (dict string (dict Z Z)) :=
  let player_id := c.1.1 in
  let phase := c.1.2 in
  let adjustment := c.2 in
  let manager := item.1 in
  let phases := item.2 in
  match dict_get phases phase with
  | Some ids =>
      if list_mem player_id ids
      then pp_iadd pp manager phase adjustment
      else Ok pp
  | None => Ok pp
  end.

(** Lines 361-365: one entry of [POINT_CORRECTIONS] against every manager. *)
Definition correction_body (G : globals) (c : Z * Z * Z)
    (pp : dict string (dict Z Z)) : res (dict string (dict Z Z)) :=
  for_each (manager_squads G) (correction_manager_body c) pp.

(** Lines 370-371: one [phase_k] field. *)
Definition field_body (manager : string) (kv : Z * Z)
    (mp : dict string mp_entry) : res (dict string mp_entry) :=
  e ← getitem_str mp manager;
  mret (dict_set mp manager
          {| total := total e;
             phase_fields := dict_set (phase_fields e) kv.1 kv.2 |}).

(** Lines 368-371: the totals and the [phase_k] fields. *)
Definition totals_body (item : string * dict Z Z)
    (mp : dict string mp_entry) : res (dict string mp_entry) :=
  let manager := item.1 in
  let phases := item.2 in
  e ← getitem_str mp manager;
  for_each phases (field_body manager)
    (dict_set mp manager
       {| total := sum (dict_values phases);
          phase_fields := phase_fields e |}).

Record cmp_result : Type := {
  manager_points : dict string mp_entry;
  phase_points : dict string (dict Z Z);
  highest_gameweek_manager : option string;
  highest_gameweek_points : Z;
  printed : list diag
}.

Definition is_empty_dict {K V} (d : dict K V) : bool :=
  match d with [] => true | _ => false end.

Definition calculate_manager_points (G : globals) : res cmp_result :=
  if is_empty_dict (manager_squads G) then
    Ok {| manager_points := []; phase_points := [];
          highest_gameweek_manager := None; highest_gameweek_points := 0;
          printed := [NoSquadData] |}
  else if bool_decide (gameweek_data G = ∅) then
    Ok {| manager_points := []; phase_points := [];
          highest_gameweek_manager := None; highest_gameweek_points := 0;
          printed := [NoGameweekData] |}
  else
    st ← for_each (manager_squads G) (manager_body G)
           {| st_manager_points := []; st_phase_points := [];
              st_highest_gameweek_manager := None;
              st_highest_gameweek_points := 0;
              st_printed := [] |};
    pp ← for_each (POINT_CORRECTIONS G) (correction_body G)
           (st_phase_points st);
    mp ← for_each pp totals_body (st_manager_points st);
    mret {| manager_points := mp; phase_points := pp;
            highest_gameweek_manager := st_highest_gameweek_manager st;
            highest_gameweek_points := st_highest_gameweek_points st;
            printed := st_printed st |}.

(** ** calculate_points_up_to_gameweek *)

(** [for player_id in ids: if player_id in scores: acc += scores[player_id]]
    (lines 1993-1995, and 478-480 with 574-576). *)
Definition add_scores (scores : gmap Z Z) (player_ids : list Z)
    (phase_points : Z) : Z :=
  foldl (fun acc player_id =>
           match scores !! player_id with
           | Some pts => acc + pts
           | None => acc
           end)
        phase_points player_ids.

(** Lines 1991-1995, over the gameweeks that pass the cutoff. *)
Definition upto_gameweeks (G : globals) (gws : list Z) (player_ids : list Z)
    (phase_points : Z) : Z :=
  foldl (fun acc gw =>
           match gameweek_data G !! gw with
           | Some scores => add_scores scores player_ids acc
           | None => acc
           end)
        phase_points gws.

(** Lines 1998-2000. *)
Definition upto_corrections (G : globals) (phase_num : Z)
    (player_ids : list Z) (phase_points : Z) : Z :=
  foldl (fun acc c =>
           if bool_decide (c.1.2 = phase_num) && list_mem c.1.1 player_ids
           then acc + c.2
           else acc)
        phase_points (POINT_CORRECTIONS G).

(** Lines 1987-2003. *)
Definition upto_phase_body (G : globals) (gameweek : Z) (manager : string)
    (item : Z * list Z) (mp : dict string mp_entry)
  : res (dict string mp_entry) :=
  let phase_num := item.1 in
  let player_ids := item.2 in
  gws ← getitem_int (PHASES G) phase_num;
  let phase_points :=
    upto_gameweeks G (filter (fun gw => gw ≤ gameweek) gws) player_ids 0 in
  let phase_points := upto_corrections G phase_num player_ids phase_points in
  e ← getitem_str mp manager;
  let mp :=
    dict_set mp manager
      {| total := total e;
         phase_fields := dict_set (phase_fields e) phase_num phase_points |} in
  e ← getitem_str mp manager;
  mret (dict_set mp manager
          {| total := total e + phase_points;
             phase_fields := phase_fields e |}).

(** Lines 1983-2003. *)
Definition upto_manager_body (G : globals) (gameweek : Z)
    (item : string * dict Z (list Z)) (mp : dict string mp_entry)
  : res (dict string mp_entry) :=
  let manager := item.1 in
  let phases := item.2 in
  for_each phases (upto_phase_body G gameweek manager)
    (dict_set mp manager {| total := 0; phase_fields := [] |}).

Definition calculate_points_up_to_gameweek (G : globals) (gameweek : Z)
  : res (dict string mp_entry) :=
  for_each (manager_squads G) (upto_manager_body G gameweek) [].

(** ** Standings *)

(** [sorted(items, key=.., reverse=True)]: a stable sort, descending; items
    with equal keys keep the order they came in. *)
Fixpoint insert_desc {A : Type} (key : A -> Z) (x : A) (l : list A) : list A :=
  match l with
  | [] => [x]
  | y :: l' =>
      if bool_decide (key x < key y) then y :: insert_desc key x l'
      else x :: y :: l'
  end.

Definition sorted_desc {A : Type} (key : A -> Z) (l : list A) : list A :=
  foldr (insert_desc key) [] l.

(** [enumerate(l, start)] *)
Fixpoint enumerate {A : Type} (start : Z) (l : list A) : list (Z * A) :=
  match l with
  | [] => []
  | x :: l' => (start, x) :: enumerate (start + 1) l'
  end.

(** [for position, (manager, _) in enumerate(sorted_managers, 1):
       standings[manager] = position] *)
Definition assign_positions {V : Type} (sorted_managers : list (string * V))
  : dict string Z :=
  foldl (fun standings pm => dict_set standings pm.2.1 pm.1)
        [] (enumerate 1 sorted_managers).

(** The ranking shared by [save_current_standings],
    [calculate_position_changes] and [generate_league_table]. *)
Definition standings_of (manager_points : dict string mp_entry)
  : dict string Z :=
  assign_positions (sorted_desc (fun x => total x.2) manager_points).

(** Lines 397-407: the dictionary that [save_current_standings] dumps. *)
Definition save_current_standings (G : globals)
    (manager_points : dict string mp_entry) : snapshot :=
  {| snap_gameweek := Some (current_gameweek G);
     snap_standings := Some (standings_of manager_points) |}.

Definition calculate_position_changes (G : globals) (current_gw : Z)
  : res (snapshot * snapshot) :=
  if bool_decide (current_gw ≤ 1) then
    Ok ({| snap_gameweek := Some current_gw; snap_standings := Some [] |},
        {| snap_gameweek := Some 0; snap_standings := Some [] |})
  else
    current_manager_points ← calculate_points_up_to_gameweek G current_gw;
    previous_manager_points ←
      calculate_points_up_to_gameweek G (current_gw - 1);
    mret ({| snap_gameweek := Some current_gw;
             snap_standings := Some (standings_of current_manager_points) |},
          {| snap_gameweek := Some (current_gw - 1);
             snap_standings := Some (standings_of previous_manager_points) |}).

(** ** The snapshot store *)

(** What the standings file can be when [load_previous_standings] runs. *)
Inductive file_state : Type :=
| NoFile                      (* [os.path.exists] is false *)
| Unreadable                  (* [open] or the read raises [IOError] *)
| Undecodable                 (* the read raises [UnicodeDecodeError]:
                                 the bytes of the file are no text *)
| Contents (text : string).

Section SnapshotStore.
(** The values that [json.load] returns, of whatever JSON type they are,
    and [{}] among them. *)
Context {J : Type}.
(** [json.load]; [None] stands for [JSONDecodeError]. *)
Variable json_load : string -> option J.
Variable empty_dict : J.

(** The handler of line 382 takes [JSONDecodeError] and [IOError] only,
    and what [json.load] returns is returned as it is. *)
Definition load_previous_standings (file : file_state)
  : res (J * list diag) :=
  match file with
  | NoFile => Ok (empty_dict, [])
  | Unreadable => Ok (empty_dict, [StandingsCorrupted])
  | Undecodable => Raise UnicodeDecodeError
  | Contents text =>
      match json_load text with
      | Some stored => Ok (stored, [])
      | None => Ok (empty_dict, [StandingsCorrupted])
      end
  end.
End SnapshotStore.

(** ** calculate_recent_gameweek_points *)

(** Lines 422-426: the first phase of [PHASES] whose range holds the
    current gameweek. *)
Fixpoint find_phase (phases : dict Z (list Z)) (gw : Z) : option Z :=
  match phases with
  | [] => None
  | (phase, gameweeks) :: rest =>
      if list_mem gw gameweeks then Some phase else find_phase rest gw
  end.

(** Lines 439-445. *)
Definition recent_players_loop (G : globals) (players : list Z)
  : Z * list diag :=
  foldl (fun acc player_id =>
           match gameweek_data G !! current_gameweek G ≫= (.!! player_id) with
           | Some pts => (acc.1 + pts, acc.2)
           | None =>
               (acc.1, acc.2 ++ [NoPointsFor player_id (current_gameweek G)])
           end)
        (0, []) players.

(** Lines 448-450. *)
Definition recent_corrections (G : globals) (current_phase : Z)
    (players : list Z) (recent_points : Z) : Z :=
  foldl (fun acc c =>
           if bool_decide (c.1.2 = current_phase) && list_mem c.1.1 players
           then acc + c.2
           else acc)
        recent_points (POINT_CORRECTIONS G).

Definition calculate_recent_gameweek_points (G : globals) (manager : string)
    (phase_points : dict string (dict Z Z)) : Z * list diag :=
  if bool_decide (current_gameweek G = 0) then (0, [])
  else
    let current_phase := find_phase (PHASES G) (current_gameweek G) in
    let known := default [] (dict_get phase_points manager) in
    match current_phase with
    | None => (0, [NoPhaseFor (current_gameweek G)])
    | Some cp =>
        if bool_decide (cp = 0) || negb (dict_mem known cp)
        then (0, [NoPhaseFor (current_gameweek G)])
        else
          match dict_get (manager_squads G) manager ≫= (fun p => dict_get p cp) with
          | Some players =>
              let r := recent_players_loop G players in
              (recent_corrections G cp players r.1, r.2)
          | None => (0, [])
          end
    end.

(** ** generate_league_table: the figures of each row *)

Inductive movement : Type := UP | DOWN | UNCHANGED | NEW.

#[global] Instance movement_eq_dec : EqDecision movement.
Proof. solve_decision. Defined.

(** Lines 535-562. *)
Definition position_change (prev_positions : dict string Z) (manager : string)
    (position : Z) : movement :=
  match dict_get prev_positions manager with
  | Some prev_pos =>
      if bool_decide (prev_pos > position) then UP
      else if bool_decide (prev_pos < position) then DOWN
      else UNCHANGED
  | None => NEW
  end.

(** Lines 475-480 (and again 571-576): what the phase 1 squad of a manager
    has scored from gameweek 1 to the current one. *)
Definition phase1_squad_performance (G : globals) (manager : string) : res Z :=
  for_each (range 1 (current_gameweek G + 1))
    (fun gw acc =>
       match gameweek_data G !! gw with
       | Some scores =>
           phases ← getitem_str (manager_squads G) manager;
           mret (add_scores scores (default [] (dict_get phases 1)) acc)
       | None => Ok acc
       end)
    0.

(** Lines 472-483. *)
Definition phase1_diffs_body (G : globals) (item : string * mp_entry)
    (phase1_diffs : dict string Z) : res (dict string Z) :=
  perf ← phase1_squad_performance G item.1;
  mret (dict_set phase1_diffs item.1 (total item.2 - perf)).

Record weekly_state : Type := {
  ws_weekly_points : dict string Z;
  ws_highest_weekly_points : Z;
  ws_weekly_points_manager : option string;
  ws_printed : list diag
}.

(** Lines 512-519. *)
Definition weekly_body (G : globals) (phase_points : dict string (dict Z Z))
    (manager : string) (ws : weekly_state) : res weekly_state :=
  let r := calculate_recent_gameweek_points G manager phase_points in
  let recent_gw_points := r.1 in
  let higher := bool_decide (recent_gw_points > ws_highest_weekly_points ws) in
  Ok {| ws_weekly_points :=
          dict_set (ws_weekly_points ws) manager recent_gw_points;
        ws_highest_weekly_points :=
          if higher then recent_gw_points else ws_highest_weekly_points ws;
        ws_weekly_points_manager :=
          if higher then Some manager else ws_weekly_points_manager ws;
        ws_printed := ws_printed ws ++ r.2 |}.

Record row : Type := {
  row_position : Z;
  row_manager : string;
  row_change : movement;
  row_total : Z;
  row_weekly : Z;
  row_gap_to_above : Z;
  row_gap_to_top : Z;
  row_diff_from_phase1 : Z;
  row_diff_rank : Z
}.

(** Lines 531-604; the state is [previous_points] and the rows so far. *)
Definition row_body (G : globals) (prev_positions : dict string Z)
    (weekly_points diff_rankings : dict string Z) (top_points : Z)
    (item : Z * (string * mp_entry)) (acc : Z * list row)
  : res (Z * list row) :=
  let position := item.1 in
  let manager := item.2.1 in
  let points := item.2.2 in
  let previous_points := acc.1 in
  recent_gw_points ← getitem_str weekly_points manager;
  perf ← phase1_squad_performance G manager;
  diff_rank ← getitem_str diff_rankings manager;
  mret (total points,
        acc.2 ++ [ {| row_position := position;
                      row_manager := manager;
                      row_change := position_change prev_positions manager position;
                      row_total := total points;
                      row_weekly := recent_gw_points;
                      row_gap_to_above := previous_points - total points;
                      row_gap_to_top := top_points - total points;
                      row_diff_from_phase1 := total points - perf;
                      row_diff_rank := diff_rank |} ]).

Record table : Type := {
  rows : list row;
  weekly_points_manager : option string;
  table_printed : list diag
}.

(** [None] is the "No manager data available" paragraph. *)
Definition generate_league_table (G : globals)
    (manager_points : dict string mp_entry)
    (phase_points : dict string (dict Z Z)) : res (option table) :=
  let prev_positions := default [] (snap_standings (previous_standings G)) in
  let sorted_managers := sorted_desc (fun x => total x.2) manager_points in
  match sorted_managers with
  | [] => Ok None
  | top :: _ =>
      phase1_diffs ← for_each manager_points (phase1_diffs_body G) [];
      let diff_rankings :=
        assign_positions (sorted_desc (fun x => x.2) phase1_diffs) in
      ws ← for_each (dict_keys manager_points) (weekly_body G phase_points)
             {| ws_weekly_points := []; ws_highest_weekly_points := 0;
                ws_weekly_points_manager := None; ws_printed := [] |};
      let top_points := total top.2 in
      acc ← for_each (enumerate 1 sorted_managers)
              (row_body G prev_positions (ws_weekly_points ws) diff_rankings
                        top_points)
              (top_points, []);
      mret (Some {| rows := acc.2;
                    weekly_points_manager := ws_weekly_points_manager ws;
                    table_printed := ws_printed ws |})
  end.

(** ** main, from the parsed squads to the league table *)

Record run : Type := {
  run_globals : globals;
  run_manager_points : dict string mp_entry;
  run_phase_points : dict string (dict Z Z);
  run_saved : snapshot;
  run_table : option table;
  run_printed : list diag
}.

Section Main.
(** [json.load] on the standings file of a run; [None] stands for
    [JSONDecodeError].  The run is modelled for a file whose JSON, when it
    is JSON, is a standings dictionary: an object whose "gameweek", when
    there, is an integer and whose "standings", when there, maps names to
    integers.  [load_previous_standings] itself returns any other value as
    it is. *)
Variable json_load : string -> option snapshot.
(** The random swaps of [--test-movement] (lines 1812-1833). *)
Variable shuffle : dict string Z -> dict string Z.
(** [process_gameweek_data(fetch_gameweek_data(gw))]. *)
Variable fetch : Z -> gmap Z Z.

(** Lines 1801-1835. *)
Definition test_mode_standings (loaded : snapshot) : snapshot :=
  match snap_standings loaded with
  | Some standings =>
      if bool_decide (4 ≤ Z.of_nat (length standings))
      then {| snap_gameweek := snap_gameweek loaded;
              snap_standings := Some (shuffle standings) |}
      else loaded
  | None => loaded
  end.

(** Lines 1867-1870. *)
Definition load_gameweeks (gameweek_data : gmap Z (gmap Z Z)) (last : Z)
  : gmap Z (gmap Z Z) :=
  foldl (fun data gw => <[gw := fetch gw]> data) gameweek_data
        (range 1 (last + 1)).

Definition with_run_state (G : globals) (data : gmap Z (gmap Z Z))
    (gw : Z) (prev : snapshot) : globals :=
  {| PHASES := PHASES G;
     POINT_CORRECTIONS := POINT_CORRECTIONS G;
     manager_squads := manager_squads G;
     gameweek_data := data;
     current_gameweek := gw;
     previous_standings := prev |}.

(** Lines 1859-1862: gameweek 1 stands in when the API named none. *)
Definition run_gameweek (G : globals) : Z :=
  if bool_decide (current_gameweek G = 0) then 1 else current_gameweek G.

(** Lines 1801-1835: what [previous_standings] is before the points are
    computed, and what loading it printed. *)
Definition standings_before (test_mode : bool) (file : file_state)
    (G : globals) : res (snapshot * list diag) :=
  if test_mode then
    loaded ← load_previous_standings json_load empty_snapshot file;
    mret (test_mode_standings loaded.1, loaded.2)
  else Ok (previous_standings G, []).

(** The tables once lines 1801-1870 have run, [before] being what lines
    1801-1835 left in [previous_standings]. *)
Definition loaded_globals (G : globals) (before : snapshot) : globals :=
  with_run_state G
    (load_gameweeks (gameweek_data G) (run_gameweek G))
    (run_gameweek G)
    before.

(** Lines 1877-1891: the baseline of the position changes. *)
Definition baseline (test_mode : bool) (G : globals) : res snapshot :=
  if test_mode then Ok (previous_standings G)
  else if bool_decide (current_gameweek G > 1) then
    changes ← calculate_position_changes G (current_gameweek G);
    mret changes.2
  else Ok {| snap_gameweek := Some 0; snap_standings := Some [] |}.

(** [G] holds the tables as they are once the squads file is parsed and
    lines 1843-1857 have read the current gameweek off the API ([0] when
    they found none).  [None] is the early [return] of line 1798. *)
Definition main (test_mode : bool) (file : file_state) (G : globals)
  : res (option run) :=
  if is_empty_dict (manager_squads G) then Ok None
  else
    before ← standings_before test_mode file G;
    let G1 := loaded_globals G before.1 in
    r ← calculate_manager_points G1;
    prev ← baseline test_mode G1;
    let G2 :=
      with_run_state G1 (gameweek_data G1) (current_gameweek G1) prev in
    let saved := save_current_standings G2 (manager_points r) in
    t ← generate_league_table G2 (manager_points r) (phase_points r);
    mret (Some {| run_globals := G2;
                  run_manager_points := manager_points r;
                  run_phase_points := phase_points r;
                  run_saved := saved;
                  run_table := t;
                  run_printed :=
                    before.2 ++ printed r
                    ++ match t with
                       | Some t => table_printed t
                       | None => []
                       end |}).
End Main.

(** The scenario of the specification. *)
Definition alice_globals (cgw : Z) : globals :=
  {| PHASES := [(1, range 1 3)];
     POINT_CORRECTIONS := [];
     manager_squads := [("Alice"%string, [(1, [10; 11])])];
     gameweek_data :=
       {[ 1 := {[ 10 := 5; 11 := 3 ]}; 2 := {[ 10 := 2 ]} ]};
     current_gameweek := cgw;
     previous_standings := empty_snapshot |}.

(** ** main: the current gameweek *)


(** [obj[name]] for an object of the API, given what the key holds when
    it is there. *)
Definition getitem_key {A : Type} (name : string) (held : option A) : res A :=
  match held with
  | Some a => Ok a
  | None => Raise (KeyError (KStr name))
  end.





(** ** main: the swaps of [--test-movement] *)

(** Lines 1815-1819, for the two managers that [random.sample] drew. *)
Definition swap_positions (manager1 manager2 : string)
    (standings : dict string Z) : res (dict string Z) :=
  pos1 ← getitem_str standings manager1;
  pos2 ← getitem_str standings manager2;
  mret (dict_set (dict_set standings manager1 pos2) manager2 pos1).

(** Lines 1829-1830: the first manager other than [manager3] at a
    position. *)
Fixpoint holder_of (manager3 : string) (position : Z)
    (items : dict string Z) : option string :=
  match items with
  | [] => None
  | (m, p) :: rest =>
      if bool_decide (m ≠ manager3) && bool_decide (p = position)
      then Some m
      else holder_of manager3 position rest
  end.

(** Lines 1824-1833, for the manager that [random.choice] drew. *)
Definition move_up (manager3 : string) (standings : dict string Z)
  : res (dict string Z) :=
  pos3 ← getitem_str standings manager3;
  if bool_decide (pos3 > 1) then
    let standings := dict_set standings manager3 (pos3 - 1) in
    match holder_of manager3 (pos3 - 1) standings with
    | Some m => Ok (dict_set standings m pos3)
    | None => Ok standings
    end
  else Ok standings.

(** Lines 1812-1833. *)
Definition test_swaps (manager1 manager2 manager3 : string)
    (standings : dict string Z) : res (dict string Z) :=
  let managers := dict_keys standings in
  if bool_decide (4 ≤ Z.of_nat (length managers)) then
    swapped ← swap_positions manager1 manager2 standings;
    if bool_decide (5 ≤ Z.of_nat (length managers))
    then move_up manager3 swapped
    else Ok swapped
  else Ok standings.

(** ** process_player_data and process_gameweek_data *)

Definition TEAM_MAPPING : dict Z string :=
  [ (1, "ARS"); (2, "AVL"); (3, "BOU"); (4, "BRE"); (5, "BHA");
    (6, "CHE"); (7, "CRY"); (8, "EVE"); (9, "FUL"); (10, "IPS");
    (11, "LEI"); (12, "LIV"); (13, "MCI"); (14, "MUN"); (15, "NEW");
    (16, "NFO"); (17, "SOU"); (18, "TOT"); (19, "WHU"); (20, "WOL") ]%string.

Definition POSITION_MAPPING : dict Z string :=
  [ (1, "GKP"); (2, "DEF"); (3, "MID"); (4, "FWD") ]%string.

(** The [print] calls of the functions that read the API. *)
Inductive notice : Type :=
| NoPlayersProcessed          (* "WARNING: No player data was processed from the API!" *)
| NoElementsKey               (* "WARNING: Gameweek data doesn't contain 'elements' key" *)
| AvailableKeys               (* "Available keys: .." *)
| NoPointsFound (gw : Z)      (* "WARNING: No player points data found for gameweek .." *)
| NoPlayerInfo (player_id : Z). (* "Warning: Player data not available for ID .." *)

(** An entry of [player_data]. *)
Record player : Type := {
  info_id : Z;
  info_name : string;
  info_position : string;
  info_team : string;
  points_by_gameweek : gmap Z Z
}.

(** An entry of [bootstrap_data['elements']], with what each key that the
    script reads holds when the key is there. *)
Record element : Type := {
  element_id : option Z;
  web_name : option string;
  element_type : option Z;
  team : option Z
}.

(** Lines 275-282. *)
Definition player_body (el : element) (players : gmap Z player)
  : res (gmap Z player) :=
  player_id ← getitem_key "id" (element_id el);
  name ← getitem_key "web_name" (web_name el);
  type ← getitem_key "element_type" (element_type el);
  tm ← getitem_key "team" (team el);
  mret (<[player_id :=
            {| info_id := player_id;
               info_name := name;
               info_position :=
                 default "Unknown"%string (dict_get POSITION_MAPPING type);
               info_team := default "Unknown"%string (dict_get TEAM_MAPPING tm);
               points_by_gameweek := ∅ |}]> players).

(** [elements] is [None] for a response without the key ['elements']. *)
Definition process_player_data (elements : option (list element))
  : res (gmap Z player * list notice) :=
  elements ← getitem_key "elements" elements;
  players ← for_each elements player_body ∅;
  mret (players,
        if bool_decide (players = ∅) then [NoPlayersProcessed] else []).

(** An entry of [gw_data['elements']]: the identifier when the key is
    there, and under ['stats'], when that key is there, what
    ['total_points'] holds when it is there. *)
Record live_element : Type := {
  live_id : option Z;
  live_stats : option (option Z)
}.

(** [player_data[player_id]['points_by_gameweek'][gw] = total_points] *)
Definition record_points (gw total_points : Z) (info : player) : player :=
  {| info_id := info_id info;
     info_name := info_name info;
     info_position := info_position info;
     info_team := info_team info;
     points_by_gameweek := <[gw := total_points]> (points_by_gameweek info) |}.

(** Lines 299-308; the state is [points] and [player_data]. *)
Definition live_body (current_gameweek : Z) (el : live_element)
    (st : gmap Z Z * gmap Z player) : res (gmap Z Z * gmap Z player) :=
  player_id ← getitem_key "id" (live_id el);
  match live_stats el with
  | Some (Some total_points) =>
      Ok (<[player_id := total_points]> st.1,
          match st.2 !! player_id with
          | Some info =>
              <[player_id := record_points current_gameweek total_points info]>
                st.2
          | None => st.2
          end)
  | _ => Ok st
  end.

(** [gw_data] is [None] for a response without the key ['elements']; the
    result is [points], the [player_data] that the call leaves, and what it
    printed. *)
Definition process_gameweek_data (current_gameweek : Z)
    (player_data : gmap Z player) (gw_data : option (list live_element))
  : res (gmap Z Z * gmap Z player * list notice) :=
  match gw_data with
  | None => Ok (∅, player_data, [NoElementsKey; AvailableKeys])
  | Some elements =>
      st ← for_each elements (live_body current_gameweek) (∅, player_data);
      mret (st.1, st.2,
            if bool_decide (st.1 = ∅) then [NoPointsFound current_gameweek]
            else [])
  end.

(** Lines 1867-1870 of [main]; [api gw] is what [fetch_gameweek_data(gw)]
    returns. *)
Definition fetch_body (api : Z -> option (list live_element))
    (current_gameweek : Z) (gw : Z)
    (st : gmap Z (gmap Z Z) * gmap Z player * list notice)
  : res (gmap Z (gmap Z Z) * gmap Z player * list notice) :=
  r ← process_gameweek_data current_gameweek st.1.2 (api gw);
  mret (<[gw := r.1.1]> st.1.1, r.1.2, st.2 ++ r.2).

Definition fetch_gameweeks (api : Z -> option (list live_element))
    (current_gameweek : Z) (gameweek_data : gmap Z (gmap Z Z))
    (player_data : gmap Z player)
  : res (gmap Z (gmap Z Z) * gmap Z player * list notice) :=
  for_each (range 1 (current_gameweek + 1)) (fetch_body api current_gameweek)
           (gameweek_data, player_data, []).

(** ** generate_squad_details: the figures of each squad *)

(** Lines 652-654 (and 827-829): [current_phase] counts down from 5 while
    it is above 0 and not a key of [phases]. *)
Fixpoint count_down (current_phase : nat) (phases : dict Z (list Z)) : Z :=
  match current_phase with
  | O => 0
  | S below =>
      if dict_mem phases (Z.of_nat current_phase) then Z.of_nat current_phase
      else count_down below phases
  end.

Definition current_phase_of (phases : dict Z (list Z)) : Z :=
  count_down 5 phases.

(** Lines 665-670: the players that are added to [previous_players], in
    the order of the loops. *)
Definition previous_players (phases : dict Z (list Z)) (current_phase : Z)
    (current_squad_ids : list Z) : list Z :=
  flat_map (fun ph =>
              if bool_decide (ph.1 < current_phase)
              then filter (fun player_id => player_id ∉ current_squad_ids) ph.2
              else [])
           phases.

(** An entry of [current_players_data] or of [past_players_data]. *)
Record squad_player : Type := {
  sp_id : Z;
  sp_name : string;
  sp_team : string;
  sp_position : string;
  sp_position_order : Z
}.

(** [position_order.get(position, 99)] *)
Definition position_order : dict string Z :=
  [ ("GKP", 1); ("DEF", 2); ("MID", 3); ("FWD", 4) ]%string.

(** Lines 676-692 (and 695-711); the players without an entry in
    [player_data] are skipped with a message. *)
Definition collect_players (player_data : gmap Z player) (ids : list Z)
  : list squad_player * list notice :=
  foldl (fun acc player_id =>
           match player_data !! player_id with
           | None => (acc.1, acc.2 ++ [NoPlayerInfo player_id])
           | Some info =>
               (acc.1 ++ [ {| sp_id := player_id;
                              sp_name := info_name info;
                              sp_team := info_team info;
                              sp_position := info_position info;
                              sp_position_order :=
                                default 99 (dict_get position_order
                                                     (info_position info)) |} ],
                acc.2)
           end)
        ([], []) ids.

(** [l.sort(key=..)]: a stable sort, ascending. *)
Definition sorted_asc {A : Type} (key : A -> Z) (l : list A) : list A :=
  sorted_desc (fun x => - key x) l.

(** Lines 741-749: what a player scored for the manager in a phase. *)
Definition player_phase_points (G : globals) (player_id phase : Z) : res Z :=
  gws ← getitem_int (PHASES G) phase;
  let player_phase_points :=
    foldl (fun acc gw =>
             match gameweek_data G !! gw ≫= (.!! player_id) with
             | Some pts => acc + pts
             | None => acc
             end)
          0 gws in
  mret (foldl (fun acc c =>
                 if bool_decide (player_id = c.1.1) && bool_decide (phase = c.1.2)
                 then acc + c.2
                 else acc)
              player_phase_points (POINT_CORRECTIONS G)).

(** A row of a squad table: the player, the five phase cells ([None] is
    the dash) and the total. *)
Record squad_row : Type := {
  srow_player : squad_player;
  srow_cells : list (option Z);
  srow_total : Z
}.

(** Lines 737-759, the state being the cells so far and
    [player_total_points]. *)
Definition cell_body (G : globals) (phases : dict Z (list Z)) (player_id : Z)
    (phase : Z) (acc : list (option Z) * Z) : res (list (option Z) * Z) :=
  match dict_get phases phase with
  | Some ids =>
      if list_mem player_id ids then
        pts ← player_phase_points G player_id phase;
        mret (acc.1 ++ [Some pts], acc.2 + pts)
      else Ok (acc.1 ++ [None], acc.2)
  | None => Ok (acc.1 ++ [None], acc.2)
  end.

Definition squad_row_of (G : globals) (phases : dict Z (list Z))
    (pl : squad_player) : res squad_row :=
  acc ← for_each (range 1 6) (cell_body G phases (sp_id pl)) ([], 0);
  mret {| srow_player := pl; srow_cells := acc.1; srow_total := acc.2 |}.

(** [for x in l: rows.append(f(x))] *)
Definition rows_of_players (G : globals) (phases : dict Z (list Z))
    (players : list squad_player) : res (list squad_row) :=
  for_each players
    (fun pl rows => row ← squad_row_of G phases pl; mret (rows ++ [row])) [].

(** The table of one manager: the total of the heading and, unless the
    manager has no squad in the phases 1 to 5, the current phase with the
    rows of the current squad and of the previous players. *)
Record squad_block : Type := {
  block_manager : string;
  block_total : Z;
  block_squad : option (Z * list squad_row * list squad_row)
}.

Section SquadDetails.
(** The order in which Python iterates over the set that was built by
    adding the elements of a list one after the other. *)
Variable set_iter : list Z -> list Z.

(** Lines 648-803, with the messages of lines 680 and 699 when the
    table is made. *)
Definition squad_block_of (G : globals) (player_data : gmap Z player)
    (manager : string) (points_info : mp_entry) (phases : dict Z (list Z))
  : res (squad_block * list notice) :=
  let current_phase := current_phase_of phases in
  if bool_decide (current_phase = 0) then
    Ok ({| block_manager := manager; block_total := total points_info;
           block_squad := None |}, [])
  else
    let current_squad := default [] (dict_get phases current_phase) in
    let previous := previous_players phases current_phase current_squad in
    let current_players_data :=
      collect_players player_data (set_iter current_squad) in
    let past_players_data := collect_players player_data (set_iter previous) in
    current_rows ←
      rows_of_players G phases
        (sorted_asc sp_position_order current_players_data.1);
    past_rows ←
      rows_of_players G phases
        (sorted_asc sp_position_order past_players_data.1);
    mret ({| block_manager := manager; block_total := total points_info;
             block_squad := Some (current_phase, current_rows, past_rows) |},
          current_players_data.2 ++ past_players_data.2).

(** [generate_squad_details], as [generate_html] calls it: on
    [manager_squads], [player_data], [gameweek_data] and the score mapping.
    [None] is the "No manager squad data available." text. *)
Definition generate_squad_details (G : globals) (player_data : gmap Z player)
    (manager_points : dict string mp_entry)
  : res (option (list squad_block) * list notice) :=
  if is_empty_dict (manager_squads G) then Ok (None, [])
  else
    acc ← for_each (sorted_desc (fun x => total x.2) manager_points)
            (fun item acc =>
               match dict_get (manager_squads G) item.1 with
               | None => Ok acc
               | Some phases =>
                   b ← squad_block_of G player_data item.1 item.2 phases;
                   mret (acc.1 ++ [b.1], acc.2 ++ b.2)
               end)
            ([], []);
    mret (Some acc.1, acc.2).
End SquadDetails.

(** ** generate_all_players_table: the managers of a player *)

(** Lines 834-837. *)
Definition add_holder (manager : string) (player_manager_map : gmap Z (list string))
    (player_id : Z) : gmap Z (list string) :=
  <[player_id := default [] (player_manager_map !! player_id) ++ [manager]]>
    player_manager_map.

(** Lines 822-837. *)
Definition player_manager_map_of (manager_squad_data : dict string (dict Z (list Z)))
  : gmap Z (list string) :=
  foldl (fun player_manager_map item =>
           let current_phase := current_phase_of item.2 in
           if bool_decide (current_phase > 0)
           then foldl (add_holder item.1) player_manager_map
                      (default [] (dict_get item.2 current_phase))
           else player_manager_map)
        ∅ manager_squad_data.

(** Lines 859-860 and 871: the managers that the row of a player names. *)
Definition managers_of (player_manager_map : gmap Z (list string))
    (player_id : Z) : list string :=
  default [] (player_manager_map !! player_id).

(** ** parse_csv_squads_file and parse_squads_file: the rows of a squads file *)

(** What the parsers print about the rows. *)
Inductive parse_notice : Type :=
  | FoundPhase (current_phase : Z)
  | InvalidPhaseRow (row : list string)
  | AddedPlayers (count : nat) (manager_name : string) (current_phase : Z)
  | InvalidPlayerIds (manager_name : string) (player_ids_text : string)
  | NoSquadsParsed
  | ErrorParsing.

(** The variables of the loop over the rows, and what was printed. *)
Record parse_state : Type := {
  ps_squads : dict string (dict Z (list Z));
  ps_current_phase : option Z;
  ps_printed : list parse_notice
}.

(** [squads = {}; current_phase = None] *)
Definition parse_start : parse_state :=
  {| ps_squads := []; ps_current_phase := None; ps_printed := [] |}.

(** Lines 119-123 (and 176-179). *)
Definition store (squads : dict string (dict Z (list Z)))
    (manager_name : string) (current_phase : Z) (player_ids : list Z)
  : dict string (dict Z (list Z)) :=
  let squads :=
    if dict_mem squads manager_name then squads
    else dict_set squads manager_name [] in
  dict_set squads manager_name
    (dict_set (default [] (dict_get squads manager_name)) current_phase
              player_ids).

(** The library of Python that the parsers call: [s.strip()],
    [s.lower()], [sub in s], [s.split()], [s.split(sep)], [sep.join(l)],
    [s.endswith(suffix)], [s[:-1]], [int(s)] with [None] for ValueError,
    and [re.match] with the two patterns of [parse_squads_file], giving
    the groups of a match. *)
Class PyLib : Type := {
  py_strip : string -> string;
  py_lower : string -> string;
  py_in : string -> string -> bool;
  py_split : string -> list string;
  py_split_on : string -> string -> list string;
  py_join : string -> list string -> string;
  py_endswith : string -> string -> bool;
  py_but_last : string -> string;
  py_int : string -> option Z;
  re_phase : string -> option string;
  re_manager : string -> option (string * string)
}.

Section Parsers.
Context `{PyLib}.

(** Line 116 (and 174); [None] when an [int] raises ValueError. *)
Definition player_ids_of (player_ids_text : string) : option (list Z) :=
  mapM (fun pid => py_int (py_strip pid))
       (filter (fun pid => py_strip pid ≠ "") (py_split_on player_ids_text ",")).

(** Line 100; [None] for IndexError and for ValueError. *)
Definition csv_phase_of (row : list string) : option Z :=
  py_split (py_strip (default "" (row !! 0%nat))) !! 1%nat ≫= py_int.

(** Lines 108-110. *)
Definition csv_manager_name (row : list string) : string :=
  let manager_name := py_strip (default "" (row !! 0%nat)) in
  if py_endswith manager_name ":" then py_but_last manager_name else manager_name.

(** Line 113. *)
Definition csv_player_ids_text (row : list string) : string :=
  py_join "," (map py_strip (filter (fun cell => py_strip cell ≠ "") (drop 1 row))).

(** Lines 94-126: one row of the CSV reader. *)
Definition csv_row (st : parse_state) (row : list string) : parse_state :=
  if bool_decide (row = [])
     || forallb (fun cell => bool_decide (py_strip cell = "")) row
  then st
  else if bool_decide (length row = 1%nat)
          && py_in "phase" (py_lower (default "" (row !! 0%nat)))
  then
    match csv_phase_of row with
    | Some current_phase =>
        {| ps_squads := ps_squads st;
           ps_current_phase := Some current_phase;
           ps_printed := ps_printed st ++ [FoundPhase current_phase] |}
    | None =>
        {| ps_squads := ps_squads st;
           ps_current_phase := ps_current_phase st;
           ps_printed := ps_printed st ++ [InvalidPhaseRow row] |}
    end
  else if bool_decide (2 ≤ length row)%nat then
    match ps_current_phase st with
    | Some current_phase =>
        let manager_name := csv_manager_name row in
        let player_ids_text := csv_player_ids_text row in
        match player_ids_of player_ids_text with
        | Some player_ids =>
            if bool_decide (player_ids = []) then st
            else
              {| ps_squads := store (ps_squads st) manager_name
                                    current_phase player_ids;
                 ps_current_phase := ps_current_phase st;
                 ps_printed :=
                   ps_printed st
                   ++ [AddedPlayers (length player_ids) manager_name
                                    current_phase] |}
        | None =>
            {| ps_squads := ps_squads st;
               ps_current_phase := ps_current_phase st;
               ps_printed :=
                 ps_printed st
                 ++ [InvalidPlayerIds manager_name player_ids_text] |}
        end
    | None => st
    end
  else st.

(** Lines 86-87, 93-131 and 145 of [parse_csv_squads_file], on the rows
    that [csv.reader] gives for the file; [NoSquadsParsed] is the
    warning of lines 129-131. *)
Definition parse_csv_rows (rows : list (list string))
  : dict string (dict Z (list Z)) * list parse_notice :=
  let st := foldl csv_row parse_start rows in
  (ps_squads st,
   ps_printed st ++ if is_empty_dict (ps_squads st) then [NoSquadsParsed]
                    else []).

(** Lines 156-182: one line of the text file; [None] when [int] raises
    ValueError, which no handler inside the loop takes. *)
Definition txt_line (st : parse_state) (line : string) : option parse_state :=
  let line := py_strip line in
  if bool_decide (line = "") then Some st
  else
    match re_phase line with
    | Some digits =>
        current_phase ← py_int digits;
        Some {| ps_squads := ps_squads st;
                ps_current_phase := Some current_phase;
                ps_printed := ps_printed st ++ [FoundPhase current_phase] |}
    | None =>
        match re_manager line, ps_current_phase st with
        | Some groups, Some current_phase =>
            if bool_decide (current_phase = 0) then Some st
            else
              let manager_name := py_strip groups.1 in
              let player_ids_text := py_strip groups.2 in
              match player_ids_of player_ids_text with
              | Some player_ids =>
                  Some {| ps_squads := store (ps_squads st) manager_name
                                             current_phase player_ids;
                          ps_current_phase := ps_current_phase st;
                          ps_printed :=
                            ps_printed st
                            ++ [AddedPlayers (length player_ids) manager_name
                                             current_phase] |}
              | None =>
                  Some {| ps_squads := ps_squads st;
                          ps_current_phase := ps_current_phase st;
                          ps_printed :=
                            ps_printed st
                            ++ [InvalidPlayerIds manager_name
                                                 player_ids_text] |}
              end
        | _, _ => Some st
        end
    end.

(** The loop of lines 155-182: the state when the lines are through, or
    the state at the line where the exception was raised. *)
Fixpoint txt_lines (st : parse_state) (lines : list string)
  : parse_state * bool :=
  match lines with
  | [] => (st, false)
  | line :: rest =>
      match txt_line st line with
      | Some st' => txt_lines st' rest
      | None => (st, true)
      end
  end.

(** Lines 149-150, 155-185 and 188-191 of [parse_squads_file], on the
    lines of the file. *)
Definition parse_txt_lines (lines : list string)
  : dict string (dict Z (list Z)) * list parse_notice :=
  let '(st, raised) := txt_lines parse_start lines in
  (ps_squads st,
   ps_printed st
   ++ if raised then [ErrorParsing]
      else if is_empty_dict (ps_squads st) then [NoSquadsParsed] else []).
End Parsers.

(** * Specification

    The totals in the words of the specification, the well-formedness of
    the inputs, and the inputs of the examples. *)

(** The order of a list sorted on [key], highest first. *)
Definition desc {A : Type} (key : A -> Z) : relation A :=
  fun a b => key b ≤ key a.

(** Specification: a missing score counts as 0. *)
Definition score (G : globals) (gw player_id : Z) : Z :=
  default 0 (gameweek_data G !! gw ≫= (.!! player_id)).

(** Specification: the sum, over the rostered players, of their score in
    one period. *)
Definition squad_points (G : globals) (gw : Z) (player_ids : list Z) : Z :=
  sum (map (score G gw) player_ids).

(** Specification: the sum over the periods of a phase. *)
Definition raw_phase_total (G : globals) (gws : list Z) (player_ids : list Z)
  : Z :=
  sum (map (fun gw => squad_points G gw player_ids) gws).

(** Specification: what one adjustment adds to the phase [k] total of a
    roster. *)
Definition adjustment_for (k : Z) (player_ids : list Z) (c : Z * Z * Z) : Z :=
  if bool_decide (c.1.2 = k) && list_mem c.1.1 player_ids then c.2 else 0.

(** Specification: the sum of the matching adjustments. *)
Definition adjustments_total (corrections : list (Z * Z * Z)) (k : Z)
    (player_ids : list Z) : Z :=
  sum (map (adjustment_for k player_ids) corrections).

(** The periods of a phase ([[]] for a phase that [PHASES] lacks). *)
Definition phase_range (G : globals) (k : Z) : list Z :=
  default [] (dict_get (PHASES G) k).

(** Specification: the per-phase total is the sum over the periods of the
    phase of the sum over the rostered players of their score, plus the
    sum of the matching adjustments. *)
Definition spec_phase_total (G : globals) (k : Z) (player_ids : list Z) : Z :=
  raw_phase_total G (phase_range G k) player_ids
  + adjustments_total (POINT_CORRECTIONS G) k player_ids.

(** The shape of [phase_points]: one value per roster entry. *)
Definition pp_shape (f : Z -> list Z -> Z)
    (squads : dict string (dict Z (list Z))) : dict string (dict Z Z) :=
  map (fun item => (item.1, map (fun ph => (ph.1, f ph.1 ph.2)) item.2)) squads.

(** Specification: the grand total is the sum of the per-phase totals. *)
Definition entry_of (phases : dict Z Z) : mp_entry :=
  {| total := sum (dict_values phases); phase_fields := phases |}.

(** The shape of [manager_points]: one entry per manager of
    [phase_points]. *)
Definition mp_shape (pp : dict string (dict Z Z)) : dict string mp_entry :=
  map (fun item => (item.1, entry_of item.2)) pp.

(** Rosters as dictionaries: no key twice, at either level. *)
Definition wf_squads (squads : dict string (dict Z (list Z))) : Prop :=
  NoDup (dict_keys squads)
  /\ Forall (fun item => NoDup (dict_keys item.2)) squads.

(** Every phase of every roster is a phase of [PHASES]. *)
Definition phases_known (G : globals) : Prop :=
  Forall (fun item =>
            Forall (fun ph => is_Some (dict_get (PHASES G) ph.1)) item.2)
         (manager_squads G).

#[global] Instance wf_squads_dec squads : Decision (wf_squads squads).
Proof. unfold wf_squads. apply _. Defined.

#[global] Instance phases_known_dec G : Decision (phases_known G).
Proof. unfold phases_known. apply _. Defined.

(** [{'total': 0}] *)
Definition zero_entry : mp_entry := {| total := 0; phase_fields := [] |}.

(** The phase total that the cutoff variant computes. *)
Definition upto_phase_total (G : globals) (gameweek : Z) (k : Z)
    (player_ids : list Z) : Z :=
  raw_phase_total G (filter (fun gw => gw ≤ gameweek) (phase_range G k))
                  player_ids
  + adjustments_total (POINT_CORRECTIONS G) k player_ids.

(** A roster entry whose phase [PHASES] lacks. *)
Definition unknown_phase (G : globals) (k : Z) : Prop :=
  dict_get (PHASES G) k = None
  /\ exists m phases ids, (m, phases) ∈ manager_squads G /\ (k, ids) ∈ phases.

(** The tables with another [POINT_CORRECTIONS]. *)
Definition with_corrections (G : globals) (corrections : list (Z * Z * Z))
  : globals :=
  {| PHASES := PHASES G;
     POINT_CORRECTIONS := corrections;
     manager_squads := manager_squads G;
     gameweek_data := gameweek_data G;
     current_gameweek := current_gameweek G;
     previous_standings := previous_standings G |}.

(** The tables with another [gameweek_data]. *)
Definition with_gameweek_data (G : globals) (data : gmap Z (gmap Z Z))
  : globals :=
  {| PHASES := PHASES G;
     POINT_CORRECTIONS := POINT_CORRECTIONS G;
     manager_squads := manager_squads G;
     gameweek_data := data;
     current_gameweek := current_gameweek G;
     previous_standings := previous_standings G |}.

(** The phase [k] roster of a manager; empty when there is none. *)
Definition roster (G : globals) (m : string) (k : Z) : list Z :=
  default [] (dict_get (manager_squads G) m ≫= (fun phases => dict_get phases k)).

(** [phase_points[m][k]], when present. *)
Definition phase_total_of (pp : dict string (dict Z Z)) (m : string) (k : Z)
  : option Z :=
  dict_get pp m ≫= (fun d => dict_get d k).

(** [manager_points[m]['total']], when present. *)
Definition total_of (mp : dict string mp_entry) (m : string) : option Z :=
  total <$> dict_get mp m.

(** [manager_points[m][f'phase_{k}']], when present. *)
Definition phase_field_of (mp : dict string mp_entry) (m : string) (k : Z)
  : option Z :=
  dict_get mp m ≫= (fun e => dict_get (phase_fields e) k).

(** [gameweek_data[gw][p] = v] *)
Definition with_score (G : globals) (gw p v : Z) : globals :=
  with_gameweek_data G
    (<[gw := <[p := v]> (default ∅ (gameweek_data G !! gw))]> (gameweek_data G)).

(** The positions that [enumerate] hands out, keyed by manager. *)
Definition positions {V} (start : Z) (l : list (string * V)) : dict string Z :=
  map (fun pm => (pm.2.1, pm.1)) (enumerate start l).

(** Phase indices and periods are positive, as in [PHASES_default]. *)
Definition phases_positive (G : globals) : Prop :=
  Forall (fun ph => 0 < ph.1 /\ Forall (fun gw => 0 < gw) ph.2) (PHASES G).

#[global] Instance phases_positive_dec G : Decision (phases_positive G).
Proof. unfold phases_positive. apply _. Defined.

(** Specification: the cumulative score, over the periods from the first
    to the current one, of the players that the manager held in phase 1. *)
Definition original_squad_score (G : globals) (m : string) : Z :=
  sum (map (fun gw => sum (map (score G gw) (roster G m 1)))
           (range 1 (current_gameweek G + 1))).

(** Grand total minus the score of the phase 1 squad. *)
Definition phase1_diffs_of (G : globals) (mp : dict string mp_entry)
  : dict string Z :=
  map (fun item => (item.1, total item.2 - original_squad_score G item.1)) mp.

(** What a row of the table says about the item it was built from. *)
Definition row_of (G : globals) (prev_positions diff_rankings : dict string Z)
    (item : Z * (string * mp_entry)) (r : row) : Prop :=
  row_position r = item.1
  /\ row_manager r = item.2.1
  /\ row_total r = total item.2.2
  /\ row_change r = position_change prev_positions item.2.1 item.1
  /\ row_diff_from_phase1 r
     = total item.2.2 - original_squad_score G item.2.1
  /\ dict_get diff_rankings item.2.1 = Some (row_diff_rank r).

(** A [--test-movement] run in the first gameweek, with standings on file
    from an earlier run. *)
Definition stored_alice : snapshot :=
  {| snap_gameweek := Some 1;
     snap_standings := Some [("Alice"%string, 1)] |}.

(** The tables of a one-manager league before gameweek 1 is fetched. *)
Definition first_gameweek_globals : globals :=
  {| PHASES := PHASES_default;
     POINT_CORRECTIONS := POINT_CORRECTIONS_default;
     manager_squads := [("Alice"%string, [(1, [10; 11])])];
     gameweek_data := ∅;
     current_gameweek := 1;
     previous_standings := empty_snapshot |}.

(** Two seasons that differ only in the phase 2 roster of Bob. *)
Definition wd_gameweek_data : gmap Z (gmap Z Z) :=
  {[ 1 := {[ 1 := 5; 2 := 5 ]}; 12 := {[ 1 := 1; 2 := 0; 3 := 9 ]} ]}.

(** Gameweek 12 opens phase 2. *)
Definition wd_globals (bob_phase2 : list Z) : globals :=
  {| PHASES := PHASES_default;
     POINT_CORRECTIONS := POINT_CORRECTIONS_default;
     manager_squads :=
       [ ("Ann"%string, [(1, [1]); (2, [1])]);
         ("Bob"%string, [(1, [2]); (2, bob_phase2)]) ];
     gameweek_data := wd_gameweek_data;
     current_gameweek := 12;
     previous_standings := empty_snapshot |}.

(** The table of a season, from its aggregated points. *)
Definition league_table_of (G : globals) : res (option table) :=
  r ← calculate_manager_points G;
  generate_league_table G (manager_points r) (phase_points r).

(** The adjustment scenario of the specification: Alice holds player 10 in
    phase 1, Bob does not. *)
Definition adjustment_globals : globals :=
  {| PHASES := [(1, range 1 3)];
     POINT_CORRECTIONS := [];
     manager_squads :=
       [ ("Alice"%string, [(1, [10; 11])]); ("Bob"%string, [(1, [12])]) ];
     gameweek_data :=
       {[ 1 := {[ 10 := 5; 11 := 3; 12 := 4 ]}; 2 := {[ 10 := 2 ]} ]};
     current_gameweek := 2;
     previous_standings := empty_snapshot |}.


(** Player 218, corrected by 8 in phase 4, held in phase 4; data for
    gameweek 1 only. *)
Definition early_season_globals : globals :=
  {| PHASES := PHASES_default;
     POINT_CORRECTIONS := POINT_CORRECTIONS_default;
     manager_squads := [("Mia"%string, [(1, [218]); (4, [218])])];
     gameweek_data := {[ 1 := {[ 218 := 3 ]} ]};
     current_gameweek := 1;
     previous_standings := empty_snapshot |}.



(** Two kinds of JSON value, for a standings file that holds a list. *)
Inductive stored_json : Type :=
| StoredObject (stored : snapshot)
| StoredList (items : list Z).


(** The points of the most recent gameweek, as the table shows them. *)
Definition weekly_of (G : globals) (pp : dict string (dict Z Z)) (m : string)
  : Z :=
  (calculate_recent_gameweek_points G m pp).1.

(** The rows that lines 531-604 add for the items that are left, when the
    total of the row above is [previous_points]. *)
Fixpoint rows_from (G : globals) (pp : dict string (dict Z Z))
    (prev_positions diff_rankings : dict string Z) (top_points : Z)
    (previous_points : Z) (items : list (Z * (string * mp_entry)))
  : list row :=
  match items with
  | [] => []
  | (position, (manager, points)) :: rest =>
      {| row_position := position;
         row_manager := manager;
         row_change := position_change prev_positions manager position;
         row_total := total points;
         row_weekly := weekly_of G pp manager;
         row_gap_to_above := previous_points - total points;
         row_gap_to_top := top_points - total points;
         row_diff_from_phase1 := total points - original_squad_score G manager;
         row_diff_rank := default 0 (dict_get diff_rankings manager) |}
      :: rows_from G pp prev_positions diff_rankings top_points (total points)
                   rest
  end.

(** The one who takes the lead in a loop that keeps the highest score seen
    so far and who reached it: a later score takes over only when it is
    strictly higher. *)
Definition take_lead (acc : option string * Z) (c : string * Z)
  : option string * Z :=
  if bool_decide (acc.2 < c.2) then (Some c.1, c.2) else acc.

Definition leader (candidates : list (string * Z)) : option string * Z :=
  foldl take_lead (None, 0) candidates.

(** The roster entries whose phase holds the current gameweek, one for each
    time that the gameweek occurs in the phase, in the order of the loops
    of [calculate_manager_points]. *)
Definition current_entries_of (G : globals) (manager : string)
    (player_ids : list Z) (gws : list Z) : list (string * list Z) :=
  map (fun _ => (manager, player_ids))
      (filter (fun gw => gw = current_gameweek G) gws).

Definition current_entries (G : globals) : list (string * list Z) :=
  flat_map (fun item =>
              flat_map (fun ph =>
                          current_entries_of G item.1 ph.2 (phase_range G ph.1))
                       item.2)
           (manager_squads G).

(** The players of a roster without a score in the current gameweek, as
    the messages that name them. *)
Definition missing_scores (G : globals) (scores : gmap Z Z)
    (player_ids : list Z) : list diag :=
  map (fun p => NoPointsFor p (current_gameweek G))
      (filter (fun p => scores !! p = None) player_ids).

(** What an entry scored in the current gameweek. *)
Definition candidate (G : globals) (entry : string * list Z) : string * Z :=
  (entry.1, squad_points G (current_gameweek G) entry.2).

(** The leader and the messages after the entries [es], from a state of
    the loops. *)
Definition report_after (G : globals) (es : list (string * list Z))
    (st st' : cmp_state) : Prop :=
  match gameweek_data G !! current_gameweek G with
  | None =>
      st_highest_gameweek_manager st' = st_highest_gameweek_manager st
      /\ st_highest_gameweek_points st' = st_highest_gameweek_points st
      /\ st_printed st' = st_printed st
  | Some scores =>
      (st_highest_gameweek_manager st', st_highest_gameweek_points st')
      = foldl take_lead
              (st_highest_gameweek_manager st, st_highest_gameweek_points st)
              (map (candidate G) es)
      /\ st_printed st'
         = st_printed st ++ flat_map (fun e => missing_scores G scores e.2) es
  end.

(** The entry that an element of the API makes, when it has the four
    keys. *)
Definition player_of (el : element) : option player :=
  player_id ← element_id el;
  name ← web_name el;
  type ← element_type el;
  tm ← team el;
  Some {| info_id := player_id;
          info_name := name;
          info_position :=
            default "Unknown"%string (dict_get POSITION_MAPPING type);
          info_team := default "Unknown"%string (dict_get TEAM_MAPPING tm);
          points_by_gameweek := ∅ |}.

(** The points that an element of a gameweek carries. *)
Definition points_of (el : live_element) : option Z :=
  live_stats el ≫= id.

(** The element that decides about player [p]: the last one that names
    [p] and carries points. *)
Definition deciding (p : Z) (elements : list live_element)
  : option live_element :=
  last (filter (fun el => live_id el = Some p /\ is_Some (points_of el))
               elements).

(** [player_data] with nothing changed but, for some of the players, what
    [points_by_gameweek] holds under the key [gw]. *)
Definition written_only_at (gw : Z) (before after : gmap Z player) : Prop :=
  forall p,
    match before !! p, after !! p with
    | Some info, Some info' =>
        info_id info' = info_id info
        /\ info_name info' = info_name info
        /\ info_position info' = info_position info
        /\ info_team info' = info_team info
        /\ forall g, g ≠ gw ->
             points_by_gameweek info' !! g = points_by_gameweek info !! g
    | None, None => True
    | _, _ => False
    end.

(** The points that a response of the API carries for player [p]. *)
Definition api_points (gw_data : option (list live_element)) (p : Z)
  : option Z :=
  els ← gw_data; el ← deciding p els; points_of el.

(** What a player has scored in the gameweeks of a phase, with the
    adjustments that name the player and the phase. *)
Definition player_score (G : globals) (player_id phase : Z) : Z :=
  sum (map (fun gw => score G gw player_id) (phase_range G phase))
  + sum (map (fun c =>
                if bool_decide (player_id = c.1.1) && bool_decide (phase = c.1.2)
                then c.2 else 0)
             (POINT_CORRECTIONS G)).

(** The entry that [collect_players] makes for a player with an entry in
    [player_data]. *)
Definition squad_player_of (player_data : gmap Z player) (player_id : Z)
  : option squad_player :=
  (fun info =>
     {| sp_id := player_id;
        sp_name := info_name info;
        sp_team := info_team info;
        sp_position := info_position info;
        sp_position_order :=
          default 99 (dict_get position_order (info_position info)) |})
    <$> player_data !! player_id.

(** The cell of a player for a phase: the score when the manager held the
    player in that phase, the dash otherwise. *)
Definition cell_of (G : globals) (phases : dict Z (list Z))
    (player_id phase : Z) : option Z :=
  if list_mem player_id (default [] (dict_get phases phase))
  then Some (player_score G player_id phase) else None.

(** What is asked of the iteration over a set: every element once. *)
Definition iterates_sets (set_iter : list Z -> list Z) : Prop :=
  forall l, NoDup (set_iter l) /\ forall x, x ∈ set_iter l <-> x ∈ l.

(** The identifiers of the players of the rows. *)
Definition row_ids (rows : list squad_row) : list Z :=
  map (fun row => sp_id (srow_player row)) rows.

(** What is asked of a roster for its table to add up: phases 1 to 5, no
    player twice in a phase, every player with an entry in
    [player_data]. *)
Definition tabled_roster (player_data : gmap Z player)
    (phases : dict Z (list Z)) : Prop :=
  NoDup (dict_keys phases)
  /\ Forall (fun ph =>
               1 ≤ ph.1 ≤ 5 /\ NoDup ph.2
               /\ Forall (fun p => is_Some (player_data !! p)) ph.2)
            phases.

(** The roster of the highest phase from 1 to 5 that a manager has a
    roster for; empty when there is none. *)
Definition current_roster (phases : dict Z (list Z)) : list Z :=
  let current_phase := current_phase_of phases in
  if bool_decide (0 < current_phase)
  then default [] (dict_get phases current_phase)
  else [].

(** The manager, once for every time the player is in the list. *)
Definition holds (manager : string) (ids : list Z) (player_id : Z)
  : list string :=
  flat_map (fun q => if decide (q = player_id) then [manager] else []) ids.

(** The roster that the squads hold for a manager and a phase. *)
Definition roster_in (squads : dict string (dict Z (list Z)))
    (manager : string) (k : Z) : option (list Z) :=
  dict_get squads manager ≫= fun phases => dict_get phases k.

(** The elements of a list in the order in which they first occur. *)
Definition first_seen (l : list string) : list string :=
  foldl (fun seen x => if bool_decide (x ∈ seen) then seen else seen ++ [x])
        [] l.

(** The last roster among the entries (manager, phase, roster) for a
    manager and a phase. *)
Definition last_roster (entries : list (string * Z * list Z))
    (manager : string) (k : Z) : option (list Z) :=
  snd <$> last (filter (fun e => e.1 = (manager, k)) entries).

(** What [store] keeps: the keys are distinct, no manager is without a
    phase, and every roster is as [P] asks. *)
Definition kept (P : Z -> list Z -> Prop)
    (squads : dict string (dict Z (list Z))) : Prop :=
  wf_squads squads
  /\ Forall (fun item => item.2 ≠ [] /\ Forall (fun ph => P ph.1 ph.2) item.2)
            squads.

Section ParsedRows.
Context `{PyLib}.

(** A row that is not empty and has a cell that is not blank. *)
Definition csv_filled (row : list string) : bool :=
  negb (forallb (fun cell => bool_decide (py_strip cell = "")) row).

(** The phase that a row makes the current one: the row has one cell,
    with "phase" in it in whatever case, whose second word is a number. *)
Definition csv_header (row : list string) : option Z :=
  if csv_filled row && bool_decide (length row = 1%nat)
     && py_in "phase" (py_lower (default "" (row !! 0%nat)))
  then csv_phase_of row
  else None.

(** The manager and the roster of a row: the row has two cells or more
    and the text of its cells after the first is a list of numbers that
    is not empty. *)
Definition csv_roster (row : list string) : option (string * list Z) :=
  if csv_filled row && bool_decide (2 ≤ length row)%nat then
    ids ← player_ids_of (csv_player_ids_text row);
    if bool_decide (ids = []) then None
    else Some (csv_manager_name row, ids)
  else None.

(** The rosters that the rows give, in the order of the rows, each with
    the phase of the nearest header above it; [current_phase] is the
    phase of the nearest header above the rows. *)
Fixpoint csv_entries (current_phase : option Z) (rows : list (list string))
  : list (string * Z * list Z) :=
  match rows with
  | [] => []
  | row :: rest =>
      match csv_header row with
      | Some k => csv_entries (Some k) rest
      | None =>
          match current_phase, csv_roster row with
          | Some k, Some (manager, ids) =>
              (manager, k, ids) :: csv_entries current_phase rest
          | _, _ => csv_entries current_phase rest
          end
      end
  end.
End ParsedRows.

(** [squads[manager][k] = ids] for the entries, one after the other. *)
Definition store_all (squads : dict string (dict Z (list Z)))
    (entries : list (string * Z * list Z)) : dict string (dict Z (list Z)) :=
  foldl (fun squads e => store squads e.1.1 e.1.2 e.2) squads entries.

Section ParsedLines.
Context `{PyLib}.

(** The digits of a line that the text parser takes as a phase header:
    the line, stripped, is not empty and begins with "Phase " and a
    number. *)
Definition txt_header (line : string) : option string :=
  if bool_decide (py_strip line = "") then None else re_phase (py_strip line).

(** The manager and the roster of a line: the line is no header, has a
    name, a colon and a text after it, and the text is a list of
    numbers. *)
Definition txt_roster (line : string) : option (string * list Z) :=
  if bool_decide (py_strip line = "") then None
  else
    match re_phase (py_strip line) with
    | Some _ => None
    | None =>
        groups ← re_manager (py_strip line);
        ids ← player_ids_of (py_strip groups.2);
        Some (py_strip groups.1, ids)
    end.

(** The rosters that the lines give, in the order of the lines, each
    with the phase of the nearest header above it, up to the first
    header whose number [int] refuses; no roster comes from a line
    before the first header or under a header of phase 0. *)
Fixpoint txt_entries (current_phase : option Z) (lines : list string)
  : list (string * Z * list Z) :=
  match lines with
  | [] => []
  | line :: rest =>
      match txt_header line with
      | Some digits =>
          match py_int digits with
          | Some k => txt_entries (Some k) rest
          | None => []
          end
      | None =>
          match current_phase, txt_roster line with
          | Some k, Some (manager, ids) =>
              if bool_decide (k = 0) then txt_entries current_phase rest
              else (manager, k, ids) :: txt_entries current_phase rest
          | _, _ => txt_entries current_phase rest
          end
      end
  end.
End ParsedLines.

(** The one-manager league in its second gameweek, before the gameweeks
    are fetched. *)
Definition second_gameweek_globals : globals :=
  with_run_state first_gameweek_globals ∅ 2 empty_snapshot.


(** Standings of five managers. *)
Definition five_standings : dict string Z :=
  [ ("Ann", 1); ("Bob", 2); ("Cy", 3); ("Di", 4); ("Ed", 5) ]%string.

(** Two elements of the API for the same player, the second one with an
    element type that [POSITION_MAPPING] lacks. *)
Definition two_elements : list element :=
  [ {| element_id := Some 7; web_name := Some "Old"%string;
       element_type := Some 1; team := Some 1 |};
    {| element_id := Some 7; web_name := Some "New"%string;
       element_type := Some 9; team := Some 12 |} ].

(** A gameweek in which player 7 appears twice with points and player 8
    without. *)
Definition live_elements : list live_element :=
  [ {| live_id := Some 7; live_stats := Some (Some 2) |};
    {| live_id := Some 8; live_stats := Some None |};
    {| live_id := Some 7; live_stats := Some (Some 6) |} ].


Definition known_player : player :=
  {| info_id := 7; info_name := "New"; info_position := "MID";
     info_team := "LIV"; points_by_gameweek := ∅ |}.

(** The players of the two seasons, as [process_player_data] stores
    them. *)
Definition wd_players : gmap Z player :=
  {[ 1 := {| info_id := 1; info_name := "One"; info_position := "FWD";
             info_team := "ARS"; points_by_gameweek := ∅ |};
     2 := {| info_id := 2; info_name := "Two"; info_position := "GKP";
             info_team := "AVL"; points_by_gameweek := ∅ |};
     3 := {| info_id := 3; info_name := "Three"; info_position := "DEF";
             info_team := "BOU"; points_by_gameweek := ∅ |} ]}.

(** Decides a decidable proposition about concrete tables by evaluation. *)
Ltac by_computation := apply (bool_decide_unpack _); vm_compute; exact I.

(** * Properties *)

(** ** Dictionaries *)

Section DictFacts.
Context {K V : Type} `{EqDecision K}.
Implicit Types (d : dict K V) (k : K) (v : V).

Lemma dict_get_None d k : dict_get d k = None <-> k ∉ dict_keys d.
Proof.
  induction d as [|[k' v'] d IH]; simpl.
  - split; [intros _; apply not_elem_of_nil | done].
  - rewrite not_elem_of_cons. case_decide.
    + split; [done | intros [Hne _]; done].
    + rewrite IH. split; [by split | by intros [_ Hk]].
Qed.

Lemma dict_get_Some_elem d k v : dict_get d k = Some v -> (k, v) ∈ d.
Proof.
  induction d as [|[k' v'] d IH]; simpl; [done|].
  case_decide; intros; simplify_eq; [left | right; auto].
Qed.

Lemma dict_get_elem d k v :
  NoDup (dict_keys d) -> (k, v) ∈ d -> dict_get d k = Some v.
Proof.
  induction d as [|[k' v'] d IH]; simpl; intros Hnd Hin.
  - by apply elem_of_nil in Hin.
  - apply NoDup_cons in Hnd as [Hk Hnd].
    apply elem_of_cons in Hin as [Heq|Hin].
    + simplify_eq. by rewrite decide_True.
    + case_decide; [|auto]. subst k'. exfalso. apply Hk.
      apply list_elem_of_fmap. by exists (k, v).
Qed.

Lemma dict_get_set_eq d k v : dict_get (dict_set d k v) k = Some v.
Proof.
  induction d as [|[k' v'] d IH]; simpl.
  - by rewrite decide_True.
  - case_decide; simpl; [by rewrite decide_True | by rewrite decide_False].
Qed.

Lemma dict_get_set_ne d k k' v :
  k ≠ k' -> dict_get (dict_set d k v) k' = dict_get d k'.
Proof.
  intros Hne. induction d as [|[k0 v0] d IH]; simpl.
  - by rewrite decide_False.
  - case_decide; simpl.
    + subst k0. by rewrite !decide_False.
    + by rewrite IH.
Qed.

Lemma dict_set_set d k v v' :
  dict_set (dict_set d k v) k v' = dict_set d k v'.
Proof.
  induction d as [|[k0 v0] d IH]; simpl.
  - by rewrite decide_True.
  - case_decide; simpl; [by rewrite decide_True|].
    by rewrite decide_False, IH.
Qed.

Lemma dict_set_id d k v : dict_get d k = Some v -> dict_set d k v = d.
Proof.
  induction d as [|[k0 v0] d IH]; simpl; [done|].
  case_decide; intros; simplify_eq; [done | by rewrite IH].
Qed.

Lemma dict_set_fresh d k v :
  dict_get d k = None -> dict_set d k v = d ++ [(k, v)].
Proof.
  induction d as [|[k0 v0] d IH]; simpl; [done|].
  case_decide; [done|]. intros. by rewrite IH.
Qed.

Lemma dict_get_app d1 d2 k :
  dict_get (d1 ++ d2) k =
  match dict_get d1 k with Some v => Some v | None => dict_get d2 k end.
Proof.
  induction d1 as [|[k0 v0] d1 IH]; simpl; [done|]. by case_decide.
Qed.

Lemma dict_set_app_fresh d1 d2 k v :
  dict_get d1 k = None -> dict_set (d1 ++ d2) k v = d1 ++ dict_set d2 k v.
Proof.
  induction d1 as [|[k0 v0] d1 IH]; simpl; [done|].
  case_decide; [done|]. intros. by rewrite IH.
Qed.

Lemma dict_keys_app d1 d2 : dict_keys (d1 ++ d2) = dict_keys d1 ++ dict_keys d2.
Proof. unfold dict_keys. apply map_app. Qed.

End DictFacts.

(** ** Sums *)

Lemma foldl_add_sum (a : Z) (xs : list Z) : foldl Z.add a xs = a + sum xs.
Proof.
  unfold sum. revert a. induction xs as [|x xs IH]; intros a; simpl; [lia|].
  rewrite (IH (a + x)), (IH (0 + x)). lia.
Qed.

Lemma sum_nil : sum [] = 0.
Proof. done. Qed.

Lemma sum_cons (x : Z) (xs : list Z) : sum (x :: xs) = x + sum xs.
Proof. unfold sum at 1. simpl. rewrite foldl_add_sum. lia. Qed.

Lemma sum_app (xs ys : list Z) : sum (xs ++ ys) = sum xs + sum ys.
Proof.
  induction xs as [|x xs IH]; simpl; [by rewrite sum_nil|].
  rewrite !sum_cons, IH. lia.
Qed.

Lemma pp_shape_keys f squads : dict_keys (pp_shape f squads) = dict_keys squads.
Proof. unfold pp_shape, dict_keys. rewrite map_map. done. Qed.

Lemma pp_shape_app f s1 s2 :
  pp_shape f (s1 ++ s2) = pp_shape f s1 ++ pp_shape f s2.
Proof. apply map_app. Qed.

Lemma pp_shape_ext f g squads :
  (forall m phases k ids, (m, phases) ∈ squads -> (k, ids) ∈ phases ->
                          f k ids = g k ids) ->
  pp_shape f squads = pp_shape g squads.
Proof.
  intros Hfg. unfold pp_shape. apply map_ext_in. intros [m phases] Hin.
  simpl. f_equal. apply map_ext_in. intros [k ids] Hin'. simpl. f_equal.
  apply (Hfg m phases); by apply list_elem_of_In.
Qed.

(** ** The first loop of calculate_manager_points *)

Lemma players_loop_fst G gw scores ids out :
  (players_loop G gw scores ids out).1
  = sum (map (fun p => default 0 (scores !! p)) ids).
Proof.
  unfold players_loop.
  enough (forall acc,
    (foldl (fun acc player_id =>
              match scores !! player_id with
              | Some pts => (acc.1 + pts, acc.2)
              | None => if bool_decide (gw = current_gameweek G)
                        then (acc.1, acc.2 ++ [NoPointsFor player_id gw])
                        else acc
              end) acc ids).1
    = acc.1 + sum (map (fun p => default 0 (scores !! p)) ids)) as H.
  { rewrite H. simpl. lia. }
  induction ids as [|p ids IH]; intros acc; simpl.
  - rewrite sum_nil. lia.
  - rewrite IH, sum_cons. destruct (scores !! p); simpl; [lia|].
    case_bool_decide; simpl; lia.
Qed.

Lemma squad_points_Some G gw scores ids :
  gameweek_data G !! gw = Some scores ->
  squad_points G gw ids = sum (map (fun p => default 0 (scores !! p)) ids).
Proof.
  intros E. unfold squad_points. f_equal. apply map_ext. intros p.
  unfold score. by rewrite E.
Qed.

Lemma squad_points_None G gw ids :
  gameweek_data G !! gw = None -> squad_points G gw ids = 0.
Proof.
  intros E. unfold squad_points.
  induction ids as [|p ids IH]; [done|]. simpl. rewrite sum_cons, IH.
  unfold score. by rewrite E.
Qed.

Lemma gw_loop G m k ids gws : forall st inner v,
  dict_get (st_phase_points st) m = Some inner ->
  dict_get inner k = Some v ->
  exists st',
    for_each gws (gw_body G m k ids) st = Ok st'
    /\ st_phase_points st'
       = dict_set (st_phase_points st) m
           (dict_set inner k (v + raw_phase_total G gws ids))
    /\ st_manager_points st' = st_manager_points st.
Proof.
  induction gws as [|gw gws IH]; intros st inner v Hm Hk; simpl.
  - exists st. split; [done|]. split; [|done].
    unfold raw_phase_total. simpl. rewrite sum_nil, Z.add_0_r.
    by rewrite (dict_set_id inner), dict_set_id.
  - unfold raw_phase_total. simpl. rewrite sum_cons.
    fold (raw_phase_total G gws ids).
    unfold gw_body at 1. destruct (gameweek_data G !! gw) as [scores|] eqn:E.
    + unfold pp_iadd, getitem_str, getitem_int. rewrite Hm. simpl.
      rewrite Hk. simpl.
      match goal with |- context [for_each gws _ ?s] => set (st1 := s) end.
      destruct (IH st1 (dict_set inner k
                          (v + (players_loop G gw scores ids (st_printed st)).1))
                  (v + (players_loop G gw scores ids (st_printed st)).1))
        as (st' & Hrun & Hpp & Hmp).
      { simpl. apply dict_get_set_eq. }
      { apply dict_get_set_eq. }
      exists st'. split; [done|]. split; [|by rewrite Hmp].
      rewrite Hpp. simpl. rewrite !dict_set_set.
      rewrite players_loop_fst, (squad_points_Some G gw scores) by done.
      do 2 f_equal. lia.
    + destruct (IH st inner v Hm Hk) as (st' & Hrun & Hpp & Hmp).
      exists st'. split; [done|]. split; [|done].
      rewrite Hpp, squad_points_None by done. do 2 f_equal.
  Qed.

Lemma phase_loop G m phases : forall st inner,
  NoDup (dict_keys phases) ->
  Forall (fun ph => dict_get inner ph.1 = None) phases ->
  Forall (fun ph => is_Some (dict_get (PHASES G) ph.1)) phases ->
  dict_get (st_phase_points st) m = Some inner ->
  exists st',
    for_each phases (phase_body G m) st = Ok st'
    /\ st_phase_points st'
       = dict_set (st_phase_points st) m
           (inner ++ map (fun ph => (ph.1, raw_phase_total G (phase_range G ph.1) ph.2))
                         phases)
    /\ st_manager_points st' = st_manager_points st.
Proof.
  induction phases as [|[k ids] phases IH]; intros st inner Hnd Hfresh Hknown Hm.
  - exists st. simpl. rewrite app_nil_r, dict_set_id by done. done.
  - simpl. apply NoDup_cons in Hnd as [Hk Hnd].
    apply Forall_cons in Hfresh as [Hk0 Hfresh].
    apply Forall_cons in Hknown as [[gws Hgws] Hknown]. simpl in *.
    unfold phase_body at 1. simpl.
    unfold pp_setitem, getitem_str. rewrite Hm. simpl.
    unfold getitem_int. rewrite Hgws. simpl.
    match goal with |- context [for_each gws _ ?s] => set (st1 := s) end.
    destruct (gw_loop G m k ids gws st1 (dict_set inner k 0) 0)
      as (st2 & Hrun2 & Hpp2 & Hmp2).
    { simpl. apply dict_get_set_eq. }
    { apply dict_get_set_eq. }
    rewrite Hrun2. simpl in Hpp2, Hmp2.
    rewrite !dict_set_set, Z.add_0_l in Hpp2.
    rewrite (dict_set_fresh inner) in Hpp2 by done.
    destruct (IH st2 (inner ++ [(k, raw_phase_total G gws ids)]))
      as (st3 & Hrun3 & Hpp3 & Hmp3); [done| | done | |].
    { apply Forall_forall. intros [k' ids'] Hin. simpl.
      rewrite dict_get_app.
      pose proof (proj1 (Forall_forall _ _) Hfresh _ Hin) as Hk'.
      simpl in Hk'. rewrite Hk'. simpl.
      rewrite decide_False; [done|]. intros ->. apply Hk.
      apply list_elem_of_fmap. by exists (k, ids'). }
    { rewrite Hpp2. apply dict_get_set_eq. }
    exists st3. split; [done|]. split; [|congruence].
    rewrite Hpp3, Hpp2, dict_set_set. f_equal.
    rewrite <- app_assoc. simpl. unfold phase_range. by rewrite Hgws.
Qed.

Lemma manager_loop G squads : forall st,
  wf_squads squads ->
  Forall (fun item =>
            Forall (fun ph => is_Some (dict_get (PHASES G) ph.1)) item.2)
         squads ->
  Forall (fun item => dict_get (st_phase_points st) item.1 = None
                      /\ dict_get (st_manager_points st) item.1 = None) squads ->
  exists st',
    for_each squads (manager_body G) st = Ok st'
    /\ st_phase_points st'
       = st_phase_points st
         ++ pp_shape (fun k ids => raw_phase_total G (phase_range G k) ids) squads
    /\ st_manager_points st'
       = st_manager_points st ++ map (fun item => (item.1, zero_entry)) squads.
Proof.
  induction squads as [|[m phases] squads IH]; intros st [Hnd Hwf] Hknown Hfresh.
  - exists st. simpl. by rewrite !app_nil_r.
  - simpl. apply NoDup_cons in Hnd as [Hm Hnd].
    apply Forall_cons in Hwf as [Hph Hwf].
    apply Forall_cons in Hknown as [Hkn Hknown].
    apply Forall_cons in Hfresh as [[Hpp0 Hmp0] Hfresh]. cbn [fst snd] in *.
    unfold manager_body at 1. cbn [fst snd].
    match goal with |- context [for_each phases _ ?s] => set (st1 := s) end.
    destruct (phase_loop G m phases st1 []) as (st2 & Hrun2 & Hpp2 & Hmp2).
    { done. }
    { apply Forall_forall. intros ph Hin. done. }
    { done. }
    { simpl. apply dict_get_set_eq. }
    rewrite Hrun2. simpl in Hpp2, Hmp2.
    rewrite dict_set_set in Hpp2.
    rewrite dict_set_fresh in Hpp2 by done.
    rewrite dict_set_fresh in Hmp2 by done.
    destruct (IH st2) as (st3 & Hrun3 & Hpp3 & Hmp3); [done | done | |].
    { apply Forall_forall. intros [m' phases'] Hin. simpl.
      rewrite Hpp2, Hmp2, !dict_get_app.
      destruct (proj1 (Forall_forall _ _) Hfresh _ Hin) as [Hp' Hm'].
      simpl in Hp', Hm'. rewrite Hp', Hm'. simpl.
      assert (m' ≠ m) as Hne.
      { intros ->. apply Hm. apply list_elem_of_fmap. by exists (m, phases'). }
      rewrite !decide_False by done. done. }
    exists st3. split; [done|].
    rewrite Hpp3, Hmp3, Hpp2, Hmp2, <- !app_assoc. done.
Qed.

(** ** The corrections loop *)

Lemma dict_get_fmap_values {K A B} `{EqDecision K} (g : K -> A -> B)
    (d : dict K A) (k : K) :
  dict_get (map (fun ph => (ph.1, g ph.1 ph.2)) d) k = g k <$> dict_get d k.
Proof.
  induction d as [|[k0 a] d IH]; simpl; [done|].
  case_decide; [by subst | done].
Qed.

Lemma dict_keys_fmap_values {K A B} (g : K -> A -> B) (d : dict K A) :
  dict_keys (map (fun ph => (ph.1, g ph.1 ph.2)) d) = dict_keys d.
Proof. unfold dict_keys. by rewrite map_map. Qed.

Lemma dict_set_fmap_values {A} (f f' : Z -> A -> Z) (d : dict Z A) (k : Z) a :
  NoDup (dict_keys d) ->
  dict_get d k = Some a ->
  (forall k' a', (k', a') ∈ d -> k' ≠ k -> f' k' a' = f k' a') ->
  dict_set (map (fun ph => (ph.1, f ph.1 ph.2)) d) k (f' k a)
  = map (fun ph => (ph.1, f' ph.1 ph.2)) d.
Proof.
  induction d as [|[k0 a0] d IH]; simpl; intros Hnd Hget Hother; [done|].
  apply NoDup_cons in Hnd as [Hk0 Hnd]. case_decide.
  - simplify_eq. f_equal. apply map_ext_in. intros [k' a'] Hin. simpl.
    f_equal. symmetry. apply Hother.
    + right. by apply list_elem_of_In.
    + intros ->. apply Hk0. apply list_elem_of_fmap. exists (k0, a').
      split; [done|]. by apply list_elem_of_In.
  - rewrite (Hother k0 a0); [|left|congruence].
    f_equal. apply IH; [done | done |].
    intros k' a' Hin. apply Hother. by right.
Qed.

Lemma adjustment_for_other k ids c : c.1.2 ≠ k -> adjustment_for k ids c = 0.
Proof. intros. unfold adjustment_for. by rewrite bool_decide_eq_false_2. Qed.

Lemma correction_entry_step c f m phases pre post :
  NoDup (dict_keys phases) ->
  dict_get pre m = None ->
  correction_manager_body c (m, phases)
    (pre ++ (m, map (fun ph => (ph.1, f ph.1 ph.2)) phases) :: post)
  = Ok (pre ++ (m, map (fun ph =>
                          (ph.1, f ph.1 ph.2 + adjustment_for ph.1 ph.2 c))
                       phases) :: post).
Proof.
  intros Hnd Hpre. unfold correction_manager_body. cbn [fst snd].
  destruct (dict_get phases c.1.2) as [ids|] eqn:Hget.
  - destruct (list_mem c.1.1 ids) eqn:Hmem.
    + unfold pp_iadd, getitem_str, getitem_int.
      rewrite dict_get_app, Hpre. simpl. rewrite decide_True by done. simpl.
      rewrite dict_get_fmap_values, Hget. simpl.
      rewrite dict_set_app_fresh by done. simpl. rewrite decide_True by done.
      do 4 f_equal.
      assert (c.2 = adjustment_for c.1.2 ids c) as Hadj.
      { unfold adjustment_for. by rewrite bool_decide_eq_true_2, Hmem. }
      rewrite Hadj.
      apply (dict_set_fmap_values f
               (fun k ids => f k ids + adjustment_for k ids c)); [done|done|].
      intros k' a' _ Hne. rewrite adjustment_for_other by done. lia.
    + do 4 f_equal. apply map_ext_in. intros [k ids'] Hin. simpl. f_equal.
      unfold adjustment_for. simpl. case_bool_decide as Hk; simpl; [|lia].
      subst k. apply list_elem_of_In, (dict_get_elem _ _ _ Hnd) in Hin.
      rewrite Hget in Hin. simplify_eq. rewrite Hmem. lia.
  - do 4 f_equal. apply map_ext_in. intros [k ids'] Hin. simpl. f_equal.
    rewrite adjustment_for_other; [lia|]. simpl. intros Hk. subst k.
    apply dict_get_None in Hget. apply Hget.
    apply list_elem_of_fmap. exists (c.1.2, ids'). split; [done|].
    by apply list_elem_of_In.
Qed.

Lemma correction_manager_loop c f todo : forall done,
  wf_squads (done ++ todo) ->
  for_each todo (correction_manager_body c)
    (pp_shape (fun k ids => f k ids + adjustment_for k ids c) done
     ++ pp_shape f todo)
  = Ok (pp_shape (fun k ids => f k ids + adjustment_for k ids c)
          (done ++ todo)).
Proof.
  induction todo as [|[m phases] todo IH]; intros done [Hnd Hwf].
  - simpl. by rewrite !app_nil_r.
  - cbn [for_each]. unfold pp_shape at 2. cbn [map fst snd].
    fold (pp_shape f todo).
    rewrite correction_entry_step.
    + replace (done ++ (m, phases) :: todo) with ((done ++ [(m, phases)]) ++ todo)
        by (by rewrite <- app_assoc).
      rewrite <- IH.
      * rewrite pp_shape_app, <- app_assoc. done.
      * rewrite <- app_assoc. done.
    + apply Forall_app in Hwf as [_ Hwf]. by apply Forall_cons in Hwf as [? _].
    + apply dict_get_None. rewrite pp_shape_keys.
      rewrite dict_keys_app in Hnd. apply NoDup_app in Hnd as (_ & Hdisj & _).
      intros Hin. apply (Hdisj m Hin). left.
Qed.

Lemma adjustments_total_cons c corrections k ids :
  adjustments_total (c :: corrections) k ids
  = adjustment_for k ids c + adjustments_total corrections k ids.
Proof. unfold adjustments_total. simpl. by rewrite sum_cons. Qed.

Lemma corrections_loop G corrections : forall f,
  wf_squads (manager_squads G) ->
  for_each corrections (correction_body G) (pp_shape f (manager_squads G))
  = Ok (pp_shape (fun k ids => f k ids + adjustments_total corrections k ids)
          (manager_squads G)).
Proof.
  induction corrections as [|c corrections IH]; intros f Hwf.
  - simpl. f_equal. apply pp_shape_ext. intros.
    unfold adjustments_total. simpl. rewrite sum_nil. lia.
  - cbn [for_each]. unfold correction_body at 1.
    pose proof (correction_manager_loop c f (manager_squads G) []) as Hstep.
    simpl in Hstep. rewrite Hstep by done. rewrite IH by done.
    f_equal. apply pp_shape_ext. intros.
    rewrite adjustments_total_cons. lia.
Qed.

(** ** The totals loop *)

Lemma field_loop m t todo : forall fields pre post,
  NoDup (dict_keys (fields ++ todo)) ->
  dict_get pre m = None ->
  for_each todo (field_body m)
    (pre ++ (m, {| total := t; phase_fields := fields |}) :: post)
  = Ok (pre ++ (m, {| total := t; phase_fields := fields ++ todo |}) :: post).
Proof.
  induction todo as [|[k v] todo IH]; intros fields pre post Hnd Hpre.
  - simpl. by rewrite app_nil_r.
  - cbn [for_each]. unfold field_body at 1, getitem_str.
    rewrite dict_get_app, Hpre. simpl. rewrite decide_True by done. simpl.
    rewrite dict_set_app_fresh by done. simpl. rewrite decide_True by done.
    rewrite dict_set_fresh.
    + rewrite IH; [by rewrite <- app_assoc | by rewrite <- app_assoc | done].
    + apply dict_get_None. rewrite dict_keys_app in Hnd.
      apply NoDup_app in Hnd as (_ & Hdisj & _).
      intros Hin. apply (Hdisj k Hin). left.
Qed.

Lemma totals_loop todo : forall done,
  NoDup (dict_keys (done ++ todo)) ->
  Forall (fun item => NoDup (dict_keys item.2)) todo ->
  for_each todo totals_body
    (mp_shape done ++ map (fun item => (item.1, zero_entry)) todo)
  = Ok (mp_shape (done ++ todo)).
Proof.
  induction todo as [|[m phases] todo IH]; intros done Hnd Hwf.
  - simpl. by rewrite !app_nil_r.
  - apply Forall_cons in Hwf as [Hph Hwf]. cbn [fst snd] in Hph.
    assert (dict_get (mp_shape done) m = None) as Hpre.
    { apply dict_get_None. unfold mp_shape, dict_keys. rewrite map_map. simpl.
      rewrite dict_keys_app in Hnd. apply NoDup_app in Hnd as (_ & Hdisj & _).
      intros Hin. apply (Hdisj m Hin). left. }
    cbn [for_each map fst snd]. unfold totals_body at 1, getitem_str.
    cbn [fst snd]. rewrite dict_get_app, Hpre. simpl.
    rewrite decide_True by done. simpl.
    rewrite dict_set_app_fresh by done. simpl. rewrite decide_True by done.
    rewrite field_loop by done. simpl.
    replace (done ++ (m, phases) :: todo) with ((done ++ [(m, phases)]) ++ todo)
      by (by rewrite <- app_assoc).
    rewrite <- IH.
    + unfold mp_shape. rewrite map_app, <- app_assoc. done.
    + by rewrite <- app_assoc.
    + done.
Qed.

(** ** calculate_manager_points in closed form *)

Lemma zero_entries_shape f (squads : dict string (dict Z (list Z))) :
  map (fun item => (item.1, zero_entry)) (pp_shape f squads)
  = map (fun item => (item.1, zero_entry)) squads.
Proof. unfold pp_shape. rewrite map_map. done. Qed.

Lemma pp_shape_wf f squads :
  wf_squads squads ->
  NoDup (dict_keys (pp_shape f squads))
  /\ Forall (fun item => NoDup (dict_keys item.2)) (pp_shape f squads).
Proof.
  intros [Hnd Hwf]. split; [by rewrite pp_shape_keys|].
  unfold pp_shape. apply Forall_fmap. eapply Forall_impl; [exact Hwf|].
  intros [m phases] Hph. simpl in *. by rewrite dict_keys_fmap_values.
Qed.

Lemma calculate_manager_points_closed G :
  wf_squads (manager_squads G) ->
  phases_known G ->
  manager_squads G ≠ [] ->
  gameweek_data G ≠ ∅ ->
  exists r,
    calculate_manager_points G = Ok r
    /\ phase_points r = pp_shape (spec_phase_total G) (manager_squads G)
    /\ manager_points r = mp_shape (phase_points r).
Proof.
  intros Hwf Hknown Hsq Hgd. unfold calculate_manager_points.
  destruct (manager_squads G) as [|item squads] eqn:Esq; [done|].
  cbn [is_empty_dict]. rewrite bool_decide_eq_false_2 by done.
  rewrite <- Esq in *.
  match goal with |- context [for_each _ (manager_body G) ?s] => set (st0 := s) end.
  destruct (manager_loop G (manager_squads G) st0) as (st1 & Hrun & Hpp & Hmp);
    [done | done | by apply Forall_forall |].
  rewrite Hrun. simpl in Hpp, Hmp. simpl. rewrite Hpp, Hmp.
  rewrite corrections_loop by done. simpl.
  destruct (pp_shape_wf (spec_phase_total G) (manager_squads G) Hwf)
    as [Hnd' Hwf'].
  pose proof (totals_loop (pp_shape (spec_phase_total G) (manager_squads G)) [])
    as Htot.
  simpl in Htot. rewrite zero_entries_shape in Htot.
  unfold spec_phase_total in *. rewrite Htot by done. simpl.
  eexists. split; [done|]. done.
Qed.

(** ** calculate_points_up_to_gameweek in closed form *)

Lemma add_scores_sum scores ids acc :
  add_scores scores ids acc
  = acc + sum (map (fun p => default 0 (scores !! p)) ids).
Proof.
  unfold add_scores. revert acc.
  induction ids as [|p ids IH]; intros acc; simpl.
  - rewrite sum_nil. lia.
  - rewrite IH, sum_cons. destruct (scores !! p); simpl; lia.
Qed.

Lemma upto_gameweeks_sum G gws ids acc :
  upto_gameweeks G gws ids acc = acc + raw_phase_total G gws ids.
Proof.
  unfold upto_gameweeks, raw_phase_total. revert acc.
  induction gws as [|gw gws IH]; intros acc; simpl.
  - rewrite sum_nil. lia.
  - rewrite IH, sum_cons. destruct (gameweek_data G !! gw) as [scores|] eqn:E.
    + rewrite add_scores_sum, (squad_points_Some G gw scores) by done. lia.
    + rewrite squad_points_None by done. lia.
Qed.

Lemma upto_corrections_sum G k ids acc :
  upto_corrections G k ids acc
  = acc + adjustments_total (POINT_CORRECTIONS G) k ids.
Proof.
  unfold upto_corrections, adjustments_total. revert acc.
  induction (POINT_CORRECTIONS G) as [|c cs IH]; intros acc; simpl.
  - rewrite sum_nil. lia.
  - rewrite IH, sum_cons. unfold adjustment_for.
    destruct (bool_decide (c.1.2 = k) && list_mem c.1.1 ids); lia.
Qed.

Lemma upto_phase_first G gameweek m k ids t fields pre post :
  is_Some (dict_get (PHASES G) k) ->
  dict_get fields k = None ->
  dict_get pre m = None ->
  upto_phase_body G gameweek m (k, ids)
    (pre ++ (m, {| total := t; phase_fields := fields |}) :: post)
  = Ok (pre ++
        (m, {| total := t + upto_phase_total G gameweek k ids;
               phase_fields :=
                 fields ++ [(k, upto_phase_total G gameweek k ids)] |})
        :: post).
Proof.
  intros [gws Hgws] Hk Hpre.
  unfold upto_phase_body, getitem_int, getitem_str.
  cbn [fst snd]. rewrite Hgws. simpl.
  rewrite dict_get_app, Hpre. simpl. rewrite decide_True by done. simpl.
  rewrite dict_set_app_fresh by done. simpl. rewrite decide_True by done.
  rewrite dict_get_app, Hpre. simpl. rewrite decide_True by done. simpl.
  rewrite dict_set_app_fresh by done. simpl. rewrite decide_True by done.
  rewrite upto_corrections_sum, upto_gameweeks_sum, Z.add_0_l.
  rewrite dict_set_fresh by done.
  unfold upto_phase_total, phase_range. by rewrite Hgws.
Qed.

Lemma upto_phase_loop G gameweek m todo : forall t fields pre post,
  NoDup (dict_keys fields ++ dict_keys todo) ->
  Forall (fun ph => is_Some (dict_get (PHASES G) ph.1)) todo ->
  dict_get pre m = None ->
  for_each todo (upto_phase_body G gameweek m)
    (pre ++ (m, {| total := t; phase_fields := fields |}) :: post)
  = Ok (pre ++
        (m, {| total :=
                 t + sum (map (fun ph => upto_phase_total G gameweek ph.1 ph.2)
                              todo);
               phase_fields :=
                 fields ++ map (fun ph =>
                                  (ph.1, upto_phase_total G gameweek ph.1 ph.2))
                               todo |}) :: post).
Proof.
  induction todo as [|[k ids] todo IH]; intros t fields pre post Hnd Hknown Hpre.
  - simpl. rewrite sum_nil, app_nil_r, Z.add_0_r. done.
  - apply Forall_cons in Hknown as [Hgws Hknown]. cbn [fst snd] in Hgws.
    assert (dict_get fields k = None) as Hk.
    { apply dict_get_None. apply NoDup_app in Hnd as (_ & Hdisj & _).
      intros Hin. apply (Hdisj k Hin). left. }
    cbn [for_each]. rewrite upto_phase_first by done.
    rewrite IH.
    + cbn [map fst snd]. rewrite sum_cons, <- app_assoc. simpl.
      by rewrite Z.add_assoc.
    + rewrite dict_keys_app, <- app_assoc. done.
    + done.
    + done.
Qed.

Lemma upto_manager_first G gameweek m phases mp :
  NoDup (dict_keys phases) ->
  Forall (fun ph => is_Some (dict_get (PHASES G) ph.1)) phases ->
  dict_get mp m = None ->
  upto_manager_body G gameweek (m, phases) mp
  = Ok (mp ++ mp_shape (pp_shape (upto_phase_total G gameweek) [(m, phases)])).
Proof.
  intros Hph Hkn Hmp. unfold upto_manager_body. cbn [fst snd].
  rewrite dict_set_fresh by done.
  rewrite (upto_phase_loop G gameweek m phases 0 [] mp []); [|done|done|done].
  simpl. do 4 f_equal. unfold entry_of. simpl. f_equal.
  unfold dict_values. rewrite map_map. simpl. done.
Qed.

Lemma fresh_after_first {V} (m : string) (v : V) (mp : dict string V)
    (todo : dict string (dict Z (list Z))) :
  m ∉ dict_keys todo ->
  Forall (fun item => dict_get mp item.1 = None) todo ->
  Forall (fun item => dict_get (mp ++ [(m, v)]) item.1 = None) todo.
Proof.
  intros Hm Hfresh. apply Forall_forall. intros [m' phases'] Hin. cbn [fst].
  rewrite dict_get_app.
  pose proof (proj1 (Forall_forall _ _) Hfresh _ Hin) as Hm'.
  simpl in Hm'. rewrite Hm'. simpl.
  rewrite decide_False; [done|]. intros ->. apply Hm.
  apply list_elem_of_fmap. by exists (m, phases').
Qed.

Lemma upto_manager_loop G gameweek todo : forall mp,
  wf_squads todo ->
  Forall (fun item =>
            Forall (fun ph => is_Some (dict_get (PHASES G) ph.1)) item.2) todo ->
  Forall (fun item => dict_get mp item.1 = None) todo ->
  for_each todo (upto_manager_body G gameweek) mp
  = Ok (mp ++ mp_shape (pp_shape (upto_phase_total G gameweek) todo)).
Proof.
  induction todo as [|[m phases] todo IH]; intros mp [Hnd Hwf] Hknown Hfresh.
  - simpl. by rewrite app_nil_r.
  - apply NoDup_cons in Hnd as [Hm Hnd].
    apply Forall_cons in Hwf as [Hph Hwf].
    apply Forall_cons in Hknown as [Hkn Hknown].
    apply Forall_cons in Hfresh as [Hmp Hfresh]. cbn [fst snd] in *.
    cbn [for_each]. rewrite upto_manager_first by done.
    rewrite IH; [|done|done|].
    + rewrite <- app_assoc. done.
    + by apply fresh_after_first.
Qed.

Lemma calculate_points_up_to_gameweek_closed G gameweek :
  wf_squads (manager_squads G) ->
  phases_known G ->
  calculate_points_up_to_gameweek G gameweek
  = Ok (mp_shape (pp_shape (upto_phase_total G gameweek) (manager_squads G))).
Proof.
  intros Hwf Hknown. unfold calculate_points_up_to_gameweek.
  rewrite upto_manager_loop; [done | done | done |].
  by apply Forall_forall.
Qed.

(** ** A roster phase outside [PHASES] raises *)

Lemma phase_loop_raise G m phases : forall st inner,
  NoDup (dict_keys phases) ->
  Forall (fun ph => dict_get inner ph.1 = None) phases ->
  dict_get (st_phase_points st) m = Some inner ->
  ¬ Forall (fun ph => is_Some (dict_get (PHASES G) ph.1)) phases ->
  exists k ids,
    for_each phases (phase_body G m) st = Raise (KeyError (KInt k))
    /\ (k, ids) ∈ phases /\ dict_get (PHASES G) k = None.
Proof.
  induction phases as [|[k ids] phases IH]; intros st inner Hnd Hfresh Hm Hbad.
  - exfalso. apply Hbad. constructor.
  - apply NoDup_cons in Hnd as [Hk Hnd].
    apply Forall_cons in Hfresh as [Hk0 Hfresh]. cbn [fst snd] in *.
    destruct (dict_get (PHASES G) k) as [gws|] eqn:Hgws.
    + destruct (phase_loop G m [(k, ids)] st inner) as (st1 & Hrun & Hpp & _).
      { apply NoDup_singleton. }
      { by apply Forall_singleton. }
      { apply Forall_singleton. simpl. by rewrite Hgws. }
      { done. }
      cbn [for_each] in *.
      destruct (phase_body G m (k, ids) st) as [st1'|e] eqn:Hbody; [|done].
      simplify_eq. simpl in Hpp.
      destruct (IH st1 (inner ++ [(k, raw_phase_total G (phase_range G k) ids)]))
        as (k' & ids' & Hraise & Hin & Hnone).
      { done. }
      { apply Forall_forall. intros [k' ids'] Hin. simpl.
        rewrite dict_get_app.
        pose proof (proj1 (Forall_forall _ _) Hfresh _ Hin) as Hk'.
        simpl in Hk'. rewrite Hk'. simpl.
        rewrite decide_False; [done|]. intros ->. apply Hk.
        apply list_elem_of_fmap. by exists (k, ids'). }
      { rewrite Hpp. apply dict_get_set_eq. }
      { intros Hall. apply Hbad. constructor; [|done]. simpl. by rewrite Hgws. }
      exists k', ids'. split; [done|]. split; [by right | done].
    + exists k, ids. split; [|split; [left | done]].
      cbn [for_each]. unfold phase_body, pp_setitem, getitem_str, getitem_int.
      cbn [fst snd]. rewrite Hm. simpl. by rewrite Hgws.
Qed.

Lemma manager_loop_raise G squads : forall st,
  wf_squads squads ->
  Forall (fun item => dict_get (st_phase_points st) item.1 = None
                      /\ dict_get (st_manager_points st) item.1 = None) squads ->
  ¬ Forall (fun item =>
              Forall (fun ph => is_Some (dict_get (PHASES G) ph.1)) item.2)
           squads ->
  exists k m phases ids,
    for_each squads (manager_body G) st = Raise (KeyError (KInt k))
    /\ (m, phases) ∈ squads /\ (k, ids) ∈ phases
    /\ dict_get (PHASES G) k = None.
Proof.
  induction squads as [|[m phases] squads IH]; intros st [Hnd Hwf] Hfresh Hbad.
  - exfalso. apply Hbad. constructor.
  - apply NoDup_cons in Hnd as [Hm Hnd].
    apply Forall_cons in Hwf as [Hph Hwf].
    apply Forall_cons in Hfresh as [[Hpp0 Hmp0] Hfresh]. cbn [fst snd] in *.
    destruct (decide (Forall (fun ph => is_Some (dict_get (PHASES G) ph.1))
                             phases)) as [Hkn|Hkn].
    + destruct (manager_loop G [(m, phases)] st) as (st1 & Hrun & Hpp & Hmp).
      { split; [apply NoDup_singleton | by apply Forall_singleton]. }
      { by apply Forall_singleton. }
      { by apply Forall_singleton. }
      cbn [for_each] in *.
      destruct (manager_body G (m, phases) st) as [st1'|e] eqn:Hbody; [|done].
      simplify_eq.
      destruct (IH st1) as (k & m' & phases' & ids & Hraise & Hin & Hin' & Hnone).
      { done. }
      { apply Forall_forall. intros [m' phases'] Hin. cbn [fst].
        rewrite Hpp, Hmp, !dict_get_app.
        destruct (proj1 (Forall_forall _ _) Hfresh _ Hin) as [Hp' Hm'].
        simpl in Hp', Hm'. rewrite Hp', Hm'. simpl.
        assert (m' ≠ m) as Hne.
        { intros ->. apply Hm. apply list_elem_of_fmap. by exists (m, phases'). }
        rewrite !decide_False by done. done. }
      { intros Hall. apply Hbad. by constructor. }
      exists k, m', phases', ids. split; [done|]. split; [by right | done].
    + unfold manager_body. cbn [for_each fst snd].
      match goal with |- context [for_each phases _ ?s] => set (st1 := s) end.
      destruct (phase_loop_raise G m phases st1 [])
        as (k & ids & Hraise & Hin & Hnone).
      { done. }
      { apply Forall_forall. intros ph Hin. done. }
      { simpl. apply dict_get_set_eq. }
      { done. }
      exists k, m, phases, ids. unfold manager_body. cbn [fst snd].
      fold st1. rewrite Hraise. split; [done|]. split; [left | done].
Qed.

Lemma calculate_manager_points_raises G :
  wf_squads (manager_squads G) ->
  ¬ phases_known G ->
  gameweek_data G ≠ ∅ ->
  exists k,
    calculate_manager_points G = Raise (KeyError (KInt k))
    /\ unknown_phase G k.
Proof.
  intros Hwf Hbad Hgd. unfold calculate_manager_points.
  destruct (manager_squads G) as [|item squads] eqn:Esq.
  { exfalso. apply Hbad. unfold phases_known. rewrite Esq. constructor. }
  cbn [is_empty_dict]. rewrite bool_decide_eq_false_2 by done.
  rewrite <- Esq in *.
  match goal with |- context [for_each _ (manager_body G) ?s] => set (st0 := s) end.
  destruct (manager_loop_raise G (manager_squads G) st0)
    as (k & m & phases & ids & Hraise & Hin & Hin' & Hnone);
    [done | by apply Forall_forall | done |].
  exists k. rewrite Hraise. split; [done|]. split; [done|]. eauto.
Qed.

Lemma upto_phase_loop_raise G gameweek m todo : forall t fields pre post,
  NoDup (dict_keys fields ++ dict_keys todo) ->
  dict_get pre m = None ->
  ¬ Forall (fun ph => is_Some (dict_get (PHASES G) ph.1)) todo ->
  exists k ids,
    for_each todo (upto_phase_body G gameweek m)
      (pre ++ (m, {| total := t; phase_fields := fields |}) :: post)
    = Raise (KeyError (KInt k))
    /\ (k, ids) ∈ todo /\ dict_get (PHASES G) k = None.
Proof.
  induction todo as [|[k ids] todo IH]; intros t fields pre post Hnd Hpre Hbad.
  - exfalso. apply Hbad. constructor.
  - destruct (dict_get (PHASES G) k) as [gws|] eqn:Hgws.
    + assert (dict_get fields k = None) as Hk.
      { apply dict_get_None. apply NoDup_app in Hnd as (_ & Hdisj & _).
        intros Hin. apply (Hdisj k Hin). left. }
      cbn [for_each]. rewrite upto_phase_first by (try done; by rewrite Hgws).
      destruct (IH (t + upto_phase_total G gameweek k ids)
                  (fields ++ [(k, upto_phase_total G gameweek k ids)]) pre post)
        as (k' & ids' & Hraise & Hin & Hnone).
      { rewrite dict_keys_app, <- app_assoc. exact Hnd. }
      { done. }
      { intros Hall. apply Hbad. constructor; [|exact Hall].
        simpl. by rewrite Hgws. }
      exists k', ids'. split; [exact Hraise|]. split; [by right | done].
    + exists k, ids. split; [|split; [left | done]].
      cbn [for_each]. unfold upto_phase_body, getitem_int.
      cbn [fst snd]. by rewrite Hgws.
Qed.

Lemma upto_manager_loop_raise G gameweek todo : forall mp,
  wf_squads todo ->
  Forall (fun item => dict_get mp item.1 = None) todo ->
  ¬ Forall (fun item =>
              Forall (fun ph => is_Some (dict_get (PHASES G) ph.1)) item.2)
           todo ->
  exists k m phases ids,
    for_each todo (upto_manager_body G gameweek) mp = Raise (KeyError (KInt k))
    /\ (m, phases) ∈ todo /\ (k, ids) ∈ phases
    /\ dict_get (PHASES G) k = None.
Proof.
  induction todo as [|[m phases] todo IH]; intros mp [Hnd Hwf] Hfresh Hbad.
  - exfalso. apply Hbad. constructor.
  - apply NoDup_cons in Hnd as [Hm Hnd].
    apply Forall_cons in Hwf as [Hph Hwf].
    apply Forall_cons in Hfresh as [Hmp Hfresh]. cbn [fst snd] in *.
    destruct (decide (Forall (fun ph => is_Some (dict_get (PHASES G) ph.1))
                             phases)) as [Hkn|Hkn].
    + cbn [for_each]. rewrite upto_manager_first by done.
      destruct (IH (mp ++ mp_shape (pp_shape (upto_phase_total G gameweek)
                                             [(m, phases)])))
        as (k & m' & phases' & ids & Hraise & Hin & Hin' & Hnone).
      { done. }
      { by apply fresh_after_first. }
      { intros Hall. apply Hbad. by constructor. }
      exists k, m', phases', ids. split; [exact Hraise|].
      split; [by right | done].
    + cbn [for_each]. unfold upto_manager_body at 1. cbn [fst snd].
      rewrite dict_set_fresh by done.
      destruct (upto_phase_loop_raise G gameweek m phases 0 [] mp [])
        as (k & ids & Hraise & Hin & Hnone); [done | done | done |].
      rewrite Hraise. exists k, m, phases, ids.
      split; [done|]. split; [left | done].
Qed.

Lemma calculate_points_up_to_gameweek_raises G gameweek :
  wf_squads (manager_squads G) ->
  ¬ phases_known G ->
  exists k,
    calculate_points_up_to_gameweek G gameweek = Raise (KeyError (KInt k))
    /\ unknown_phase G k.
Proof.
  intros Hwf Hbad. unfold calculate_points_up_to_gameweek.
  destruct (upto_manager_loop_raise G gameweek (manager_squads G) [])
    as (k & m & phases & ids & Hraise & Hin & Hin' & Hnone);
    [done | by apply Forall_forall | done |].
  exists k. split; [done|]. split; [done|]. eauto.
Qed.

(** ** Lookups in the closed forms *)

Lemma dict_get_pp_shape f squads m :
  dict_get (pp_shape f squads) m
  = (fun phases => map (fun ph => (ph.1, f ph.1 ph.2)) phases)
      <$> dict_get squads m.
Proof.
  unfold pp_shape.
  apply (dict_get_fmap_values
           (fun _ phases => map (fun ph => (ph.1, f ph.1 ph.2)) phases)).
Qed.

Lemma dict_get_mp_shape pp m :
  dict_get (mp_shape pp) m = entry_of <$> dict_get pp m.
Proof. unfold mp_shape. apply (dict_get_fmap_values (fun _ d => entry_of d)). Qed.

Lemma phase_total_of_shape f squads m k :
  phase_total_of (pp_shape f squads) m k
  = f k <$> (dict_get squads m ≫= (fun phases => dict_get phases k)).
Proof.
  unfold phase_total_of. rewrite dict_get_pp_shape.
  destruct (dict_get squads m) as [phases|]; simpl; [|done].
  apply dict_get_fmap_values.
Qed.

Lemma phase_field_of_shape pp m k :
  phase_field_of (mp_shape pp) m k = phase_total_of pp m k.
Proof.
  unfold phase_field_of, phase_total_of. rewrite dict_get_mp_shape.
  by destruct (dict_get pp m).
Qed.

Lemma calculate_manager_points_cases G r :
  wf_squads (manager_squads G) ->
  calculate_manager_points G = Ok r ->
  (manager_points r = [] /\ phase_points r = []
   /\ (manager_squads G = [] \/ gameweek_data G = ∅))
  \/ (phases_known G /\ gameweek_data G ≠ ∅ /\ manager_squads G ≠ []
      /\ phase_points r = pp_shape (spec_phase_total G) (manager_squads G)
      /\ manager_points r = mp_shape (phase_points r)).
Proof.
  intros Hwf Hrun.
  destruct (decide (manager_squads G = [])) as [Hsq|Hsq].
  { left. unfold calculate_manager_points in Hrun. rewrite Hsq in Hrun.
    simpl in Hrun. simplify_eq. simpl. auto. }
  destruct (decide (gameweek_data G = ∅)) as [Hgd|Hgd].
  { left. unfold calculate_manager_points in Hrun.
    destruct (manager_squads G); [done|]. simpl in Hrun.
    rewrite bool_decide_eq_true_2 in Hrun by done. simplify_eq. simpl. auto. }
  destruct (decide (phases_known G)) as [Hkn|Hkn].
  - right. destruct (calculate_manager_points_closed G) as (r' & Hr' & Hpp & Hmp);
      [done..|]. rewrite Hrun in Hr'. simplify_eq. done.
  - destruct (calculate_manager_points_raises G) as (k & Hraise & _); [done..|].
    rewrite Hrun in Hraise. done.
Qed.

Lemma calculate_points_up_to_gameweek_cases G gameweek mp :
  wf_squads (manager_squads G) ->
  calculate_points_up_to_gameweek G gameweek = Ok mp ->
  phases_known G
  /\ mp = mp_shape (pp_shape (upto_phase_total G gameweek) (manager_squads G)).
Proof.
  intros Hwf Hrun. destruct (decide (phases_known G)) as [Hkn|Hkn].
  - split; [done|]. rewrite calculate_points_up_to_gameweek_closed in Hrun by done.
    by simplify_eq.
  - destruct (calculate_points_up_to_gameweek_raises G gameweek)
      as (k & Hraise & _); [done..|].
    rewrite Hrun in Hraise. done.
Qed.

Lemma mp_shape_keys pp : dict_keys (mp_shape pp) = dict_keys pp.
Proof. unfold mp_shape, dict_keys. by rewrite map_map. Qed.

(** ** The aggregated totals *)

(** C1.  For every manager of the roster, the grand total that the
    aggregator returns is the sum of that manager's per-phase totals, and
    the per-phase total of a phase is the sum, over the periods of the
    phase, of the scores of the rostered players, plus the adjustments of
    [POINT_CORRECTIONS] that match the phase and a rostered player; the
    [phase_k] fields and [phase_points] hold these per-phase totals and
    nothing else.  This holds for [calculate_manager_points] (which
    computes no total at all when there are no gameweek data) and, with
    the periods up to the cutoff, for [calculate_points_up_to_gameweek].
    When every roster phase is a phase of [PHASES] (and, for
    [calculate_manager_points], there are squads and gameweek data) both
    return an entry for every manager of the roster. *)
Theorem grand_total_is_sum_of_phase_totals (G : globals) :
  wf_squads (manager_squads G) ->
  (forall r,
      calculate_manager_points G = Ok r ->
      (forall m e,
          dict_get (manager_points r) m = Some e ->
          total e = sum (dict_values (phase_fields e))
          /\ dict_get (phase_points r) m = Some (phase_fields e))
      /\ (gameweek_data G = ∅ -> manager_points r = [])
      /\ (gameweek_data G ≠ ∅ ->
          dict_keys (manager_points r) = dict_keys (manager_squads G)
          /\ forall m phases,
               dict_get (manager_squads G) m = Some phases ->
               exists e,
                 dict_get (manager_points r) m = Some e
                 /\ phase_fields e
                    = map (fun ph => (ph.1, spec_phase_total G ph.1 ph.2))
                          phases
                 /\ total e
                    = sum (map (fun ph => spec_phase_total G ph.1 ph.2)
                               phases)))
  /\ (forall gameweek mp,
         calculate_points_up_to_gameweek G gameweek = Ok mp ->
         (forall m e,
             dict_get mp m = Some e ->
             total e = sum (dict_values (phase_fields e)))
         /\ dict_keys mp = dict_keys (manager_squads G)
         /\ forall m phases,
              dict_get (manager_squads G) m = Some phases ->
              exists e,
                dict_get mp m = Some e
                /\ phase_fields e
                   = map (fun ph =>
                            (ph.1, upto_phase_total G gameweek ph.1 ph.2))
                         phases
                /\ total e
                   = sum (map (fun ph => upto_phase_total G gameweek ph.1 ph.2)
                              phases))
  /\ (phases_known G -> manager_squads G ≠ [] -> gameweek_data G ≠ ∅ ->
      exists r, calculate_manager_points G = Ok r
                /\ dict_keys (manager_points r) = dict_keys (manager_squads G))
  /\ (phases_known G -> forall gameweek,
      exists mp, calculate_points_up_to_gameweek G gameweek = Ok mp
                 /\ dict_keys mp = dict_keys (manager_squads G)).
Proof.
  intros Hwf.
  assert (forall (f : Z -> list Z -> Z) m phases,
             dict_get (manager_squads G) m = Some phases ->
             exists e,
               dict_get (mp_shape (pp_shape f (manager_squads G))) m = Some e
               /\ phase_fields e = map (fun ph => (ph.1, f ph.1 ph.2)) phases
               /\ total e = sum (map (fun ph => f ph.1 ph.2) phases))
    as Hentry.
  { intros f m phases Hget. rewrite dict_get_mp_shape, dict_get_pp_shape, Hget.
    eexists. split; [reflexivity|]. split; [done|].
    cbn [entry_of total]. unfold dict_values. by rewrite map_map. }
  split; [|split; [|split]].
  - intros r Hrun. split; [|split].
    + intros m e Hget.
      destruct (calculate_manager_points_cases G r Hwf Hrun)
        as [(Hmp & _)|(_ & _ & _ & _ & Hmp)]; rewrite Hmp in Hget; [done|].
      rewrite dict_get_mp_shape in Hget.
      destruct (dict_get (phase_points r) m) as [d|]; simpl in Hget; [|done].
      injection Hget as <-. done.
    + intros Hgd.
      by destruct (calculate_manager_points_cases G r Hwf Hrun)
        as [(Hmp & _)|(_ & ? & _)].
    + intros Hgd.
      destruct (calculate_manager_points_cases G r Hwf Hrun)
        as [(Hmp & _ & [Hsq|?])|(_ & _ & _ & Hpp & Hmp)]; [|done|].
      * rewrite Hmp, Hsq. split; [done|]. intros m phases Hget. done.
      * rewrite Hmp, Hpp. split; [|apply Hentry].
        by rewrite mp_shape_keys, pp_shape_keys.
  - intros gameweek mp Hrun.
    destruct (calculate_points_up_to_gameweek_cases G gameweek mp Hwf Hrun)
      as [_ ->].
    split; [|split; [|apply Hentry]].
    + intros m e Hget. rewrite dict_get_mp_shape in Hget.
      destruct (dict_get _ m) as [d|]; simpl in Hget; [|done].
      injection Hget as <-. done.
    + by rewrite mp_shape_keys, pp_shape_keys.
  - intros Hkn Hsq Hgd.
    destruct (calculate_manager_points_closed G) as (r & Hr & Hpp & Hmp);
      [done..|].
    exists r. split; [done|]. by rewrite Hmp, mp_shape_keys, Hpp, pp_shape_keys.
  - intros Hkn gameweek. eexists. split.
    + by apply calculate_points_up_to_gameweek_closed.
    + by rewrite mp_shape_keys, pp_shape_keys.
Qed.

Lemma adjustments_total_insert before c after k ids :
  adjustments_total (before ++ c :: after) k ids
  = adjustments_total (before ++ after) k ids + adjustment_for k ids c.
Proof.
  unfold adjustments_total. rewrite !map_app, !sum_app. simpl.
  rewrite sum_cons. lia.
Qed.

Lemma sum_map_add {A} (f g : A -> Z) (l : list A) :
  sum (map (fun x => f x + g x) l) = sum (map f l) + sum (map g l).
Proof.
  induction l as [|x l IH]; simpl; [by rewrite !sum_nil|].
  rewrite !sum_cons, IH. lia.
Qed.

Lemma sum_adjustment_over_phases (phases : dict Z (list Z)) P K D :
  NoDup (dict_keys phases) ->
  sum (map (fun ph => adjustment_for ph.1 ph.2 (P, K, D)) phases)
  = if list_mem P (default [] (dict_get phases K)) then D else 0.
Proof.
  induction phases as [|[k ids] phases IH]; intros Hnd.
  - done.
  - apply NoDup_cons in Hnd as [Hk Hnd]. cbn [map fst snd dict_get].
    rewrite sum_cons. case_decide as HK.
    + subst k. simpl.
      assert (sum (map (fun ph => adjustment_for ph.1 ph.2 (P, K, D)) phases) = 0)
        as ->.
      { rewrite IH by done. cbn [fst] in Hk.
        apply (proj2 (dict_get_None phases K)) in Hk. by rewrite Hk. }
      unfold adjustment_for. simpl. rewrite bool_decide_eq_true_2 by done.
      simpl. destruct (list_mem P ids); lia.
    + rewrite IH by done. rewrite adjustment_for_other; [lia|]. simpl. congruence.
Qed.

Lemma raw_phase_total_corrections G corrections gws ids :
  raw_phase_total (with_corrections G corrections) gws ids
  = raw_phase_total G gws ids.
Proof. reflexivity. Qed.

Lemma wf_squads_lookup squads m phases :
  wf_squads squads -> dict_get squads m = Some phases ->
  NoDup (dict_keys phases).
Proof.
  intros [_ Hwf] Hget. apply dict_get_Some_elem in Hget.
  by apply (proj1 (Forall_forall _ _) Hwf _ Hget).
Qed.

(** C2.  One more entry (player [P], phase [K], delta [D]) in
    [POINT_CORRECTIONS] adds exactly [D] to the phase [K] total of every
    manager whose phase [K] roster contains [P], once for each such
    manager, and leaves every other phase total and every other manager as
    they were; the grand totals move with the phase totals. *)
Theorem adjustment_applies_once_per_holder (G : globals)
    (before after : list (Z * Z * Z)) (P K D : Z) :
  wf_squads (manager_squads G) ->
  forall r,
    calculate_manager_points (with_corrections G (before ++ after)) = Ok r ->
    exists r',
      calculate_manager_points
        (with_corrections G (before ++ (P, K, D) :: after)) = Ok r'
      /\ (forall m k,
            phase_total_of (phase_points r') m k
            = (fun v => if bool_decide (k = K) && list_mem P (roster G m K)
                        then v + D else v)
                <$> phase_total_of (phase_points r) m k)
      /\ (forall m,
            total_of (manager_points r') m
            = (fun t => if list_mem P (roster G m K) then t + D else t)
                <$> total_of (manager_points r) m).
Proof.
  intros Hwf r Hrun.
  destruct (calculate_manager_points_cases
              (with_corrections G (before ++ after)) r Hwf Hrun)
    as [(Hmp & Hpp & Hempty)|(Hkn & Hgd & Hsq & Hpp & Hmp)].
  - exists r. split; [|split].
    + rewrite <- Hrun. unfold calculate_manager_points. simpl.
      simpl in Hempty. destruct Hempty as [->|Hgd]; [done|].
      destruct (manager_squads G); [done|]. simpl.
      by rewrite !bool_decide_eq_true_2 by done.
    + intros m k. unfold phase_total_of. by rewrite Hpp.
    + intros m. unfold total_of. by rewrite Hmp.
  - destruct (calculate_manager_points_closed
                (with_corrections G (before ++ (P, K, D) :: after)))
      as (r' & Hr' & Hpp' & Hmp'); [done..|].
    exists r'. split; [done|].
    simpl in Hpp, Hpp'.
    assert (phase_points r'
            = pp_shape (fun k ids =>
                          spec_phase_total (with_corrections G (before ++ after))
                                           k ids
                          + adjustment_for k ids (P, K, D))
                       (manager_squads G)) as Hpp''.
    { rewrite Hpp'. apply pp_shape_ext. intros. unfold spec_phase_total.
      simpl. rewrite adjustments_total_insert.
      rewrite !raw_phase_total_corrections. unfold phase_range. simpl. lia. }
    split.
    + intros m k. rewrite Hpp'', Hpp, !phase_total_of_shape.
      unfold roster.
      destruct (dict_get (manager_squads G) m) as [phases|] eqn:Hm; [|done].
      simpl.
      destruct (dict_get phases k) as [ids|] eqn:Hk; [|done]. simpl. f_equal.
      unfold adjustment_for. simpl. destruct (decide (k = K)) as [->|HK].
      * rewrite !bool_decide_eq_true_2 by done. rewrite Hk. simpl.
        destruct (list_mem P ids); lia.
      * rewrite !bool_decide_eq_false_2 by congruence. simpl. lia.
    + intros m. unfold total_of. rewrite Hmp', Hmp, !dict_get_mp_shape.
      rewrite Hpp'', Hpp, !dict_get_pp_shape. unfold roster.
      destruct (dict_get (manager_squads G) m) as [phases|] eqn:Hm; [|done].
      simpl. f_equal. unfold dict_values. rewrite !map_map. simpl.
      rewrite (sum_map_add
                 (fun ph => spec_phase_total (with_corrections G (before ++ after))
                                             ph.1 ph.2)
                 (fun ph => adjustment_for ph.1 ph.2 (P, K, D))).
      rewrite sum_adjustment_over_phases by (by eapply wf_squads_lookup).
      destruct (list_mem P _); lia.
Qed.

Lemma score_with_zero G gw scores p :
  gameweek_data G !! gw = Some scores ->
  scores !! p = None ->
  forall gw' p', score (with_score G gw p 0) gw' p' = score G gw' p'.
Proof.
  intros Hgw Hp gw' p'. unfold score, with_score. simpl. rewrite Hgw. simpl.
  destruct (decide (gw' = gw)) as [->|Hne].
  - rewrite lookup_insert_eq, Hgw. simpl.
    destruct (decide (p' = p)) as [->|Hne'].
    + by rewrite lookup_insert_eq, Hp.
    + by rewrite lookup_insert_ne.
  - by rewrite lookup_insert_ne.
Qed.

Lemma spec_phase_total_ext G G' k ids :
  PHASES G' = PHASES G ->
  POINT_CORRECTIONS G' = POINT_CORRECTIONS G ->
  (forall gw p, score G' gw p = score G gw p) ->
  spec_phase_total G' k ids = spec_phase_total G k ids.
Proof.
  intros HP HC Hs. unfold spec_phase_total, phase_range, raw_phase_total.
  rewrite HP, HC. f_equal. f_equal. apply map_ext. intros gw.
  unfold squad_points. f_equal. apply map_ext. intros p. apply Hs.
Qed.

(** C3.  A period of a phase in which a rostered player has no score adds
    0 to the phase total and raises nothing: the phase total is the sum of
    the scores that exist, and writing an explicit 0 where a score is
    missing changes no total.  For the roster [{"Alice": {1: [10, 11]}}],
    the scores [{10: 5, 11: 3}] in period 1 and [{10: 2}] in period 2,
    phase 1 over periods 1 and 2 and no adjustments, the phase 1 total and
    the grand total of Alice are 10. *)
Theorem missing_score_counts_as_zero :
  (forall G : globals,
      wf_squads (manager_squads G) -> phases_known G ->
      manager_squads G ≠ [] -> gameweek_data G ≠ ∅ ->
      exists r,
        calculate_manager_points G = Ok r
        /\ forall m phases k ids,
             dict_get (manager_squads G) m = Some phases ->
             dict_get phases k = Some ids ->
             phase_total_of (phase_points r) m k
             = Some (sum (map (fun gw => sum (map (score G gw) ids))
                              (phase_range G k))
                     + adjustments_total (POINT_CORRECTIONS G) k ids))
  /\ (forall (G : globals) gw scores p r,
         wf_squads (manager_squads G) ->
         gameweek_data G !! gw = Some scores ->
         scores !! p = None ->
         calculate_manager_points G = Ok r ->
         exists r',
           calculate_manager_points (with_score G gw p 0) = Ok r'
           /\ manager_points r' = manager_points r
           /\ phase_points r' = phase_points r)
  /\ (forall cgw,
         exists r,
           calculate_manager_points (alice_globals cgw) = Ok r
           /\ phase_points r = [("Alice"%string, [(1, 10)])]
           /\ manager_points r
              = [("Alice"%string,
                  {| total := 10; phase_fields := [(1, 10)] |})]).
Proof.
  split; [|split].
  - intros G Hwf Hkn Hsq Hgd.
    destruct (calculate_manager_points_closed G) as (r & Hr & Hpp & _);
      [done..|].
    exists r. split; [done|]. intros m phases k ids Hm Hk.
    rewrite Hpp, phase_total_of_shape, Hm. simpl. rewrite Hk. done.
  - intros G gw scores p r Hwf Hgw Hp Hrun.
    assert (gameweek_data G ≠ ∅) as Hgd.
    { intros Hgd. rewrite Hgd, lookup_empty in Hgw. done. }
    destruct (calculate_manager_points_cases G r Hwf Hrun)
      as [(Hmp & Hpp & [Hsq|Hgd'])|(Hkn & _ & Hsq & Hpp & Hmp)]; [|done|].
    + exists r. split; [|done]. rewrite <- Hrun.
      unfold calculate_manager_points. simpl. by rewrite Hsq.
    + destruct (calculate_manager_points_closed (with_score G gw p 0))
        as (r' & Hr' & Hpp' & Hmp'); [done | done | done | |].
      { simpl. apply insert_non_empty. }
      exists r'. split; [done|].
      assert (phase_points r' = phase_points r) as Heq.
      { rewrite Hpp', Hpp. simpl. apply pp_shape_ext. intros.
        apply spec_phase_total_ext; [done | done |].
        by apply (score_with_zero G gw scores p). }
      split; [|done]. by rewrite Hmp', Hmp, Heq.
  - intros cgw.
    destruct (calculate_manager_points_closed (alice_globals cgw))
      as (r & Hr & Hpp & Hmp).
    + apply (bool_decide_unpack _). vm_compute. done.
    + apply (bool_decide_unpack _). vm_compute. done.
    + done.
    + simpl. intros Hgd. apply (f_equal (fun d => d !! 1)) in Hgd.
      vm_compute in Hgd. done.
    + exists r. split; [done|]. rewrite Hmp, Hpp. split.
      * vm_compute. done.
      * vm_compute. done.
Qed.

(** C10.  In [calculate_points_up_to_gameweek] the periods beyond the
    cutoff add nothing to a phase total, but every matching entry of
    [POINT_CORRECTIONS] is added in full whatever the cutoff is; a phase
    that lies wholly beyond the cutoff therefore has its adjustments as its
    total, and they reach the grand total of the baseline standings. *)
Theorem cutoff_keeps_adjustments_in_full (G : globals) (cutoff : Z) :
  wf_squads (manager_squads G) ->
  phases_known G ->
  exists mp,
    calculate_points_up_to_gameweek G cutoff = Ok mp
    /\ forall m phases k ids,
         dict_get (manager_squads G) m = Some phases ->
         dict_get phases k = Some ids ->
         phase_field_of mp m k
         = Some (raw_phase_total G
                   (filter (fun gw => gw ≤ cutoff) (phase_range G k)) ids
                 + adjustments_total (POINT_CORRECTIONS G) k ids)
         /\ (Forall (fun gw => cutoff < gw) (phase_range G k) ->
             phase_field_of mp m k
             = Some (adjustments_total (POINT_CORRECTIONS G) k ids))
         /\ total_of mp m
            = Some (sum (map (fun ph =>
                                raw_phase_total G
                                  (filter (fun gw => gw ≤ cutoff)
                                          (phase_range G ph.1)) ph.2
                                + adjustments_total (POINT_CORRECTIONS G)
                                                    ph.1 ph.2)
                             phases)).
Proof.
  intros Hwf Hkn. eexists. split.
  { by apply calculate_points_up_to_gameweek_closed. }
  intros m phases k ids Hm Hk.
  assert (phase_field_of
            (mp_shape (pp_shape (upto_phase_total G cutoff) (manager_squads G)))
            m k
          = Some (upto_phase_total G cutoff k ids)) as Hfield.
  { rewrite phase_field_of_shape, phase_total_of_shape, Hm. simpl.
    by rewrite Hk. }
  split; [exact Hfield|]. split.
  - intros Hbeyond. rewrite Hfield. unfold upto_phase_total. f_equal.
    assert (filter (fun gw => gw ≤ cutoff) (phase_range G k) = []) as ->.
    { induction (phase_range G k) as [|gw gws IH]; [done|].
      apply Forall_cons in Hbeyond as [Hgw Hbeyond].
      rewrite filter_cons_False by lia. by apply IH. }
    unfold raw_phase_total. simpl. rewrite sum_nil. lia.
  - unfold total_of. rewrite dict_get_mp_shape, dict_get_pp_shape, Hm. simpl.
    unfold dict_values. rewrite map_map. done.
Qed.

(** ** Sorting and ranks *)

Section Sorting.
Context {A : Type} (key : A -> Z).

Lemma insert_desc_perm x l : insert_desc key x l ≡ₚ x :: l.
Proof.
  induction l as [|y l IH]; simpl; [done|].
  case_bool_decide; [|done]. rewrite IH. apply Permutation_swap.
Qed.

Lemma sorted_desc_perm l : sorted_desc key l ≡ₚ l.
Proof.
  induction l as [|x l IH]; simpl; [done|].
  fold (sorted_desc key l). by rewrite insert_desc_perm, IH.
Qed.

Lemma insert_desc_sublist x l : l `sublist_of` insert_desc key x l.
Proof.
  induction l as [|y l IH]; simpl.
  - apply sublist_nil_l.
  - case_bool_decide; [by apply sublist_skip | by apply sublist_cons].
Qed.

(** An element that came earlier and does not score less stays ahead. *)
Lemma insert_desc_before x y l :
  y ∈ l -> key y ≤ key x -> [x; y] `sublist_of` insert_desc key x l.
Proof.
  induction l as [|z l IH]; intros Hin Hle; simpl.
  - by apply elem_of_nil in Hin.
  - case_bool_decide as Hz.
    + apply sublist_cons. apply IH; [|done].
      apply elem_of_cons in Hin as [->|Hin]; [lia | done].
    + apply sublist_skip. by apply singleton_sublist_l.
Qed.

Lemma sorted_desc_stable x y l :
  [x; y] `sublist_of` l -> key y ≤ key x ->
  [x; y] `sublist_of` sorted_desc key l.
Proof.
  induction l as [|z l IH]; intros Hsub Hle.
  - inversion Hsub.
  - simpl. fold (sorted_desc key l).
    apply sublist_cons_r in Hsub as [Hsub|(l' & Heq & Hsub)].
    + etransitivity; [by apply IH | apply insert_desc_sublist].
    + injection Heq as Hx Hl. subst z l'. apply insert_desc_before; [|done].
      rewrite sorted_desc_perm. by apply singleton_sublist_l.
Qed.

Lemma insert_desc_sorted x l :
  StronglySorted (desc key) l -> StronglySorted (desc key) (insert_desc key x l).
Proof.
  induction 1 as [|y l Hs IH Hall]; simpl.
  - repeat constructor.
  - case_bool_decide as Hy.
    + constructor; [done|]. rewrite insert_desc_perm.
      constructor; [unfold desc; lia | done].
    + constructor; [by constructor|]. constructor; [unfold desc; lia|].
      eapply Forall_impl; [exact Hall|]. unfold desc. intros; simpl in *. lia.
Qed.

Lemma sorted_desc_sorted l : StronglySorted (desc key) (sorted_desc key l).
Proof.
  induction l as [|x l IH]; simpl; [constructor|].
  by apply insert_desc_sorted.
Qed.

Lemma sorted_before x y l :
  StronglySorted (desc key) l -> x ∈ l -> y ∈ l -> key y < key x ->
  [x; y] `sublist_of` l.
Proof.
  induction 1 as [|z l Hs IH Hall]; intros Hx Hy Hlt.
  - by apply elem_of_nil in Hx.
  - apply elem_of_cons in Hx as [->|Hx].
    + apply sublist_skip. apply singleton_sublist_l.
      apply elem_of_cons in Hy as [->|Hy]; [lia | done].
    + apply elem_of_cons in Hy as [->|Hy].
      * pose proof (proj1 (Forall_forall _ _) Hall _ Hx) as Hzx.
        unfold desc in Hzx. lia.
      * apply sublist_cons. by apply IH.
Qed.

(** A higher key is ranked ahead, wherever it came in. *)
Lemma sorted_desc_strict x y l :
  x ∈ l -> y ∈ l -> key y < key x ->
  [x; y] `sublist_of` sorted_desc key l.
Proof.
  intros Hx Hy Hlt. apply sorted_before; [apply sorted_desc_sorted | | | done].
  - by rewrite sorted_desc_perm.
  - by rewrite sorted_desc_perm.
Qed.
End Sorting.

Lemma sorted_desc_nil_inv {A} (key : A -> Z) l : sorted_desc key l = [] -> l = [].
Proof.
  intros Hnil. apply Permutation_nil_r. rewrite <- Hnil.
  symmetry. apply sorted_desc_perm.
Qed.

Lemma sorted_desc_keys {V} (key : string * V -> Z) (l : list (string * V)) :
  dict_keys (sorted_desc key l) ≡ₚ dict_keys l.
Proof. unfold dict_keys. apply fmap_Permutation, sorted_desc_perm. Qed.

Lemma lookup_sublist {A} (l : list A) i j x y :
  l !! i = Some x -> l !! j = Some y -> (i < j)%nat -> [x; y] `sublist_of` l.
Proof.
  revert i j. induction l as [|z l IH]; intros i j Hi Hj Hlt; [done|].
  destruct i as [|i]; simpl in Hi.
  - injection Hi as ->. destruct j as [|j]; [lia|]. simpl in Hj.
    apply sublist_skip. apply singleton_sublist_l.
    by eapply list_elem_of_lookup_2.
  - destruct j as [|j]; [lia|]. simpl in Hj.
    apply sublist_cons. apply (IH i j); [done | done | lia].
Qed.

Lemma positions_keys {V} start (l : list (string * V)) :
  dict_keys (positions start l) = dict_keys l.
Proof.
  revert start. induction l as [|x l IH]; intros start; simpl; [done|].
  f_equal. apply IH.
Qed.

Lemma positions_values {V} start (l : list (string * V)) :
  dict_values (positions start l) = seqZ start (Z.of_nat (length l)).
Proof.
  revert start. induction l as [|x l IH]; intros start; [done|].
  cbn [length]. rewrite seqZ_cons by lia.
  replace (Z.pred (Z.of_nat (S (length l)))) with (Z.of_nat (length l)) by lia.
  simpl. f_equal. apply IH.
Qed.

Lemma positions_bound {V} start (l : list (string * V)) m r :
  dict_get (positions start l) m = Some r ->
  start ≤ r < start + Z.of_nat (length l).
Proof.
  intros Hget. apply dict_get_Some_elem in Hget.
  apply elem_of_seqZ. rewrite <- positions_values.
  apply list_elem_of_fmap. by exists (m, r).
Qed.

Lemma assign_positions_fold {V} (l : list (string * V)) : forall start acc,
  NoDup (dict_keys acc ++ dict_keys l) ->
  foldl (fun standings pm => dict_set standings pm.2.1 pm.1) acc
        (enumerate start l)
  = acc ++ positions start l.
Proof.
  induction l as [|[m v] l IH]; intros start acc Hnd.
  - simpl. by rewrite app_nil_r.
  - cbn [enumerate foldl fst snd]. rewrite dict_set_fresh.
    + rewrite IH.
      * by rewrite <- app_assoc.
      * rewrite dict_keys_app, <- app_assoc. done.
    + apply dict_get_None. apply NoDup_app in Hnd as (_ & Hdisj & _).
      intros Hin. apply (Hdisj m Hin). left.
Qed.

Lemma assign_positions_eq {V} (l : list (string * V)) :
  NoDup (dict_keys l) -> assign_positions l = positions 1 l.
Proof.
  intros Hnd. unfold assign_positions. by rewrite assign_positions_fold.
Qed.

Lemma positions_order {V} (l : list (string * V)) : forall start x y r1 r2,
  NoDup (dict_keys l) ->
  [x; y] `sublist_of` l ->
  dict_get (positions start l) x.1 = Some r1 ->
  dict_get (positions start l) y.1 = Some r2 ->
  r1 < r2.
Proof.
  induction l as [|[m v] l IH]; intros start x y r1 r2 Hnd Hsub H1 H2.
  - inversion Hsub.
  - apply NoDup_cons in Hnd as [Hm Hnd]. cbn [fst] in Hm.
    assert (forall z, z ∈ l -> z.1 ≠ m) as Hother.
    { intros z Hz Heq. apply Hm. apply list_elem_of_fmap. by exists z. }
    change (positions start ((m, v) :: l))
      with ((m, start) :: positions (start + 1) l) in H1, H2.
    cbn [dict_get] in H1, H2.
    apply sublist_cons_r in Hsub as [Hsub|(l' & Heq & Hsub)].
    + assert (x ∈ l) as Hx.
      { eapply elem_of_sublist; [|exact Hsub]. left. }
      assert (y ∈ l) as Hy.
      { eapply elem_of_sublist; [|exact Hsub]. right. left. }
      rewrite decide_False in H1 by (by apply Hother).
      rewrite decide_False in H2 by (by apply Hother).
      by eapply IH.
    + injection Heq as Hx Hl. subst x l'. cbn [fst] in H1.
      rewrite decide_True in H1 by done. injection H1 as <-.
      assert (y ∈ l) as Hy by (by apply singleton_sublist_l).
      rewrite decide_False in H2 by (by apply Hother).
      apply positions_bound in H2. lia.
Qed.

Lemma NoDup_values_inj {K V} (d : dict K V) k1 k2 v :
  NoDup (dict_values d) -> (k1, v) ∈ d -> (k2, v) ∈ d -> k1 = k2.
Proof.
  induction d as [|[k0 v0] d IH]; intros Hnd H1 H2.
  - by apply elem_of_nil in H1.
  - apply NoDup_cons in Hnd as [Hv Hnd]. cbn [snd] in Hv.
    assert (forall k, (k, v0) ∈ d -> False) as Habs.
    { intros k Hk. apply Hv. apply list_elem_of_fmap. by exists (k, v0). }
    apply elem_of_cons in H1 as [H1|H1]; apply elem_of_cons in H2 as [H2|H2];
      simplify_eq; [done | by destruct (Habs k2) | by destruct (Habs k1) | eauto].
Qed.

Lemma standings_of_positions (mp : dict string mp_entry) :
  NoDup (dict_keys mp) ->
  standings_of mp = positions 1 (sorted_desc (fun x => total x.2) mp)
  /\ NoDup (dict_keys (sorted_desc (fun x => total x.2) mp)).
Proof.
  intros Hnd.
  assert (NoDup (dict_keys (sorted_desc (fun x => total x.2) mp))) as Hnd'.
  { unfold dict_keys.
    rewrite (fmap_Permutation fst _ _ (sorted_desc_perm _ mp)). done. }
  split; [|done]. unfold standings_of. by apply assign_positions_eq.
Qed.


(** ** The most recent gameweek *)

Lemma phases_default_positive G :
  PHASES G = PHASES_default -> phases_positive G.
Proof. intros HP. unfold phases_positive. rewrite HP. by_computation. Qed.






(** ** The snapshot store *)


(** ** The league table *)

Lemma phase1_squad_performance_loop G m gws : forall acc perf,
  for_each gws
    (fun gw acc =>
       match gameweek_data G !! gw with
       | Some scores =>
           phases ← getitem_str (manager_squads G) m;
           mret (add_scores scores (default [] (dict_get phases 1)) acc)
       | None => Ok acc
       end) acc = Ok perf ->
  perf = acc + sum (map (fun gw => sum (map (score G gw) (roster G m 1))) gws).
Proof.
  unfold getitem_str, roster.
  destruct (dict_get (manager_squads G) m) as [phases|]; simpl.
  - induction gws as [|gw gws IH]; intros acc perf Hrun; simpl in Hrun.
    + injection Hrun as <-. simpl. rewrite sum_nil. lia.
    + cbn [map]. rewrite sum_cons.
      fold (squad_points G gw (default [] (dict_get phases 1))).
      destruct (gameweek_data G !! gw) as [scores|] eqn:Hgw.
      * apply IH in Hrun. rewrite Hrun, add_scores_sum.
        rewrite (squad_points_Some G gw scores) by done. lia.
      * apply IH in Hrun. rewrite Hrun, squad_points_None by done. lia.
  - induction gws as [|gw gws IH]; intros acc perf Hrun; simpl in Hrun.
    + injection Hrun as <-. simpl. rewrite sum_nil. lia.
    + cbn [map]. rewrite sum_cons.
      destruct (gameweek_data G !! gw) as [scores|] eqn:Hgw; [done|].
      apply IH in Hrun. rewrite Hrun. simpl. rewrite sum_nil. lia.
Qed.

Lemma phase1_squad_performance_closed G m perf :
  phase1_squad_performance G m = Ok perf -> perf = original_squad_score G m.
Proof.
  intros Hrun. apply phase1_squad_performance_loop in Hrun.
  rewrite Hrun. unfold original_squad_score. lia.
Qed.

Lemma phase1_diffs_loop G todo : forall acc diffs,
  NoDup (dict_keys acc ++ dict_keys todo) ->
  for_each todo (phase1_diffs_body G) acc = Ok diffs ->
  diffs = acc ++ phase1_diffs_of G todo.
Proof.
  induction todo as [|[m e] todo IH]; intros acc diffs Hnd Hrun.
  - simpl in Hrun. injection Hrun as <-. simpl. by rewrite app_nil_r.
  - cbn [for_each] in Hrun. unfold phase1_diffs_body at 1 in Hrun.
    cbn [fst snd] in Hrun.
    destruct (phase1_squad_performance G m) as [perf|] eqn:Hperf;
      simpl in Hrun; [|done].
    apply phase1_squad_performance_closed in Hperf. subst perf.
    rewrite dict_set_fresh in Hrun.
    + apply IH in Hrun.
      * rewrite Hrun, <- app_assoc. done.
      * rewrite dict_keys_app, <- app_assoc. done.
    + apply dict_get_None. apply NoDup_app in Hnd as (_ & Hdisj & _).
      intros Hin. apply (Hdisj m Hin). left.
Qed.

Lemma weekly_loop G pp managers : forall ws ws',
  for_each managers (weekly_body G pp) ws = Ok ws' ->
  ws_printed ws'
  = ws_printed ws
    ++ concat (map (fun m => (calculate_recent_gameweek_points G m pp).2)
                   managers).
Proof.
  induction managers as [|m managers IH]; intros ws ws' Hrun.
  - simpl in Hrun. injection Hrun as <-. simpl. by rewrite app_nil_r.
  - cbn [for_each] in Hrun. unfold weekly_body at 1 in Hrun.
    apply IH in Hrun. rewrite Hrun. simpl. by rewrite <- app_assoc.
Qed.

Lemma row_loop G prev weekly diffr top items : forall acc res,
  for_each items (row_body G prev weekly diffr top) acc = Ok res ->
  exists new, res.2 = acc.2 ++ new /\ Forall2 (row_of G prev diffr) items new.
Proof.
  induction items as [|item items IH]; intros acc res Hrun.
  - simpl in Hrun. injection Hrun as <-. exists []. by rewrite app_nil_r.
  - cbn [for_each] in Hrun. unfold row_body at 1 in Hrun.
    unfold getitem_str in Hrun.
    destruct (dict_get weekly item.2.1) as [w|]; simpl in Hrun; [|done].
    destruct (phase1_squad_performance G item.2.1) as [perf|] eqn:Hperf;
      simpl in Hrun; [|done].
    destruct (dict_get diffr item.2.1) as [dr|] eqn:Hdr; simpl in Hrun; [|done].
    apply IH in Hrun as (new & Hres & Hall). simpl in Hres.
    eexists (_ :: new). split.
    + rewrite Hres, <- app_assoc. done.
    + constructor; [|done]. unfold row_of. simpl.
      apply phase1_squad_performance_closed in Hperf. by subst perf.
Qed.

Lemma bind_Ok_inv {A B} (m : res A) (f : A -> res B) b :
  m ≫= f = Ok b -> exists a, m = Ok a /\ f a = Ok b.
Proof. destruct m as [a|e]; [by exists a | done]. Qed.

Lemma generate_league_table_rows G mp pp t :
  NoDup (dict_keys mp) ->
  generate_league_table G mp pp = Ok (Some t) ->
  Forall2 (row_of G (default [] (snap_standings (previous_standings G)))
                  (assign_positions (sorted_desc (fun x => x.2)
                                                 (phase1_diffs_of G mp))))
          (enumerate 1 (sorted_desc (fun x => total x.2) mp)) (rows t)
  /\ table_printed t
     = concat (map (fun m => (calculate_recent_gameweek_points G m pp).2)
                   (dict_keys mp)).
Proof.
  intros Hnd Hrun. unfold generate_league_table in Hrun.
  destruct (sorted_desc (fun x => total x.2) mp) as [|top rest] eqn:Hsorted;
    [done|].
  apply bind_Ok_inv in Hrun as (diffs & Hdiffs & Hrun).
  apply phase1_diffs_loop in Hdiffs; [|done]. rewrite app_nil_l in Hdiffs.
  subst diffs.
  apply bind_Ok_inv in Hrun as (ws & Hws & Hrun).
  apply weekly_loop in Hws. rewrite app_nil_l in Hws.
  apply bind_Ok_inv in Hrun as (acc & Hrows & Hrun).
  apply row_loop in Hrows as (new & Hres & Hall). rewrite app_nil_l in Hres.
  injection Hrun as <-. cbn [rows table_printed]. rewrite Hres. done.
Qed.

Lemma enumerate_positions {V} (l : list (string * V)) : forall start pos m v,
  NoDup (dict_keys l) ->
  (pos, (m, v)) ∈ enumerate start l ->
  dict_get (positions start l) m = Some pos /\ (m, v) ∈ l.
Proof.
  induction l as [|[m0 v0] l IH]; intros start pos m v Hnd Hin.
  - by apply elem_of_nil in Hin.
  - apply NoDup_cons in Hnd as [Hm0 Hnd]. cbn [enumerate] in Hin.
    change (positions start ((m0, v0) :: l))
      with ((m0, start) :: positions (start + 1) l).
    apply elem_of_cons in Hin as [Heq|Hin].
    + injection Heq as -> -> ->. simpl. rewrite decide_True by done.
      split; [done | left].
    + destruct (IH _ _ _ _ Hnd Hin) as [Hget Hin'].
      split; [|by right]. simpl. rewrite decide_False; [done|].
      intros ->. apply Hm0. apply list_elem_of_fmap. by exists (m0, v).
Qed.

Lemma rows_items G prev diffr items new row :
  Forall2 (row_of G prev diffr) items new ->
  row ∈ new ->
  exists item, item ∈ items /\ row_of G prev diffr item row.
Proof.
  intros Hall Hin. apply list_elem_of_lookup in Hin as [i Hi].
  destruct (Forall2_lookup_r _ _ _ _ _ Hall Hi) as (item & Hitem & Hrow).
  exists item. split; [by eapply list_elem_of_lookup_2 | done].
Qed.


Lemma enumerate_managers {V} (l : list (string * V)) start :
  map (fun item => item.2.1) (enumerate start l) = dict_keys l.
Proof.
  revert start. induction l as [|x l IH]; intros start; simpl; [done|].
  by rewrite IH.
Qed.


Lemma main_inv json_load shuffle fetch test_mode file G run :
  main json_load shuffle fetch test_mode file G = Ok (Some run) ->
  exists before,
    standings_before json_load shuffle test_mode file G = Ok before
    /\ let G1 := loaded_globals fetch G before.1 in
       exists r prev t,
         calculate_manager_points G1 = Ok r
         /\ baseline test_mode G1 = Ok prev
         /\ run_globals run
            = with_run_state G1 (gameweek_data G1) (current_gameweek G1) prev
         /\ generate_league_table (run_globals run) (manager_points r)
                                  (phase_points r) = Ok t
         /\ run_manager_points run = manager_points r
         /\ run_phase_points run = phase_points r
         /\ run_table run = t
         /\ run_printed run
            = before.2 ++ printed r
              ++ match t with Some t => table_printed t | None => [] end.
Proof.
  intros Hrun. unfold main in Hrun.
  destruct (is_empty_dict (manager_squads G)); [done|].
  apply bind_Ok_inv in Hrun as (before & Hbefore & Hrun).
  exists before. split; [done|]. intros G1.
  cbv zeta in Hrun. fold G1 in Hrun.
  apply bind_Ok_inv in Hrun as (r & Hr & Hrun).
  apply bind_Ok_inv in Hrun as (prev & Hprev & Hrun).
  apply bind_Ok_inv in Hrun as (t & Ht & Hrun).
  injection Hrun as <-. exists r, prev, t. done.
Qed.

(** Without [--test-movement] the standings file is not read. *)
Lemma standings_before_plain json_load shuffle file G :
  standings_before json_load shuffle false file G
  = Ok (previous_standings G, []).
Proof. done. Qed.


Lemma phase1_diffs_of_keys G mp : dict_keys (phase1_diffs_of G mp) = dict_keys mp.
Proof. unfold phase1_diffs_of, dict_keys. by rewrite map_map. Qed.

(** The league table is produced whenever the managers of the score
    mapping are managers of the roster. *)
Lemma phase1_squad_performance_ok G m :
  is_Some (dict_get (manager_squads G) m) ->
  exists perf, phase1_squad_performance G m = Ok perf.
Proof.
  intros [phases Hm]. unfold phase1_squad_performance, getitem_str.
  rewrite Hm. simpl. generalize 0.
  induction (range 1 (current_gameweek G + 1)) as [|gw gws IH]; intros acc.
  - by exists acc.
  - simpl. destruct (gameweek_data G !! gw); apply IH.
Qed.

Lemma phase1_diffs_ok G todo : forall acc,
  Forall (fun item => is_Some (dict_get (manager_squads G) item.1)) todo ->
  exists diffs, for_each todo (phase1_diffs_body G) acc = Ok diffs.
Proof.
  induction todo as [|[m e] todo IH]; intros acc Hall.
  - by exists acc.
  - apply Forall_cons in Hall as [Hm Hall]. cbn [for_each].
    unfold phase1_diffs_body at 1. cbn [fst snd].
    destruct (phase1_squad_performance_ok G m Hm) as [perf ->]. simpl.
    by apply IH.
Qed.

Lemma weekly_ok G pp managers : forall ws,
  exists ws',
    for_each managers (weekly_body G pp) ws = Ok ws'
    /\ forall m,
         m ∈ managers \/ is_Some (dict_get (ws_weekly_points ws) m) ->
         is_Some (dict_get (ws_weekly_points ws') m).
Proof.
  induction managers as [|m0 managers IH]; intros ws.
  - exists ws. split; [done|]. intros m [Hin|Hm]; [|done].
    by apply elem_of_nil in Hin.
  - cbn [for_each]. unfold weekly_body at 1.
    match goal with |- context [for_each managers _ ?s] => set (ws1 := s) end.
    destruct (IH ws1) as (ws' & Hrun & Hkeys). exists ws'. split; [done|].
    intros m Hm. apply Hkeys. unfold ws1. cbn [ws_weekly_points].
    destruct (decide (m = m0)) as [->|Hne].
    + right. rewrite dict_get_set_eq. by eexists.
    + destruct Hm as [Hin|Hm].
      * apply elem_of_cons in Hin as [?|Hin]; [done | by left].
      * right. by rewrite dict_get_set_ne.
Qed.

Lemma row_loop_ok G prev weekly diffr top items : forall acc,
  Forall (fun item =>
            is_Some (dict_get weekly item.2.1)
            /\ is_Some (dict_get (manager_squads G) item.2.1)
            /\ is_Some (dict_get diffr item.2.1)) items ->
  exists res, for_each items (row_body G prev weekly diffr top) acc = Ok res.
Proof.
  induction items as [|item items IH]; intros acc Hall.
  - by exists acc.
  - apply Forall_cons in Hall as [([w Hw] & Hm & [dr Hdr]) Hall].
    cbn [for_each]. unfold row_body at 1, getitem_str. rewrite Hw, Hdr.
    destruct (phase1_squad_performance_ok G _ Hm) as [perf ->]. simpl.
    by apply IH.
Qed.

Lemma enumerate_elem {V} (l : list V) : forall start pos x,
  (pos, x) ∈ enumerate start l -> x ∈ l.
Proof.
  induction l as [|y l IH]; intros start pos x Hin; simpl in Hin.
  - by apply elem_of_nil in Hin.
  - apply elem_of_cons in Hin as [Heq|Hin]; [injection Heq as -> ->; left|].
    right. by eapply IH.
Qed.

Lemma generate_league_table_total G mp pp :
  NoDup (dict_keys mp) ->
  mp ≠ [] ->
  Forall (fun item => is_Some (dict_get (manager_squads G) item.1)) mp ->
  exists t, generate_league_table G mp pp = Ok (Some t).
Proof.
  intros Hnd Hne Hsquads. unfold generate_league_table.
  destruct (sorted_desc (fun x => total x.2) mp) as [|top rest] eqn:Hsorted.
  { by apply sorted_desc_nil_inv in Hsorted. }
  destruct (phase1_diffs_ok G mp [] Hsquads) as [diffs Hdiffs].
  rewrite Hdiffs. cbn [mbind res_bind].
  apply phase1_diffs_loop in Hdiffs; [|done]. rewrite app_nil_l in Hdiffs.
  subst diffs.
  match goal with |- context [for_each (dict_keys mp) _ ?s] => set (ws0 := s) end.
  destruct (weekly_ok G pp (dict_keys mp) ws0) as (ws & Hws & Hkeys).
  rewrite Hws. cbn [mbind res_bind].
  match goal with |- context [for_each _ (row_body _ _ _ ?d _) ?a] =>
    destruct (row_loop_ok G (default [] (snap_standings (previous_standings G)))
                (ws_weekly_points ws) d (total top.2)
                (enumerate 1 (top :: rest)) a) as [res Hres]
  end.
  - apply Forall_forall. intros [pos [m e]] Hin. cbn [fst snd].
    apply enumerate_elem in Hin. rewrite <- Hsorted in Hin.
    rewrite sorted_desc_perm in Hin.
    assert (m ∈ dict_keys mp) as Hm.
    { apply list_elem_of_fmap. by exists (m, e). }
    split; [apply Hkeys; by left|]. split.
    + by apply (proj1 (Forall_forall _ _) Hsquads (m, e)).
    + destruct (dict_get _ m) as [dr|] eqn:Hdr; [by eexists|].
      apply dict_get_None in Hdr. exfalso. apply Hdr.
      rewrite assign_positions_eq, positions_keys.
      * by rewrite sorted_desc_keys, phase1_diffs_of_keys.
      * by rewrite sorted_desc_keys, phase1_diffs_of_keys.
  - rewrite Hres. by eexists.
Qed.







Lemma ranking_by_key {V} (key : string * V -> Z) (l : list (string * V))
    x y r1 r2 :
  NoDup (dict_keys l) ->
  x ∈ l -> y ∈ l ->
  dict_get (assign_positions (sorted_desc key l)) x.1 = Some r1 ->
  dict_get (assign_positions (sorted_desc key l)) y.1 = Some r2 ->
  key y < key x ->
  r1 < r2.
Proof.
  intros Hnd Hx Hy H1 H2 Hlt.
  assert (NoDup (dict_keys (sorted_desc key l))) as Hnd'.
  { unfold dict_keys. by rewrite (fmap_Permutation fst _ _ (sorted_desc_perm key l)). }
  rewrite assign_positions_eq in H1, H2 by done.
  apply (positions_order (sorted_desc key l) 1 x y); [done | | done | done].
  by apply sorted_desc_strict.
Qed.

Lemma original_squad_score_ext G G' m :
  gameweek_data G' = gameweek_data G ->
  current_gameweek G' = current_gameweek G ->
  roster G' m 1 = roster G m 1 ->
  original_squad_score G' m = original_squad_score G m.
Proof.
  intros Hgd Hgw Hroster. unfold original_squad_score.
  rewrite Hgw, Hroster. f_equal. apply map_ext. intros gw. f_equal.
  apply map_ext. intros p. unfold score. by rewrite Hgd.
Qed.

Lemma row_entry G mp pp t row :
  NoDup (dict_keys mp) ->
  generate_league_table G mp pp = Ok (Some t) ->
  row ∈ rows t ->
  exists e,
    (row_manager row, e) ∈ mp
    /\ row_total row = total e
    /\ row_diff_from_phase1 row
       = total e - original_squad_score G (row_manager row)
    /\ dict_get (assign_positions (sorted_desc (fun x => x.2)
                                               (phase1_diffs_of G mp)))
                (row_manager row) = Some (row_diff_rank row)
    /\ dict_get (standings_of mp) (row_manager row) = Some (row_position row).
Proof.
  intros Hnd Hrun Hin.
  destruct (generate_league_table_rows G mp pp t Hnd Hrun) as [Hrows _].
  destruct (standings_of_positions mp Hnd) as [Hst Hnd'].
  destruct (rows_items _ _ _ _ _ _ Hrows Hin)
    as ([pos [m e]] & Hitem & Hpos & Hm & Htotal & _ & Hdiff & Hrank).
  cbn [fst snd] in *.
  destruct (enumerate_positions _ 1 pos m e Hnd' Hitem) as [Hget Hmem].
  exists e. rewrite Hm, Hpos, Hst.
  split; [by rewrite <- (sorted_desc_perm (fun x => total x.2) mp)|]. done.
Qed.

(** C7 (amended).  The "WD" figure of a manager is the grand total minus
    the cumulative score, from period 1 to the current period, of the
    players on the manager's phase 1 roster (an empty roster when the
    manager has none); that cumulative score does not depend on the rosters
    of later phases.  The auxiliary ranking orders the managers by the
    figure, highest first, so it moves with the grand totals; it has no
    part in the primary standings, which are the ranking by grand total.
    The table is produced for every score mapping over the managers of the
    roster. *)
Theorem original_squad_ranking_is_by_difference :
  (forall G mp pp t,
      NoDup (dict_keys mp) ->
      generate_league_table G mp pp = Ok (Some t) ->
      (forall row,
          row ∈ rows t ->
          exists e,
            dict_get mp (row_manager row) = Some e
            /\ row_total row = total e
            /\ row_diff_from_phase1 row
               = total e - original_squad_score G (row_manager row)
            /\ dict_get (standings_of mp) (row_manager row)
               = Some (row_position row))
      /\ (forall a b,
             a ∈ rows t -> b ∈ rows t ->
             row_diff_from_phase1 b < row_diff_from_phase1 a ->
             row_diff_rank a < row_diff_rank b))
  /\ (forall G G' m,
         gameweek_data G' = gameweek_data G ->
         current_gameweek G' = current_gameweek G ->
         roster G' m 1 = roster G m 1 ->
         original_squad_score G' m = original_squad_score G m)
  /\ (forall G mp pp,
         NoDup (dict_keys mp) -> mp ≠ [] ->
         Forall (fun item => is_Some (dict_get (manager_squads G) item.1)) mp ->
         exists t, generate_league_table G mp pp = Ok (Some t)).
Proof.
  split; [|split; [|apply generate_league_table_total]].
  - intros G mp pp t Hnd Hrun. split.
    + intros row Hin.
      destruct (row_entry G mp pp t row Hnd Hrun Hin)
        as (e & Hmem & Htotal & Hdiff & _ & Hpos).
      exists e. split; [by apply dict_get_elem | done].
    + intros a b Ha Hb Hlt.
      destruct (row_entry G mp pp t a Hnd Hrun Ha)
        as (ea & Hmema & _ & Hdiffa & Hranka & _).
      destruct (row_entry G mp pp t b Hnd Hrun Hb)
        as (eb & Hmemb & _ & Hdiffb & Hrankb & _).
      apply (ranking_by_key (fun x => x.2) (phase1_diffs_of G mp)
               (row_manager a, row_diff_from_phase1 a)
               (row_manager b, row_diff_from_phase1 b));
        [by rewrite phase1_diffs_of_keys | | | done | done | done].
      * rewrite Hdiffa. apply list_elem_of_fmap.
        by exists (row_manager a, ea).
      * rewrite Hdiffb. apply list_elem_of_fmap.
        by exists (row_manager b, eb).
  - apply original_squad_score_ext.
Qed.

(** C7, as stated, fails: the phase 1 rosters and all scores are the same
    in both seasons, so is every original-squad score, and yet the
    auxiliary ranking differs, because Bob changed his roster in phase 2;
    so the auxiliary ranking is not a function of the original-squad
    scores. *)
Lemma original_squad_ranking_moves_with_later_rosters :
  (exists ta tb,
      league_table_of (wd_globals [2]) = Ok (Some ta)
      /\ league_table_of (wd_globals [3]) = Ok (Some tb)
      /\ (forall m, roster (wd_globals [2]) m 1 = roster (wd_globals [3]) m 1)
      /\ original_squad_score (wd_globals [2]) "Ann" = 6
      /\ original_squad_score (wd_globals [2]) "Bob" = 5
      /\ original_squad_score (wd_globals [3]) "Ann" = 6
      /\ original_squad_score (wd_globals [3]) "Bob" = 5
      /\ map (fun r => (row_manager r, row_diff_from_phase1 r, row_diff_rank r))
             (rows ta)
         = [("Ann"%string, 0, 1); ("Bob"%string, 0, 2)]
      /\ map (fun r => (row_manager r, row_diff_from_phase1 r, row_diff_rank r))
             (rows tb)
         = [("Bob"%string, 9, 1); ("Ann"%string, 0, 2)])
  /\ ¬ (forall G G' t t',
          league_table_of G = Ok (Some t) ->
          league_table_of G' = Ok (Some t') ->
          (forall m, original_squad_score G m = original_squad_score G' m) ->
          forall a b,
            a ∈ rows t -> b ∈ rows t' -> row_manager a = row_manager b ->
            row_diff_rank a = row_diff_rank b).
Proof.
  assert (exists ta tb,
             league_table_of (wd_globals [2]) = Ok (Some ta)
             /\ league_table_of (wd_globals [3]) = Ok (Some tb)
             /\ map (fun r => (row_manager r, row_diff_from_phase1 r,
                               row_diff_rank r)) (rows ta)
                = [("Ann"%string, 0, 1); ("Bob"%string, 0, 2)]
             /\ map (fun r => (row_manager r, row_diff_from_phase1 r,
                               row_diff_rank r)) (rows tb)
                = [("Bob"%string, 9, 1); ("Ann"%string, 0, 2)]) as Htables.
  { eexists _, _. split; [vm_compute; reflexivity|].
    split; [vm_compute; reflexivity|]. split; vm_compute; reflexivity. }
  assert (forall m, roster (wd_globals [2]) m 1 = roster (wd_globals [3]) m 1)
    as Hroster.
  { intros m. unfold roster. simpl. repeat case_decide; done. }
  destruct Htables as (ta & tb & Hta & Htb & Hrows_a & Hrows_b).
  split.
  - exists ta, tb. split; [exact Hta|]. split; [exact Htb|].
    split; [exact Hroster|].
    split; [vm_compute; reflexivity|]. split; [vm_compute; reflexivity|].
    split; [vm_compute; reflexivity|]. split; [vm_compute; reflexivity|].
    split; [exact Hrows_a | exact Hrows_b].
  - intros Hall.
    destruct (rows ta) as [|a [|a' [|? ?]]] eqn:Ha; try discriminate Hrows_a.
    destruct (rows tb) as [|b [|b' [|? ?]]] eqn:Hb; try discriminate Hrows_b.
    cbn [map] in Hrows_a, Hrows_b.
    assert (row_manager a = "Ann"%string /\ row_diff_rank a = 1) as [Hma Hra]
      by (split; congruence).
    assert (row_manager b' = "Ann"%string /\ row_diff_rank b' = 2) as [Hmb Hrb]
      by (split; congruence).
    assert (row_diff_rank a = row_diff_rank b') as Heq.
    { apply (Hall (wd_globals [2]) (wd_globals [3]) ta tb Hta Htb).
      - intros m. by apply original_squad_score_ext.
      - rewrite Ha. left.
      - rewrite Hb. right. left.
      - congruence. }
    lia.
Qed.

(** ** Surfacing of violated invariants *)













(** * Further properties *)

(** ** The cutoff variant against the main aggregation *)

Lemma raw_phase_total_filter G (P : Z -> Prop) `{forall gw, Decision (P gw)}
    gws ids :
  (forall gw, gw ∈ gws -> ¬ P gw -> gameweek_data G !! gw = None) ->
  raw_phase_total G (filter P gws) ids = raw_phase_total G gws ids.
Proof.
  unfold raw_phase_total. induction gws as [|gw gws IH]; intros Hout; [done|].
  rewrite filter_cons. cbn [map]. rewrite sum_cons.
  assert (forall gw', gw' ∈ gws -> ¬ P gw' -> gameweek_data G !! gw' = None)
    as Hout' by (intros gw' Hin; apply Hout; by right).
  destruct (decide (P gw)) as [Hp|Hp].
  - cbn [map]. rewrite sum_cons, IH by done. done.
  - rewrite IH by done. rewrite squad_points_None; [lia|].
    apply Hout; [left | done].
Qed.

Lemma upto_phase_total_past_the_data G cutoff k ids :
  (forall gw, is_Some (gameweek_data G !! gw) -> gw ≤ cutoff) ->
  upto_phase_total G cutoff k ids = spec_phase_total G k ids.
Proof.
  intros Hdata. unfold upto_phase_total, spec_phase_total.
  rewrite raw_phase_total_filter; [done|].
  intros gw _ Hgw. destruct (gameweek_data G !! gw) eqn:E; [|done].
  exfalso. apply Hgw, Hdata. by eexists.
Qed.

Lemma cutoff_past_the_data G cutoff r :
  wf_squads (manager_squads G) ->
  (forall gw, is_Some (gameweek_data G !! gw) -> gw ≤ cutoff) ->
  calculate_manager_points G = Ok r ->
  manager_points r ≠ [] ->
  calculate_points_up_to_gameweek G cutoff = Ok (manager_points r).
Proof.
  intros Hwf Hdata Hr Hne.
  destruct (calculate_manager_points_cases G r Hwf Hr)
    as [(Hmp & _)|(Hkn & _ & _ & Hpp & Hmp)]; [done|].
  rewrite calculate_points_up_to_gameweek_closed by done.
  rewrite Hmp, Hpp. do 2 f_equal. apply pp_shape_ext.
  intros m phases k ids _ _. by apply upto_phase_total_past_the_data.
Qed.

Lemma raw_phase_total_without_data G gws ids :
  gameweek_data G = ∅ -> raw_phase_total G gws ids = 0.
Proof.
  intros Hgd. unfold raw_phase_total.
  induction gws as [|gw gws IH]; [done|].
  cbn [map]. rewrite sum_cons, IH, squad_points_None; [done|].
  by rewrite Hgd, lookup_empty.
Qed.

(** With a cutoff that no gameweek with data exceeds,
    [calculate_points_up_to_gameweek] returns the score mapping of
    [calculate_manager_points] when there are gameweek data.  When there
    are none the two differ: [calculate_manager_points] returns the empty
    mapping, and the cutoff variant an entry for every manager, with the
    matching adjustments of [POINT_CORRECTIONS] as phase totals. *)
Theorem cutoff_beyond_the_data_gives_the_totals G cutoff r :
  wf_squads (manager_squads G) ->
  (forall gw, is_Some (gameweek_data G !! gw) -> gw ≤ cutoff) ->
  calculate_manager_points G = Ok r ->
  (gameweek_data G ≠ ∅ ->
   calculate_points_up_to_gameweek G cutoff = Ok (manager_points r))
  /\ (gameweek_data G = ∅ ->
      manager_points r = []
      /\ (phases_known G ->
          calculate_points_up_to_gameweek G cutoff
          = Ok (mp_shape
                  (pp_shape (adjustments_total (POINT_CORRECTIONS G))
                            (manager_squads G))))).
Proof.
  intros Hwf Hdata Hr. split.
  - intros Hgd.
    destruct (calculate_manager_points_cases G r Hwf Hr)
      as [(Hmp & _ & [Hsq|?])|(_ & _ & Hsq & Hpp & Hmp)]; [|done|].
    + rewrite Hmp. unfold calculate_points_up_to_gameweek. by rewrite Hsq.
    + apply cutoff_past_the_data; [done..|].
      intros Hnil. apply Hsq. rewrite Hmp, Hpp in Hnil.
      apply (f_equal dict_keys) in Hnil.
      rewrite mp_shape_keys, pp_shape_keys in Hnil.
      by destruct (manager_squads G).
  - intros Hgd. split.
    + by destruct (calculate_manager_points_cases G r Hwf Hr)
        as [(Hmp & _)|(_ & ? & _)].
    + intros Hkn. rewrite calculate_points_up_to_gameweek_closed by done.
      do 2 f_equal. apply pp_shape_ext. intros m phases k ids _ _.
      unfold upto_phase_total. by rewrite raw_phase_total_without_data.
Qed.

Lemma range_elem a b x : x ∈ range a b <-> a ≤ x < b.
Proof. unfold range. rewrite elem_of_seqZ. lia. Qed.

Lemma load_gameweeks_lookup fetch data last gw :
  load_gameweeks fetch data last !! gw
  = if bool_decide (1 ≤ gw ≤ last) then Some (fetch gw) else data !! gw.
Proof.
  unfold load_gameweeks.
  assert (forall gws (d : gmap Z (gmap Z Z)),
             foldl (fun data gw => <[gw := fetch gw]> data) d gws !! gw
             = if bool_decide (gw ∈ gws) then Some (fetch gw) else d !! gw)
    as Hfold.
  { induction gws as [|g gws IH]; intros d.
    - cbn [foldl]. case_bool_decide as Hin; [|done]. by apply elem_of_nil in Hin.
    - cbn [foldl]. rewrite IH. repeat case_bool_decide; try done.
      + match goal with Hc : ¬ _ |- _ => destruct Hc; by right end.
      + match goal with Hc : _ ∈ _ :: _ |- _ =>
          apply elem_of_cons in Hc as [->|?]; [|done] end.
        by rewrite lookup_insert_eq.
      + rewrite lookup_insert_ne; [done|]. intros ->.
        match goal with Hc : ¬ _ ∈ _ :: _ |- _ => destruct Hc; left end. }
  rewrite Hfold. rewrite (bool_decide_ext (gw ∈ range 1 (last + 1)) (1 ≤ gw ≤ last));
    [done|]. rewrite range_elem. lia.
Qed.

Lemma cutoff_prev_irrelevant G data gw prev cutoff :
  calculate_points_up_to_gameweek (with_run_state G data gw prev) cutoff
  = calculate_points_up_to_gameweek
      (with_run_state G data gw (previous_standings G)) cutoff.
Proof. reflexivity. Qed.

Lemma main_squads_nonempty json_load shuffle fetch test_mode file G run :
  main json_load shuffle fetch test_mode file G = Ok (Some run) ->
  manager_squads G ≠ [].
Proof.
  unfold main. destruct (manager_squads G); [done|]. discriminate.
Qed.

Lemma row_change_of_row G mp pp t row :
  NoDup (dict_keys mp) ->
  generate_league_table G mp pp = Ok (Some t) ->
  row ∈ rows t ->
  row_change row
  = position_change (default [] (snap_standings (previous_standings G)))
                    (row_manager row) (row_position row).
Proof.
  intros Hnd Ht Hin.
  destruct (generate_league_table_rows G mp pp t Hnd Ht) as [Hrows _].
  destruct (rows_items _ _ _ _ _ _ Hrows Hin) as (item & _ & Hrow).
  destruct Hrow as (-> & -> & _ & -> & _). done.
Qed.

(** In a run without [--test-movement], started with no gameweek data and
    past the first gameweek, the totals of the table are the totals up to
    the current gameweek, and the movement of a manager compares the
    position in the table with the position in the standings of the totals
    up to the gameweek before. *)
Theorem run_compares_consecutive_gameweeks json_load shuffle fetch file G run :
  wf_squads (manager_squads G) ->
  gameweek_data G = ∅ ->
  main json_load shuffle fetch false file G = Ok (Some run) ->
  1 < current_gameweek (run_globals run) ->
  exists before,
    calculate_points_up_to_gameweek
      (run_globals run) (current_gameweek (run_globals run))
    = Ok (run_manager_points run)
    /\ calculate_points_up_to_gameweek
         (run_globals run) (current_gameweek (run_globals run) - 1)
       = Ok before
    /\ previous_standings (run_globals run)
       = {| snap_gameweek := Some (current_gameweek (run_globals run) - 1);
            snap_standings := Some (standings_of before) |}
    /\ forall t row,
         run_table run = Some t -> row ∈ rows t ->
         row_change row
         = position_change (standings_of before) (row_manager row)
                           (row_position row).
Proof.
  intros Hwf Hdata Hrun Hgw.
  pose proof (main_squads_nonempty _ _ _ _ _ _ _ Hrun) as Hsq.
  destruct (main_inv _ _ _ _ _ _ _ Hrun)
    as (loaded & _ & r & prev & t & Hr & Hprev & Hglob & Ht & Hmp & _ & Htab
        & _).
  set (G1 := loaded_globals fetch G loaded.1) in *.
  rewrite Hglob in *. cbn [with_run_state current_gameweek] in Hgw |- *.
  assert (wf_squads (manager_squads G1)) as Hwf1 by done.
  assert (forall gw, is_Some (gameweek_data G1 !! gw) -> gw ≤ current_gameweek G1)
    as Hkeys.
  { intros gw. cbn [G1 loaded_globals with_run_state gameweek_data
                    current_gameweek].
    rewrite load_gameweeks_lookup. case_bool_decide; [lia|].
    rewrite Hdata, lookup_empty. by intros [? ?]. }
  assert (gameweek_data G1 ≠ ∅) as Hne.
  { intros Hempty.
    assert (gameweek_data G1 !! 1 = None) as Hone
      by (rewrite Hempty; apply lookup_empty).
    cbn [G1 loaded_globals with_run_state gameweek_data] in Hone.
    rewrite load_gameweeks_lookup, bool_decide_eq_true_2 in Hone; [done|].
    cbn [G1 loaded_globals with_run_state current_gameweek] in Hgw. lia. }
  assert (manager_points r ≠ []) as Hmpne.
  { destruct (calculate_manager_points_cases G1 r Hwf1 Hr)
      as [(_ & _ & [?|?])|(_ & _ & _ & Hpp & Hmpr)]; [done..|].
    rewrite Hmpr, Hpp. change (manager_squads G1) with (manager_squads G).
    destruct (manager_squads G); [done|]. discriminate. }
  pose proof (cutoff_past_the_data G1 (current_gameweek G1) r Hwf1 Hkeys Hr Hmpne)
    as Hnow.
  unfold baseline in Hprev. cbn [negb] in Hprev.
  rewrite bool_decide_eq_true_2 in Hprev by lia.
  unfold calculate_position_changes in Hprev.
  rewrite bool_decide_eq_false_2 in Hprev by lia.
  rewrite Hnow in Hprev. cbn [mbind res_bind] in Hprev.
  destruct (calculate_points_up_to_gameweek G1 (current_gameweek G1 - 1))
    as [before|] eqn:Hbefore; [|done].
  cbn in Hprev. injection Hprev as <-.
  exists before. rewrite Hmp. repeat split; [done..|].
  intros t' row Ht' Hin. rewrite <- Htab, Ht' in Ht.
  erewrite row_change_of_row; [|  |exact Ht|exact Hin]; [done|].
  destruct (calculate_manager_points_cases G1 r Hwf1 Hr)
    as [(? & _)|(_ & _ & _ & Hpp & Hmpr)]; [done|].
  rewrite Hmpr, mp_shape_keys, Hpp, pp_shape_keys. apply Hwf.
Qed.

Lemma weekly_loop_points G pp managers : forall ws ws',
  for_each managers (weekly_body G pp) ws = Ok ws' ->
  (forall m, m ∈ managers -> dict_get (ws_weekly_points ws') m = Some (weekly_of G pp m))
  /\ (forall m, m ∉ managers ->
        dict_get (ws_weekly_points ws') m = dict_get (ws_weekly_points ws) m)
  /\ (ws_weekly_points_manager ws', ws_highest_weekly_points ws')
     = foldl take_lead (ws_weekly_points_manager ws, ws_highest_weekly_points ws)
             (map (fun m => (m, weekly_of G pp m)) managers).
Proof.
  induction managers as [|m0 managers IH]; intros ws ws' Hrun.
  - simpl in Hrun. injection Hrun as <-. split; [|done].
    intros m Hin. by apply elem_of_nil in Hin.
  - cbn [for_each] in Hrun. unfold weekly_body at 1 in Hrun.
    apply IH in Hrun as (Hin & Hout & Hlead).
    cbn [ws_weekly_points ws_weekly_points_manager ws_highest_weekly_points]
      in Hout, Hlead.
    split; [|split].
    + intros m Hm. destruct (decide (m ∈ managers)) as [Hm'|Hm'].
      * by apply Hin.
      * rewrite Hout by done. apply elem_of_cons in Hm as [->|?]; [|done].
        by rewrite dict_get_set_eq.
    + intros m Hm. rewrite Hout.
      * rewrite dict_get_set_ne; [done|]. intros ->. apply Hm. left.
      * intros ?. apply Hm. by right.
    + rewrite Hlead. cbn [map foldl]. f_equal.
      unfold take_lead, weekly_of. cbn [fst snd].
      rewrite (bool_decide_ext (_ > _) (ws_highest_weekly_points ws
                 < (calculate_recent_gameweek_points G m0 pp).1)) by lia.
      repeat case_bool_decide; done || lia.
Qed.

Lemma row_loop_closed G pp prev weekly diffr top items : forall acc res,
  Forall (fun item => dict_get weekly item.2.1 = Some (weekly_of G pp item.2.1))
         items ->
  for_each items (row_body G prev weekly diffr top) acc = Ok res ->
  res.2 = acc.2 ++ rows_from G pp prev diffr top acc.1 items.
Proof.
  induction items as [|[position [manager points]] items IH];
    intros acc res Hweekly Hrun.
  - simpl in Hrun. injection Hrun as <-. simpl. by rewrite app_nil_r.
  - apply Forall_cons in Hweekly as [Hw Hweekly]. cbn [fst snd] in Hw.
    cbn [for_each] in Hrun. unfold row_body at 1 in Hrun.
    unfold getitem_str in Hrun. cbn [fst snd] in Hrun. rewrite Hw in Hrun.
    cbn [mbind res_bind] in Hrun.
    destruct (phase1_squad_performance G manager) as [perf|] eqn:Hperf;
      cbn [mbind res_bind] in Hrun; [|done].
    destruct (dict_get diffr manager) as [dr|] eqn:Hdr;
      cbn [mbind res_bind mret res_ret] in Hrun; [|done].
    apply IH in Hrun; [|done]. cbn [fst snd] in Hrun.
    rewrite Hrun, <- app_assoc. cbn [rows_from app]. rewrite Hdr.
    apply phase1_squad_performance_closed in Hperf. by subst perf.
Qed.

Lemma generate_league_table_closed G mp pp t :
  generate_league_table G mp pp = Ok (Some t) ->
  exists top rest diffs highest,
    sorted_desc (fun x => total x.2) mp = top :: rest
    /\ for_each mp (phase1_diffs_body G) [] = Ok diffs
    /\ rows t
       = rows_from G pp (default [] (snap_standings (previous_standings G)))
           (assign_positions (sorted_desc (fun x => x.2) diffs))
           (total top.2) (total top.2) (enumerate 1 (top :: rest))
    /\ leader (map (fun m => (m, weekly_of G pp m)) (dict_keys mp))
       = (weekly_points_manager t, highest).
Proof.
  intros Hrun. unfold generate_league_table in Hrun.
  destruct (sorted_desc (fun x => total x.2) mp) as [|top rest] eqn:Hsorted;
    [done|].
  apply bind_Ok_inv in Hrun as (diffs & Hdiffs & Hrun).
  apply bind_Ok_inv in Hrun as (ws & Hws & Hrun).
  apply weekly_loop_points in Hws as (Hweekly & _ & Hlead).
  apply bind_Ok_inv in Hrun as (acc & Hrows & Hrun).
  apply (row_loop_closed G pp) in Hrows.
  - injection Hrun as <-. cbn [rows weekly_points_manager].
    exists top, rest, diffs, (ws_highest_weekly_points ws).
    rewrite Hrows. by repeat split.
  - apply Forall_forall. intros [pos [m e]] Hin. cbn [fst snd].
    apply Hweekly. apply enumerate_elem in Hin. rewrite <- Hsorted in Hin.
    rewrite sorted_desc_perm in Hin.
    apply list_elem_of_fmap. by exists (m, e).
Qed.

Lemma foldl_take_lead cands : forall who high who' high',
  foldl take_lead (who, high) cands = (who', high') ->
  high ≤ high'
  /\ Forall (fun c => c.2 ≤ high') cands
  /\ ((who' = who /\ high' = high)
      \/ exists i m,
           cands !! i = Some (m, high') /\ who' = Some m /\ high < high'
           /\ forall j c, (j < i)%nat -> cands !! j = Some c -> c.2 < high').
Proof.
  induction cands as [|[m0 pts] cands IH]; intros who high who' high' Hrun.
  - simpl in Hrun. injection Hrun as <- <-. split; [lia|]. split; [done|].
    by left.
  - cbn [foldl] in Hrun. unfold take_lead at 2 in Hrun. cbn [fst snd] in Hrun.
    case_bool_decide as Hlt.
    + apply IH in Hrun as (Hle & Hall & Hwho). split; [lia|].
      split; [constructor; [done|done]|]. right.
      destruct Hwho as [(-> & ->)|(i & m & Hi & -> & Hlt' & Hbefore)].
      * exists 0%nat, m0. repeat split; [done..|]. intros j c Hj. lia.
      * exists (S i), m. repeat split; [done|lia|].
        intros [|j] c Hj Hc; simpl in Hc.
        -- injection Hc as <-. simpl. lia.
        -- apply (Hbefore j); [lia|done].
    + apply IH in Hrun as (Hle & Hall & Hwho). split; [done|].
      split; [constructor; [simpl; lia|done]|].
      destruct Hwho as [(-> & ->)|(i & m & Hi & -> & Hlt' & Hbefore)];
        [by left|right].
      exists (S i), m. repeat split; [done..|].
      intros [|j] c Hj Hc; simpl in Hc.
      * injection Hc as <-. simpl. lia.
      * apply (Hbefore j); [lia|done].
Qed.

(** The table shows for every manager the points of the most recent
    gameweek, and marks the manager who scored the most of them: the first
    one, in the order of the score mapping, with the highest points, and
    nobody when no manager scored more than 0. *)
Theorem weekly_leader_is_the_first_best G mp pp t :
  generate_league_table G mp pp = Ok (Some t) ->
  (forall row, row ∈ rows t -> row_weekly row = weekly_of G pp (row_manager row))
  /\ match weekly_points_manager t with
     | None => forall m, m ∈ dict_keys mp -> weekly_of G pp m ≤ 0
     | Some best =>
         0 < weekly_of G pp best
         /\ (forall m, m ∈ dict_keys mp -> weekly_of G pp m ≤ weekly_of G pp best)
         /\ exists i,
              dict_keys mp !! i = Some best
              /\ forall j m, (j < i)%nat -> dict_keys mp !! j = Some m ->
                             weekly_of G pp m < weekly_of G pp best
     end.
Proof.
  intros Hrun.
  destruct (generate_league_table_closed G mp pp t Hrun)
    as (top & rest & diffs & highest & _ & _ & Hrows & Hlead).
  split.
  - intros row. rewrite Hrows. generalize (total top.2) at 2.
    generalize (enumerate 1 (top :: rest)).
    induction l as [|[pos [m e]] l IH]; intros prev Hin; simpl in Hin.
    + by apply elem_of_nil in Hin.
    + apply elem_of_cons in Hin as [->|Hin]; [done|]. by eapply IH.
  - apply foldl_take_lead in Hlead as (Hle & Hall & Hwho).
    assert (forall m, m ∈ dict_keys mp -> weekly_of G pp m ≤ highest) as Hmax.
    { intros m Hm. rewrite Forall_forall in Hall.
      apply (Hall (m, weekly_of G pp m)). apply list_elem_of_fmap. by exists m. }
    destruct Hwho as [(-> & ->)|(i & m & Hi & -> & Hlt & Hbefore)]; [done|].
    rewrite list_lookup_fmap in Hi.
    destruct (dict_keys mp !! i) as [m'|] eqn:Hm'; [|done].
    injection Hi as -> Hhigh. rewrite Hhigh. split; [done|]. split; [done|].
    exists i. split; [done|]. intros j m' Hj Hjm.
    apply (Hbefore j (m', weekly_of G pp m')); [done|].
    by rewrite list_lookup_fmap, Hjm.
Qed.

Lemma enumerate_fst {A} (l : list A) : forall start,
  map fst (enumerate start l) = seqZ start (Z.of_nat (length l)).
Proof.
  induction l as [|x l IH]; intros start; [done|].
  cbn [enumerate map length]. rewrite IH.
  rewrite Nat2Z.inj_succ, (seqZ_cons start) by lia. f_equal. f_equal; lia.
Qed.

Lemma enumerate_snd {A} (l : list A) : forall start,
  map snd (enumerate start l) = l.
Proof.
  induction l as [|x l IH]; intros start; [done|].
  cbn [enumerate map]. by rewrite IH.
Qed.

Section RowsFrom.
Context (G : globals) (pp : dict string (dict Z Z)).
Context (prev diffr : dict string Z) (top : Z).

Lemma rows_from_positions items : forall pts,
  map row_position (rows_from G pp prev diffr top pts items) = map fst items.
Proof.
  induction items as [|[pos [m e]] items IH]; intros pts; [done|].
  cbn [rows_from map row_position fst]. by rewrite IH.
Qed.

Lemma rows_from_totals items : forall pts,
  map row_total (rows_from G pp prev diffr top pts items)
  = map (fun item => total item.2.2) items.
Proof.
  induction items as [|[pos [m e]] items IH]; intros pts; [done|].
  cbn [rows_from map row_total fst snd]. by rewrite IH.
Qed.

Lemma rows_from_head items pts a :
  rows_from G pp prev diffr top pts items !! 0%nat = Some a ->
  row_gap_to_above a = pts - row_total a.
Proof.
  destruct items as [|[pos [m e]] items]; [done|].
  cbn [rows_from]. intros [= <-]. done.
Qed.

Lemma rows_from_next items : forall pts i a b,
  rows_from G pp prev diffr top pts items !! i = Some a ->
  rows_from G pp prev diffr top pts items !! S i = Some b ->
  row_gap_to_above b = row_total a - row_total b.
Proof.
  induction items as [|[pos [m e]] items IH]; intros pts i a b Ha Hb; [done|].
  cbn [rows_from] in Ha, Hb. destruct i as [|i].
  - injection Ha as <-. cbn [row_total]. simpl in Hb.
    by apply rows_from_head in Hb.
  - simpl in Ha, Hb. by eapply IH.
Qed.

Lemma rows_from_gap_to_top items : forall pts row,
  row ∈ rows_from G pp prev diffr top pts items ->
  row_gap_to_top row = top - row_total row.
Proof.
  induction items as [|[pos [m e]] items IH]; intros pts row Hin.
  - by apply elem_of_nil in Hin.
  - cbn [rows_from] in Hin. apply elem_of_cons in Hin as [->|Hin]; [done|].
    by eapply IH.
Qed.
End RowsFrom.

Lemma StronglySorted_lookup_le {A} (key : A -> Z) (l : list A) i j x y :
  StronglySorted (desc key) l ->
  l !! i = Some x -> l !! j = Some y -> (i < j)%nat -> key y ≤ key x.
Proof.
  intros Hs. revert i j. induction Hs as [|z l Hs IH Hall]; intros i j Hi Hj Hij.
  - done.
  - destruct j as [|j]; [lia|]. simpl in Hj. destruct i as [|i].
    + injection Hi as ->. rewrite Forall_forall in Hall.
      apply (Hall y). by eapply list_elem_of_lookup_2.
    + simpl in Hi. apply (IH i j); [done..|lia].
Qed.

(** The rows of the table come in the order of the positions 1 to N with
    totals that do not increase; the gap to the row above is the
    difference of the two totals, the gap to the top the difference to the
    total of the first row, never negative, and the sum of the gaps to the
    row above down to that row. *)
Theorem gaps_follow_the_totals G mp pp t :
  generate_league_table G mp pp = Ok (Some t) ->
  map row_position (rows t) = seqZ 1 (Z.of_nat (length mp))
  /\ (forall i a b,
         rows t !! i = Some a -> rows t !! S i = Some b ->
         row_total b ≤ row_total a
         /\ row_gap_to_above b = row_total a - row_total b)
  /\ exists top,
       rows t !! 0%nat = Some top
       /\ row_gap_to_above top = 0
       /\ forall i row,
            rows t !! i = Some row ->
            row_gap_to_top row = row_total top - row_total row
            /\ 0 ≤ row_gap_to_top row
            /\ row_gap_to_top row
               = sum (map row_gap_to_above (take (S i) (rows t))).
Proof.
  intros Hrun.
  destruct (generate_league_table_closed G mp pp t Hrun)
    as (top & rest & diffs & highest & Hsorted & _ & Hrows & _).
  set (prev := default [] (snap_standings (previous_standings G))) in *.
  set (diffr := assign_positions (sorted_desc (fun x => x.2) diffs)) in *.
  assert (map row_total (rows t)
          = map (fun x => total x.2) (sorted_desc (fun x => total x.2) mp))
    as Htotals.
  { rewrite Hrows, rows_from_totals, Hsorted.
    rewrite <- (enumerate_snd (top :: rest) 1) at 2. by rewrite map_map. }
  assert (forall i j a b, rows t !! i = Some a -> rows t !! j = Some b ->
                          (i < j)%nat -> row_total b ≤ row_total a) as Hdesc.
  { intros i j a b Ha Hb Hij.
    pose proof (sorted_desc_sorted (fun x : string * mp_entry => total x.2) mp)
      as Hs.
    assert (map row_total (rows t) !! i = Some (row_total a)) as Hia
      by (by rewrite list_lookup_fmap, Ha).
    assert (map row_total (rows t) !! j = Some (row_total b)) as Hjb
      by (by rewrite list_lookup_fmap, Hb).
    rewrite Htotals, list_lookup_fmap in Hia, Hjb.
    destruct (sorted_desc _ mp !! i) as [x|] eqn:Hx; [|done].
    destruct (sorted_desc _ mp !! j) as [y|] eqn:Hy; [|done].
    injection Hia as <-. injection Hjb as <-.
    by apply (StronglySorted_lookup_le _ _ i j x y Hs). }
  assert (forall i a b, rows t !! i = Some a -> rows t !! S i = Some b ->
                        row_gap_to_above b = row_total a - row_total b)
    as Hnext.
  { intros i a b. rewrite Hrows. apply rows_from_next. }
  split; [|split].
  - rewrite Hrows, rows_from_positions, enumerate_fst, <- Hsorted.
    by rewrite (Permutation_length (sorted_desc_perm _ mp)).
  - intros i a b Ha Hb. split; [|by eapply Hnext].
    apply (Hdesc i (S i)); [done..|lia].
  - destruct (rows t) as [|first others].
    { destruct top as [m e]. done. }
    exists first. split; [done|].
    assert (row_total first = total top.2) as Hfirst.
    { destruct top as [m e]. cbn [enumerate rows_from] in Hrows.
      by injection Hrows as -> _. }
    assert (row_gap_to_above first = 0) as Hzero.
    { assert ((first :: others) !! 0%nat = Some first) as H0 by done.
      rewrite Hrows in H0. apply rows_from_head in H0. lia. }
    split; [done|].
    assert (forall row, row ∈ first :: others ->
                        row_gap_to_top row = row_total first - row_total row)
      as Htop.
    { intros row Hin. rewrite Hrows in Hin.
      apply rows_from_gap_to_top in Hin. lia. }
    intros i row Hi.
    assert (row_gap_to_top row = row_total first - row_total row) as Hgap
      by (apply Htop; by eapply list_elem_of_lookup_2).
    split; [done|]. split.
    + rewrite Hgap. destruct i as [|i]; [injection Hi as ->; lia|].
      enough (row_total row ≤ row_total first) by lia.
      apply (Hdesc 0%nat (S i)); [done..|lia].
    + rewrite Hgap. clear Hgap. revert row Hi.
      induction i as [|i IH]; intros row Hi.
      * injection Hi as <-. cbn [take map]. rewrite sum_cons.
        change (sum (map row_gap_to_above (take 0 others))) with 0. lia.
      * destruct ((first :: others) !! i) as [above|] eqn:Habove.
        2:{ apply lookup_ge_None in Habove. apply lookup_lt_Some in Hi. lia. }
        rewrite (take_S_r _ (S i) row) by done.
        rewrite map_app, sum_app. change (map row_gap_to_above [row])
          with [row_gap_to_above row]. rewrite sum_cons, sum_nil.
        rewrite <- (IH above eq_refl).
        rewrite (Hnext i above row); [lia|done..].
Qed.

Lemma dict_values_lookup {V} (d : dict string V) (dflt : V) :
  NoDup (dict_keys d) ->
  map (fun k => default dflt (dict_get d k)) (dict_keys d) = dict_values d.
Proof.
  unfold dict_keys, dict_values.
  induction d as [|[k v] d IH]; intros Hnd; [done|].
  apply NoDup_cons in Hnd as [Hk Hnd].
  cbn [map fst snd dict_get].
  rewrite decide_True by done. cbn [default]. f_equal.
  rewrite <- IH by done. apply map_ext_in. intros k' Hin.
  rewrite decide_False; [done|]. intros ->. apply Hk.
  by apply list_elem_of_In.
Qed.

Lemma rows_from_diff_ranks G pp prev diffr top items : forall pts,
  map row_diff_rank (rows_from G pp prev diffr top pts items)
  = map (fun m => default 0 (dict_get diffr m)) (map (fun item => item.2.1) items).
Proof.
  induction items as [|[pos [m e]] items IH]; intros pts; [done|].
  cbn [rows_from map row_diff_rank fst snd]. by rewrite IH.
Qed.

(** The "WD Pos" column is a ranking: the ranks are 1 to N, each given to
    one manager, and of two managers with the same "WD" figure the one
    that comes first in the score mapping has the better rank. *)
Theorem diff_ranks_are_a_ranking G mp pp t :
  NoDup (dict_keys mp) ->
  generate_league_table G mp pp = Ok (Some t) ->
  map row_diff_rank (rows t) ≡ₚ seqZ 1 (Z.of_nat (length mp))
  /\ forall a b i j,
       a ∈ rows t -> b ∈ rows t ->
       dict_keys mp !! i = Some (row_manager a) ->
       dict_keys mp !! j = Some (row_manager b) ->
       (i < j)%nat ->
       row_diff_from_phase1 a = row_diff_from_phase1 b ->
       row_diff_rank a < row_diff_rank b.
Proof.
  intros Hnd Hrun.
  set (D := phase1_diffs_of G mp).
  set (S := sorted_desc (fun x : string * Z => x.2) D).
  assert (NoDup (dict_keys D)) as HndD
    by (unfold D; by rewrite phase1_diffs_of_keys).
  assert (NoDup (dict_keys S)) as HndS
    by (unfold S; by rewrite sorted_desc_keys).
  assert (assign_positions S = positions 1 S) as Hpos
    by (by apply assign_positions_eq).
  split.
  - destruct (generate_league_table_closed G mp pp t Hrun)
      as (top & rest & diffs & highest & Hsorted & Hdiffs & Hrows & _).
    apply phase1_diffs_loop in Hdiffs; [|done]. rewrite app_nil_l in Hdiffs.
    subst diffs. fold D S in Hrows. rewrite Hpos in Hrows.
    rewrite Hrows, rows_from_diff_ranks, enumerate_managers, <- Hsorted.
    rewrite sorted_desc_keys.
    assert (dict_keys mp ≡ₚ dict_keys (positions 1 S)) as Hperm.
    { rewrite positions_keys. unfold S. rewrite sorted_desc_keys. unfold D.
      by rewrite phase1_diffs_of_keys. }
    rewrite Hperm.
    rewrite dict_values_lookup by (by rewrite positions_keys).
    rewrite positions_values. unfold S.
    rewrite (Permutation_length (sorted_desc_perm _ D)). unfold D, phase1_diffs_of.
    by rewrite length_map.
  - intros a b i j Ha Hb Hi Hj Hij Heq.
    destruct (row_entry G mp pp t a Hnd Hrun Ha) as (ea & Hea & _ & Hda & Hra & _).
    destruct (row_entry G mp pp t b Hnd Hrun Hb) as (eb & Heb & _ & Hdb & Hrb & _).
    fold D S in Hra, Hrb. rewrite Hpos in Hra, Hrb.
    assert (forall k row e, dict_keys mp !! k = Some (row_manager row) ->
                            (row_manager row, e) ∈ mp ->
                            row_diff_from_phase1 row
                            = total e - original_squad_score G (row_manager row) ->
                            D !! k = Some (row_manager row, row_diff_from_phase1 row))
      as Hlookup.
    { intros k row e Hk He Hd. unfold dict_keys in Hk.
      rewrite list_lookup_fmap in Hk.
      destruct (mp !! k) as [[m' e']|] eqn:Hmp; [|done].
      injection Hk as ->.
      assert (e' = e) as ->.
      { apply list_elem_of_lookup_2 in Hmp.
        apply (dict_get_elem _ _ _ Hnd) in Hmp, He. congruence. }
      unfold D, phase1_diffs_of. rewrite list_lookup_fmap, Hmp. simpl.
      by rewrite Hd. }
    pose proof (Hlookup i a ea Hi Hea Hda) as Hxa.
    pose proof (Hlookup j b eb Hj Heb Hdb) as Hyb.
    pose proof (lookup_sublist D i j _ _ Hxa Hyb Hij) as Hsub.
    apply (sorted_desc_stable (fun x : string * Z => x.2)) in Hsub;
      [|simpl; lia].
    by apply (positions_order S 1 _ _ _ _ HndS Hsub).
Qed.

(** ** A score mapping with a manager that the roster lacks *)

Lemma for_each_app {A S} (l1 l2 : list A) (body : A -> S -> res S) (s : S) :
  for_each (l1 ++ l2) body s = for_each l1 body s ≫= for_each l2 body.
Proof.
  revert s. induction l1 as [|x l1 IH]; intros s; [done|].
  cbn [app for_each]. destruct (body x s); [apply IH | done].
Qed.

Lemma phase1_squad_performance_raises G m :
  dict_get (manager_squads G) m = None ->
  (exists gw, 1 ≤ gw ≤ current_gameweek G /\ is_Some (gameweek_data G !! gw)) ->
  phase1_squad_performance G m = Raise (KeyError (KStr m)).
Proof.
  intros Hm (gw & Hgw & Hdata). unfold phase1_squad_performance, getitem_str.
  rewrite Hm. cbn [mbind res_bind].
  assert (gw ∈ range 1 (current_gameweek G + 1)) as Hin
    by (apply range_elem; lia).
  generalize 0.
  induction (range 1 (current_gameweek G + 1)) as [|g gws IH]; intros acc.
  - by apply elem_of_nil in Hin.
  - cbn [for_each]. destruct (gameweek_data G !! g) as [scores|] eqn:Hg; [done|].
    apply IH. apply elem_of_cons in Hin as [->|Hin]; [|done].
    rewrite Hg in Hdata. by destruct Hdata.
Qed.

(** [generate_league_table] looks every manager of the score mapping up in
    [manager_squads]: once some gameweek up to the current one has data,
    the first manager of the mapping that the roster lacks raises
    [KeyError]. *)
Theorem league_table_needs_the_rosters G ahead m e todo pp :
  Forall (fun item => is_Some (dict_get (manager_squads G) item.1)) ahead ->
  dict_get (manager_squads G) m = None ->
  (exists gw, 1 ≤ gw ≤ current_gameweek G /\ is_Some (gameweek_data G !! gw)) ->
  generate_league_table G (ahead ++ (m, e) :: todo) pp
  = Raise (KeyError (KStr m)).
Proof.
  intros Hahead Hm Hdata. unfold generate_league_table.
  destruct (sorted_desc _ (ahead ++ (m, e) :: todo)) as [|top rest] eqn:Hsorted.
  { apply sorted_desc_nil_inv in Hsorted. by destruct ahead. }
  rewrite for_each_app.
  destruct (phase1_diffs_ok G ahead [] Hahead) as [diffs ->].
  cbn [mbind res_bind for_each]. unfold phase1_diffs_body at 1. cbn [fst snd].
  by rewrite phase1_squad_performance_raises.
Qed.

(** ** The standings of two consecutive gameweeks *)

Lemma raw_phase_total_filter_ext G (P Q : Z -> Prop)
    `{forall gw, Decision (P gw)} `{forall gw, Decision (Q gw)} gws ids :
  (forall gw, gw ∈ gws -> ¬ (P gw <-> Q gw) -> gameweek_data G !! gw = None) ->
  raw_phase_total G (filter P gws) ids = raw_phase_total G (filter Q gws) ids.
Proof.
  unfold raw_phase_total. induction gws as [|gw gws IH]; intros Hout; [done|].
  rewrite !filter_cons.
  assert (forall gw', gw' ∈ gws -> ¬ (P gw' <-> Q gw') ->
                      gameweek_data G !! gw' = None)
    as Hout' by (intros gw' Hin; apply Hout; by right).
  specialize (IH Hout').
  destruct (decide (P gw)) as [Hp|Hp], (decide (Q gw)) as [Hq|Hq];
    cbn [map]; rewrite ?sum_cons, IH; try done.
  - rewrite squad_points_None; [lia|]. apply Hout; [left | tauto].
  - rewrite squad_points_None; [lia|]. apply Hout; [left | tauto].
Qed.

Lemma cutoff_without_data G c1 c2 :
  wf_squads (manager_squads G) -> phases_known G ->
  (forall gw, ¬ (gw ≤ c1 <-> gw ≤ c2) -> gameweek_data G !! gw = None) ->
  calculate_points_up_to_gameweek G c1 = calculate_points_up_to_gameweek G c2.
Proof.
  intros Hwf Hkn Hdata.
  rewrite !calculate_points_up_to_gameweek_closed by done.
  do 2 f_equal. apply pp_shape_ext. intros m phases k ids _ _.
  unfold upto_phase_total. f_equal.
  apply raw_phase_total_filter_ext. intros gw _. apply Hdata.
Qed.

Lemma standings_of_keys mp :
  NoDup (dict_keys mp) -> dict_keys (standings_of mp) ≡ₚ dict_keys mp.
Proof.
  intros Hnd. destruct (standings_of_positions mp Hnd) as [-> _].
  by rewrite positions_keys, sorted_desc_keys.
Qed.

Lemma standings_of_values mp :
  NoDup (dict_keys mp) ->
  dict_values (standings_of mp) = seqZ 1 (Z.of_nat (length mp)).
Proof.
  intros Hnd. destruct (standings_of_positions mp Hnd) as [-> _].
  by rewrite positions_values, (Permutation_length (sorted_desc_perm _ mp)).
Qed.

(** [calculate_position_changes] ranks nobody up to the first gameweek.
    Past it, both standings rank every manager of the roster, 1 to N, the
    one on the totals up to the gameweek, the other on the totals up to
    the gameweek before; with no data for the gameweek the two are the
    same. *)
Theorem position_changes_rank_the_roster G current_gw :
  (current_gw ≤ 1 ->
   calculate_position_changes G current_gw
   = Ok ({| snap_gameweek := Some current_gw; snap_standings := Some [] |},
         {| snap_gameweek := Some 0; snap_standings := Some [] |}))
  /\ (wf_squads (manager_squads G) -> phases_known G -> 1 < current_gw ->
      exists now before,
        calculate_position_changes G current_gw
        = Ok ({| snap_gameweek := Some current_gw;
                 snap_standings := Some now |},
              {| snap_gameweek := Some (current_gw - 1);
                 snap_standings := Some before |})
        /\ dict_keys now ≡ₚ dict_keys (manager_squads G)
        /\ dict_keys before ≡ₚ dict_keys (manager_squads G)
        /\ dict_values now = seqZ 1 (Z.of_nat (length (manager_squads G)))
        /\ dict_values before = seqZ 1 (Z.of_nat (length (manager_squads G)))
        /\ (gameweek_data G !! current_gw = None -> now = before)).
Proof.
  split.
  - intros Hgw. unfold calculate_position_changes.
    by rewrite bool_decide_eq_true_2.
  - intros Hwf Hkn Hgw. unfold calculate_position_changes.
    rewrite bool_decide_eq_false_2 by lia.
    rewrite !calculate_points_up_to_gameweek_closed by done.
    cbn [mbind res_bind mret res_ret].
    set (mp1 := mp_shape (pp_shape (upto_phase_total G current_gw) _)).
    set (mp0 := mp_shape (pp_shape (upto_phase_total G (current_gw - 1)) _)).
    assert (forall f, NoDup (dict_keys (mp_shape (pp_shape f (manager_squads G)))))
      as Hnd by (intros f; rewrite mp_shape_keys, pp_shape_keys; apply Hwf).
    assert (forall f, length (mp_shape (pp_shape f (manager_squads G)))
                      = length (manager_squads G)) as Hlen
      by (intros f; unfold mp_shape, pp_shape; by rewrite !length_map).
    exists (standings_of mp1), (standings_of mp0). split; [done|].
    repeat split.
    + rewrite standings_of_keys by apply Hnd.
      unfold mp1. by rewrite mp_shape_keys, pp_shape_keys.
    + rewrite standings_of_keys by apply Hnd.
      unfold mp0. by rewrite mp_shape_keys, pp_shape_keys.
    + rewrite standings_of_values by apply Hnd. unfold mp1. by rewrite Hlen.
    + rewrite standings_of_values by apply Hnd. unfold mp0. by rewrite Hlen.
    + intros Hdata. f_equal.
      pose proof (cutoff_without_data G current_gw (current_gw - 1) Hwf Hkn)
        as Heq.
      rewrite !calculate_points_up_to_gameweek_closed in Heq by done.
      enough (Ok mp1 = Ok mp0) as Hinj by (by injection Hinj).
      apply Heq. intros gw Hgw'.
      assert (gw = current_gw) as -> by lia. done.
Qed.

(** ** The saved standings *)

Lemma calculate_manager_points_baseline G data gw prev prev' :
  calculate_manager_points (with_run_state G data gw prev)
  = calculate_manager_points (with_run_state G data gw prev').
Proof. reflexivity. Qed.

Lemma position_change_same standings m position :
  dict_get standings m = Some position ->
  position_change standings m position = UNCHANGED.
Proof.
  intros Hm. unfold position_change. rewrite Hm.
  rewrite !bool_decide_eq_false_2; [done|lia..].
Qed.

Lemma main_table_keys json_load shuffle fetch test_mode file G run :
  wf_squads (manager_squads G) ->
  main json_load shuffle fetch test_mode file G = Ok (Some run) ->
  NoDup (dict_keys (run_manager_points run))
  /\ (length (run_manager_points run) ≤ length (manager_squads G))%nat.
Proof.
  intros Hwf Hrun.
  destruct (main_inv _ _ _ _ _ _ _ Hrun)
    as (loaded & _ & r & prev & t & Hr & _ & _ & _ & -> & _).
  destruct (calculate_manager_points_cases
              (loaded_globals fetch G loaded.1) r Hwf Hr)
    as [(-> & _)|(_ & _ & _ & Hpp & ->)].
  - split; [constructor | simpl; lia].
  - rewrite mp_shape_keys, Hpp, pp_shape_keys. split; [apply Hwf|].
    unfold mp_shape, pp_shape. by rewrite !length_map.
Qed.

Lemma main_saved json_load shuffle fetch test_mode file G run :
  main json_load shuffle fetch test_mode file G = Ok (Some run) ->
  run_saved run
  = {| snap_gameweek := Some (current_gameweek (run_globals run));
       snap_standings := Some (standings_of (run_manager_points run)) |}.
Proof.
  intros Hrun. unfold main in Hrun.
  destruct (is_empty_dict (manager_squads G)); [done|].
  apply bind_Ok_inv in Hrun as (loaded & _ & Hrun). cbv zeta in Hrun.
  apply bind_Ok_inv in Hrun as (r & _ & Hrun).
  apply bind_Ok_inv in Hrun as (prev & _ & Hrun).
  apply bind_Ok_inv in Hrun as (t & _ & Hrun).
  injection Hrun as <-. done.
Qed.

Lemma main_intro json_load shuffle fetch test_mode file G loaded r prev t :
  manager_squads G ≠ [] ->
  standings_before json_load shuffle test_mode file G = Ok loaded ->
  calculate_manager_points (loaded_globals fetch G loaded.1) = Ok r ->
  baseline test_mode (loaded_globals fetch G loaded.1) = Ok prev ->
  generate_league_table
    (with_run_state (loaded_globals fetch G loaded.1)
       (gameweek_data (loaded_globals fetch G loaded.1))
       (current_gameweek (loaded_globals fetch G loaded.1)) prev)
    (manager_points r) (phase_points r) = Ok t ->
  exists run,
    main json_load shuffle fetch test_mode file G = Ok (Some run)
    /\ previous_standings (run_globals run) = prev
    /\ run_manager_points run = manager_points r
    /\ run_table run = t.
Proof.
  intros Hsq Hloaded Hr Hprev Ht. unfold main.
  destruct (manager_squads G) eqn:Esq; [done|]. cbn [is_empty_dict].
  rewrite Hloaded. cbn [mbind res_bind]. cbv zeta.
  rewrite Hr. cbn [mbind res_bind]. rewrite Hprev. cbn [mbind res_bind].
  rewrite Ht. cbn [mbind res_bind]. eexists. split; [reflexivity|]. done.
Qed.

(** What a run saves is the ranking that its table shows, with the
    gameweek of the run.  When the file then holds what was saved, a
    [--test-movement] run over the same squads and gameweeks that does not
    swap (fewer than four managers are ranked) completes, takes what was
    saved as its baseline and reports every manager unchanged. *)
Theorem saved_standings_round_trip :
  (forall json_load shuffle fetch test_mode file G run,
      wf_squads (manager_squads G) ->
      main json_load shuffle fetch test_mode file G = Ok (Some run) ->
      run_saved run
      = {| snap_gameweek := Some (current_gameweek (run_globals run));
           snap_standings := Some (standings_of (run_manager_points run)) |}
      /\ forall t row,
           run_table run = Some t -> row ∈ rows t ->
           snap_standings (run_saved run)
             ≫= (fun standings => dict_get standings (row_manager row))
           = Some (row_position row))
  /\ (forall json_load shuffle fetch test_mode file G run text,
         wf_squads (manager_squads G) ->
         main json_load shuffle fetch test_mode file G = Ok (Some run) ->
         json_load text = Some (run_saved run) ->
         (length (manager_squads G) < 4)%nat ->
         exists run',
           main json_load shuffle fetch true (Contents text) G
           = Ok (Some run')
           /\ previous_standings (run_globals run') = run_saved run
           /\ run_manager_points run' = run_manager_points run
           /\ forall t row,
                run_table run' = Some t -> row ∈ rows t ->
                row_change row = UNCHANGED).
Proof.
  assert (forall json_load shuffle fetch test_mode file G run G' tab row,
             wf_squads (manager_squads G) ->
             main json_load shuffle fetch test_mode file G = Ok (Some run) ->
             generate_league_table G' (run_manager_points run)
                                   (run_phase_points run) = Ok (Some tab) ->
             row ∈ rows tab ->
             dict_get (standings_of (run_manager_points run)) (row_manager row)
             = Some (row_position row)) as Hpos.
  { intros json_load shuffle fetch test_mode file G run G' tab row Hwf Hrun
           Htab Hin.
    destruct (main_table_keys _ _ _ _ _ _ _ Hwf Hrun) as [Hnd _].
    by destruct (row_entry G' _ _ tab row Hnd Htab Hin)
      as (_ & _ & _ & _ & _ & ?). }
  split.
  - intros json_load shuffle fetch test_mode file G run Hwf Hrun.
    pose proof (main_saved _ _ _ _ _ _ _ Hrun) as Hsaved.
    split; [done|]. intros t row Htab Hin.
    rewrite Hsaved. cbn [snap_standings mbind option_bind].
    destruct (main_inv _ _ _ _ _ _ _ Hrun)
      as (loaded & _ & r & prev & t0 & _ & _ & _ & Ht & Hmp & Hpp & Htab0 & _).
    rewrite <- Htab0, Htab, <- Hmp, <- Hpp in Ht.
    by apply (Hpos _ _ _ _ _ _ _ _ _ _ Hwf Hrun Ht).
  - intros json_load shuffle fetch test_mode file G run text Hwf Hrun Hjson
           Hlen.
    pose proof (main_saved _ _ _ _ _ _ _ Hrun) as Hsaved.
    pose proof (main_squads_nonempty _ _ _ _ _ _ _ Hrun) as Hsq.
    destruct (main_table_keys _ _ _ _ _ _ _ Hwf Hrun) as [Hnd Hshort].
    destruct (main_inv _ _ _ _ _ _ _ Hrun)
      as (loaded & _ & r & prev & t & Hr & _ & _ & Ht & Hmp & Hpp & _).
    assert (standings_before json_load shuffle true (Contents text) G
            = Ok (run_saved run, [])) as Hloaded.
    { cbn [standings_before load_previous_standings]. rewrite Hjson.
      cbn [mbind res_bind mret res_ret fst snd]. do 2 f_equal.
      unfold test_mode_standings. rewrite Hsaved at 1. cbn [snap_standings].
      rewrite bool_decide_eq_false_2; [done|].
      destruct (standings_of_positions _ Hnd) as [-> _].
      unfold positions. rewrite length_map.
      assert (forall {A} (l : list A) s, length (enumerate s l) = length l)
        as Henum.
      { intros A l. induction l as [|x l IH]; intros s; simpl; [done|].
        by rewrite IH. }
      rewrite Henum, (Permutation_length (sorted_desc_perm _ _)). lia. }
    set (G1' := loaded_globals fetch G (run_saved run)).
    assert (calculate_manager_points G1' = Ok r) as Hr' by exact Hr.
    assert (exists t',
               generate_league_table
                 (with_run_state G1' (gameweek_data G1')
                                 (current_gameweek G1') (run_saved run))
                 (manager_points r) (phase_points r) = Ok t') as [t' Ht'].
    { destruct (calculate_manager_points_cases
                  (loaded_globals fetch G loaded.1) r Hwf Hr)
        as [(Hnil & _)|(_ & _ & _ & Hshape & Hmpr)].
      - rewrite Hnil. by eexists.
      - destruct (generate_league_table_total
                    (with_run_state G1' (gameweek_data G1')
                                    (current_gameweek G1') (run_saved run))
                    (manager_points r) (phase_points r)) as [tab Htab].
        + by rewrite <- Hmp.
        + rewrite Hmpr, Hshape. intros Hnil.
          apply (f_equal dict_keys) in Hnil.
          rewrite mp_shape_keys, pp_shape_keys in Hnil.
          change (manager_squads (loaded_globals fetch G loaded.1))
            with (manager_squads G) in Hnil.
          by destruct (manager_squads G).
        + apply Forall_forall. intros [m e] Hin. cbn [fst].
          assert (m ∈ dict_keys (manager_points r)) as Hm.
          { apply list_elem_of_fmap. by exists (m, e). }
          rewrite Hmpr, mp_shape_keys, Hshape, pp_shape_keys in Hm.
          change (manager_squads (loaded_globals fetch G loaded.1))
            with (manager_squads G) in Hm.
          change (manager_squads (with_run_state G1' _ _ _))
            with (manager_squads G).
          destruct (dict_get (manager_squads G) m) eqn:E; [by eexists|].
          by apply dict_get_None in E.
        + by exists (Some tab). }
    destruct (main_intro json_load shuffle fetch true (Contents text) G
                (run_saved run, []) r (run_saved run) t' Hsq Hloaded Hr'
                eq_refl Ht')
      as (run' & Hrun' & Hprev' & Hmp' & Htab').
    exists run'. split; [done|]. split; [done|].
    split; [by rewrite Hmp', Hmp|].
    intros tab row Htab Hin. rewrite Htab in Htab'. subst t'.
    erewrite row_change_of_row; [| |exact Ht'|exact Hin]; [|by rewrite <- Hmp].
    cbn [with_run_state previous_standings].
    rewrite Hsaved at 1. cbn [snap_standings default].
    apply position_change_same. rewrite <- Hmp, <- Hpp in Ht'.
    by apply (Hpos _ _ _ _ _ _ _ _ _ _ Hwf Hrun Ht').
Qed.

Lemma players_loop_snd G gw scores ids out :
  (players_loop G gw scores ids out).2
  = out ++ if bool_decide (gw = current_gameweek G)
           then map (fun p => NoPointsFor p gw)
                    (filter (fun p => scores !! p = None) ids)
           else [].
Proof.
  unfold players_loop.
  assert (forall acc : Z * list diag,
             (foldl (fun acc player_id =>
                       match scores !! player_id with
                       | Some pts => (acc.1 + pts, acc.2)
                       | None =>
                           if bool_decide (gw = current_gameweek G)
                           then (acc.1, acc.2 ++ [NoPointsFor player_id gw])
                           else acc
                       end) acc ids).2
             = acc.2 ++ if bool_decide (gw = current_gameweek G)
                        then map (fun p => NoPointsFor p gw)
                                 (filter (fun p => scores !! p = None) ids)
                        else []) as Hfold.
  { induction ids as [|p ids IH]; intros acc.
    - cbn [foldl filter list_filter map]. case_bool_decide; by rewrite app_nil_r.
    - cbn [foldl]. rewrite IH, filter_cons.
      destruct (scores !! p) as [pts|] eqn:Hp.
      + rewrite decide_False by (by intros ?). done.
      + rewrite decide_True by done. case_bool_decide; [|done].
        cbn [snd map]. by rewrite <- app_assoc. }
  apply (Hfold (0, out)).
Qed.

Section Report.
Context (G : globals).

Lemma report_after_nil st : report_after G [] st st.
Proof.
  unfold report_after. destruct (gameweek_data G !! _); [|done].
  cbn [map foldl flat_map]. by rewrite app_nil_r.
Qed.

Lemma report_after_app es1 es2 st1 st2 st3 :
  report_after G es1 st1 st2 -> report_after G es2 st2 st3 ->
  report_after G (es1 ++ es2) st1 st3.
Proof.
  unfold report_after. destruct (gameweek_data G !! _).
  - intros [H1 P1] [H2 P2]. rewrite map_app, foldl_app, <- H1, H2.
    split; [done|]. by rewrite P2, P1, flat_map_app, app_assoc.
  - intros (-> & -> & ->) (-> & -> & ->). done.
Qed.

Lemma report_after_same es st1 st2 st2' :
  st_highest_gameweek_manager st2' = st_highest_gameweek_manager st2 ->
  st_highest_gameweek_points st2' = st_highest_gameweek_points st2 ->
  st_printed st2' = st_printed st2 ->
  report_after G es st2 st1 -> report_after G es st2' st1.
Proof. unfold report_after. by intros -> -> ->. Qed.

Lemma gw_body_report m k ids gw st st' :
  gw_body G m k ids gw st = Ok st' ->
  report_after G (current_entries_of G m ids [gw]) st st'.
Proof.
  unfold gw_body, current_entries_of, report_after. rewrite filter_cons, filter_nil.
  destruct (gameweek_data G !! gw) as [scores|] eqn:Hgw.
  - intros Hrun. apply bind_Ok_inv in Hrun as (pp & _ & Hrun).
    injection Hrun as <-.
    cbn [st_highest_gameweek_manager st_highest_gameweek_points st_printed].
    rewrite players_loop_snd, players_loop_fst.
    rewrite <- (squad_points_Some G gw scores ids Hgw).
    destruct (decide (gw = current_gameweek G)) as [->|Hne].
    + rewrite Hgw. rewrite !bool_decide_eq_true_2 by done.
      cbn [map foldl flat_map andb]. unfold take_lead, candidate, missing_scores.
      cbn [fst snd]. rewrite app_nil_r. split; [|reflexivity].
      repeat case_bool_decide; done || lia.
    + rewrite !bool_decide_eq_false_2 by done. cbn [andb map foldl flat_map].
      rewrite app_nil_r.
      destruct (gameweek_data G !! current_gameweek G); by repeat split.
  - intros [= <-]. destruct (decide (gw = current_gameweek G)) as [->|Hne].
    + by rewrite Hgw.
    + destruct (gameweek_data G !! current_gameweek G); [|by repeat split].
      cbn [map foldl flat_map]. by rewrite app_nil_r.
Qed.

Lemma current_entries_of_cons m ids gw gws :
  current_entries_of G m ids (gw :: gws)
  = current_entries_of G m ids [gw] ++ current_entries_of G m ids gws.
Proof.
  unfold current_entries_of. rewrite <- map_app. f_equal.
  rewrite !filter_cons, filter_nil. by destruct (decide _).
Qed.

Lemma gw_loop_report m k ids gws : forall st st',
  for_each gws (gw_body G m k ids) st = Ok st' ->
  report_after G (current_entries_of G m ids gws) st st'.
Proof.
  induction gws as [|gw gws IH]; intros st st' Hrun.
  - injection Hrun as <-. apply report_after_nil.
  - cbn [for_each] in Hrun.
    destruct (gw_body G m k ids gw st) as [st1|] eqn:Hstep; [|done].
    rewrite current_entries_of_cons.
    eapply report_after_app; [by eapply gw_body_report | by apply IH].
Qed.

Lemma phase_body_report m ph st st' :
  phase_body G m ph st = Ok st' ->
  report_after G (current_entries_of G m ph.2 (phase_range G ph.1)) st st'.
Proof.
  unfold phase_body. intros Hrun.
  apply bind_Ok_inv in Hrun as (pp & _ & Hrun).
  apply bind_Ok_inv in Hrun as (gws & Hgws & Hrun).
  unfold getitem_int in Hgws. unfold phase_range.
  destruct (dict_get (PHASES G) ph.1) as [gws'|]; [|done].
  injection Hgws as ->. apply gw_loop_report in Hrun.
  by eapply report_after_same; [..|exact Hrun].
Qed.

Lemma phase_loop_report m phases : forall st st',
  for_each phases (phase_body G m) st = Ok st' ->
  report_after G
    (flat_map (fun ph => current_entries_of G m ph.2 (phase_range G ph.1)) phases)
    st st'.
Proof.
  induction phases as [|ph phases IH]; intros st st' Hrun.
  - injection Hrun as <-. apply report_after_nil.
  - cbn [for_each] in Hrun.
    destruct (phase_body G m ph st) as [st1|] eqn:Hstep; [|done].
    cbn [flat_map].
    eapply report_after_app; [by eapply phase_body_report | by apply IH].
Qed.

Lemma manager_loop_report squads : forall st st',
  for_each squads (manager_body G) st = Ok st' ->
  report_after G
    (flat_map (fun item =>
                 flat_map (fun ph =>
                             current_entries_of G item.1 ph.2
                                                (phase_range G ph.1))
                          item.2)
              squads)
    st st'.
Proof.
  induction squads as [|item squads IH]; intros st st' Hrun.
  - injection Hrun as <-. apply report_after_nil.
  - cbn [for_each] in Hrun.
    destruct (manager_body G item st) as [st1|] eqn:Hstep; [|done].
    cbn [flat_map]. eapply report_after_app; [|by apply IH].
    unfold manager_body in Hstep. apply phase_loop_report in Hstep.
    by eapply report_after_same; [..|exact Hstep].
Qed.
End Report.

Lemma calculate_manager_points_report G r :
  calculate_manager_points G = Ok r ->
  manager_squads G ≠ [] -> gameweek_data G ≠ ∅ ->
  match gameweek_data G !! current_gameweek G with
  | None =>
      highest_gameweek_manager r = None /\ highest_gameweek_points r = 0
      /\ printed r = []
  | Some scores =>
      (highest_gameweek_manager r, highest_gameweek_points r)
      = leader (map (candidate G) (current_entries G))
      /\ printed r
         = flat_map (fun e => missing_scores G scores e.2) (current_entries G)
  end.
Proof.
  intros Hrun Hsq Hdata. unfold calculate_manager_points in Hrun.
  destruct (manager_squads G) as [|item squads] eqn:Esq; [done|].
  cbn [is_empty_dict] in Hrun. rewrite bool_decide_eq_false_2 in Hrun by done.
  rewrite <- Esq in Hrun.
  apply bind_Ok_inv in Hrun as (st & Hst & Hrun).
  apply bind_Ok_inv in Hrun as (pp & _ & Hrun).
  apply bind_Ok_inv in Hrun as (mp & _ & Hrun).
  injection Hrun as <-.
  cbn [highest_gameweek_manager highest_gameweek_points printed].
  apply manager_loop_report in Hst. unfold report_after in Hst.
  cbn [st_highest_gameweek_manager st_highest_gameweek_points st_printed] in Hst.
  fold (current_entries G) in Hst. by destruct (gameweek_data G !! _).
Qed.

Lemma elem_of_flat_map {A B} (f : A -> list B) (l : list A) (y : B) :
  y ∈ flat_map f l <-> exists x, x ∈ l /\ y ∈ f x.
Proof.
  rewrite list_elem_of_In, in_flat_map. split.
  - intros (x & Hx & Hy). exists x. by rewrite !list_elem_of_In.
  - intros (x & Hx & Hy). exists x. by rewrite <- !list_elem_of_In.
Qed.

Lemma flat_map_lookup_first {A B} (f : A -> list B) (l : list A) : forall i y,
  flat_map f l !! i = Some y ->
  exists a x,
    l !! a = Some x /\ y ∈ f x
    /\ forall b x' y',
         (b < a)%nat -> l !! b = Some x' -> y' ∈ f x' ->
         exists j, (j < i)%nat /\ flat_map f l !! j = Some y'.
Proof.
  induction l as [|x l IH]; intros i y Hi; [done|].
  cbn [flat_map] in Hi |- *. apply lookup_app_Some in Hi as [Hi|[Hlen Hi]].
  - exists 0%nat, x. split; [done|]. split; [by eapply list_elem_of_lookup_2|].
    intros b x' y' Hb. lia.
  - destruct (IH _ _ Hi) as (a & x0 & Ha & Hy & Hbefore).
    exists (S a), x0. split; [done|]. split; [done|].
    intros [|b] x' y' Hb Hx' Hy'.
    + injection Hx' as <-. apply list_elem_of_lookup in Hy' as [j Hj].
      exists j. split.
      * apply lookup_lt_Some in Hj. lia.
      * by apply lookup_app_l_Some.
    + destruct (Hbefore b x' y') as (j & Hj & Hjy); [lia|done..|].
      exists (length (f x) + j)%nat. split; [lia|].
      rewrite lookup_app_r by lia. by replace (length (f x) + j - length (f x))%nat with j by lia.
Qed.

Lemma elem_of_current_entries_of G m ids gws e :
  e ∈ current_entries_of G m ids gws
  <-> e = (m, ids) /\ current_gameweek G ∈ gws.
Proof.
  unfold current_entries_of. rewrite list_elem_of_fmap. split.
  - intros (gw & -> & Hin). apply list_elem_of_filter in Hin as [-> Hin]. done.
  - intros [-> Hin]. exists (current_gameweek G). split; [done|].
    by apply list_elem_of_filter.
Qed.

Lemma elem_of_manager_entries G (item : string * dict Z (list Z)) e :
  e ∈ flat_map (fun ph => current_entries_of G item.1 ph.2 (phase_range G ph.1))
               item.2
  <-> exists k ids,
        e = (item.1, ids) /\ (k, ids) ∈ item.2
        /\ current_gameweek G ∈ phase_range G k.
Proof.
  rewrite elem_of_flat_map. split.
  - intros ([k ids] & Hph & He). apply elem_of_current_entries_of in He as [-> ?].
    by exists k, ids.
  - intros (k & ids & -> & Hph & Hgw). exists (k, ids). split; [done|].
    by apply elem_of_current_entries_of.
Qed.

Lemma elem_of_current_entries G m ids :
  (m, ids) ∈ current_entries G
  <-> exists phases k,
        (m, phases) ∈ manager_squads G /\ (k, ids) ∈ phases
        /\ current_gameweek G ∈ phase_range G k.
Proof.
  unfold current_entries. rewrite elem_of_flat_map. split.
  - intros ([m' phases] & Hitem & He).
    apply elem_of_manager_entries in He as (k & ids' & [= -> ->] & Hph & Hgw).
    by exists phases, k.
  - intros (phases & k & Hitem & Hph & Hgw). exists (m, phases).
    split; [done|]. apply elem_of_manager_entries. by exists k, ids.
Qed.

(** The highest score of the current gameweek that
    [calculate_manager_points] returns is the best that a roster entry
    whose phase holds the gameweek has scored in it, and 0 with nobody
    named when none has scored more than 0; the manager named is the
    first of the roster to have reached it. *)
Theorem highest_gameweek_is_the_best_current_score G r :
  calculate_manager_points G = Ok r ->
  0 ≤ highest_gameweek_points r
  /\ (forall m phases k ids,
         (m, phases) ∈ manager_squads G -> (k, ids) ∈ phases ->
         current_gameweek G ∈ phase_range G k ->
         is_Some (gameweek_data G !! current_gameweek G) ->
         squad_points G (current_gameweek G) ids ≤ highest_gameweek_points r)
  /\ match highest_gameweek_manager r with
     | None => highest_gameweek_points r = 0
     | Some best =>
         0 < highest_gameweek_points r
         /\ exists i phases k ids,
              manager_squads G !! i = Some (best, phases)
              /\ (k, ids) ∈ phases
              /\ current_gameweek G ∈ phase_range G k
              /\ squad_points G (current_gameweek G) ids
                 = highest_gameweek_points r
              /\ forall j m' phases' k' ids',
                   (j < i)%nat ->
                   manager_squads G !! j = Some (m', phases') ->
                   (k', ids') ∈ phases' ->
                   current_gameweek G ∈ phase_range G k' ->
                   squad_points G (current_gameweek G) ids'
                   < highest_gameweek_points r
     end.
Proof.
  intros Hrun.
  destruct (decide (manager_squads G = [])) as [Hsq|Hsq].
  { unfold calculate_manager_points in Hrun. rewrite Hsq in Hrun |- *.
    injection Hrun as <-. cbn. split; [done|]. split; [|done].
    intros m phases k ids Hin. by apply elem_of_nil in Hin. }
  destruct (decide (gameweek_data G = ∅)) as [Hdata|Hdata].
  { unfold calculate_manager_points in Hrun.
    destruct (manager_squads G) eqn:E; [done|]. cbn [is_empty_dict] in Hrun.
    rewrite bool_decide_eq_true_2 in Hrun by done. injection Hrun as <-. cbn.
    split; [done|]. split; [|done].
    intros m phases k ids _ _ _ [scores Hs].
    by rewrite Hdata, lookup_empty in Hs. }
  pose proof (calculate_manager_points_report G r Hrun Hsq Hdata) as Hrep.
  destruct (gameweek_data G !! current_gameweek G) as [scores|] eqn:Hscores.
  2:{ destruct Hrep as (-> & -> & _). split; [done|]. split; [|done].
      by intros m phases k ids _ _ _ [? ?]. }
  destruct Hrep as [Hlead _]. symmetry in Hlead.
  apply foldl_take_lead in Hlead as (Hle & Hall & Hwho).
  split; [done|]. split.
  - intros m phases k ids Hitem Hph Hgw _. rewrite Forall_forall in Hall.
    apply (Hall (candidate G (m, ids))). apply list_elem_of_fmap.
    exists (m, ids). split; [done|]. apply elem_of_current_entries.
    by exists phases, k.
  - destruct Hwho as [(-> & ->)|(i & m & Hi & -> & Hlt & Hbefore)]; [done|].
    split; [done|]. rewrite list_lookup_fmap in Hi.
    destruct (current_entries G !! i) as [[m' ids]|] eqn:He; [|done].
    injection Hi as -> Hpts.
    destruct (flat_map_lookup_first _ _ _ _ He)
      as (a & [m2 phases] & Ha & Hin & Hfirst).
    apply elem_of_manager_entries in Hin as (k & ids' & Heq & Hph & Hgw).
    cbn [fst snd] in Heq, Hph. injection Heq as Hm Hids. subst m2 ids'.
    exists a, phases, k, ids. repeat split; [done..|].
    intros j m'' phases'' k' ids'' Hj Hitem Hph' Hgw'.
    destruct (Hfirst j (m'', phases'') (m'', ids'')) as (j' & Hj' & Hlook);
      [done..| |].
    { apply elem_of_manager_entries. by exists k', ids''. }
    apply (Hbefore j' (candidate G (m'', ids''))); [done|].
    fold (current_entries G) in Hlook.
    by rewrite list_lookup_fmap, Hlook.
Qed.

(** [calculate_manager_points] prints a missing score for the current
    gameweek only: once for every rostered player without a score in it,
    when the phase of the roster entry holds the gameweek, and for nothing
    else. *)
Theorem missing_scores_are_printed_for_the_current_gameweek G r :
  calculate_manager_points G = Ok r ->
  manager_squads G ≠ [] -> gameweek_data G ≠ ∅ ->
  forall d,
    d ∈ printed r
    <-> exists p scores m phases k ids,
          d = NoPointsFor p (current_gameweek G)
          /\ gameweek_data G !! current_gameweek G = Some scores
          /\ scores !! p = None
          /\ (m, phases) ∈ manager_squads G /\ (k, ids) ∈ phases
          /\ current_gameweek G ∈ phase_range G k /\ p ∈ ids.
Proof.
  intros Hrun Hsq Hdata d.
  pose proof (calculate_manager_points_report G r Hrun Hsq Hdata) as Hrep.
  destruct (gameweek_data G !! current_gameweek G) as [scores|] eqn:Hscores.
  2:{ destruct Hrep as (_ & _ & ->). split.
      - intros Hin. by apply elem_of_nil in Hin.
      - by intros (p & scores & m & phases & k & ids & _ & ? & _). }
  destruct Hrep as [_ ->]. rewrite elem_of_flat_map. split.
  - intros ([m ids] & He & Hd). unfold missing_scores in Hd. cbn [snd] in Hd.
    apply list_elem_of_fmap in Hd as (p & -> & Hp).
    apply list_elem_of_filter in Hp as [Hnone Hp].
    apply elem_of_current_entries in He as (phases & k & Hitem & Hph & Hgw).
    by exists p, scores, m, phases, k, ids.
  - intros (p & scores' & m & phases & k & ids & -> & [= <-] & Hnone & Hitem
            & Hph & Hgw & Hp).
    exists (m, ids). split.
    + apply elem_of_current_entries. by exists phases, k.
    + unfold missing_scores. cbn [snd]. apply list_elem_of_fmap.
      exists p. split; [done|]. by apply list_elem_of_filter.
Qed.






Section DictUpdate.
Context {V : Type}.
Implicit Types d : dict string V.

Lemma dict_set_keys d k v v' :
  dict_get d k = Some v -> dict_keys (dict_set d k v') = dict_keys d.
Proof.
  induction d as [|[k0 v0] d IH]; intros Hget; [done|].
  simpl in Hget |- *. destruct (decide (k = k0)) as [->|Hne]; [done|].
  simpl. f_equal. by apply IH.
Qed.

Lemma dict_set_length d k v v' :
  dict_get d k = Some v -> length (dict_set d k v') = length d.
Proof.
  intros Hget. apply (dict_set_keys _ _ _ v') in Hget.
  apply (f_equal length) in Hget. unfold dict_keys in Hget.
  by rewrite !length_map in Hget.
Qed.

Lemma dict_set_values d k v v' :
  dict_get d k = Some v ->
  exists others,
    dict_values d ≡ₚ v :: others
    /\ dict_values (dict_set d k v') ≡ₚ v' :: others.
Proof.
  induction d as [|[k0 v0] d IH]; intros Hget; [done|].
  simpl in Hget |- *. destruct (decide (k = k0)) as [->|Hne].
  - injection Hget as ->. by exists (dict_values d).
  - destruct (IH Hget) as (others & Hd & Hd'). exists (v0 :: others).
    cbn [dict_values map snd]. fold (dict_values d).
    fold (dict_values (dict_set d k v')). rewrite Hd, Hd'.
    split; apply Permutation_swap.
Qed.
End DictUpdate.

Lemma holder_of_Some manager3 position items m :
  holder_of manager3 position items = Some m ->
  m ≠ manager3 /\ (m, position) ∈ items.
Proof.
  induction items as [|[m0 p0] items IH]; [done|]. simpl.
  destruct (bool_decide (m0 ≠ manager3) && bool_decide (p0 = position)) eqn:E.
  - intros [= <-]. apply andb_true_iff in E as [E1 E2].
    apply bool_decide_eq_true in E1, E2. subst. split; [done|left].
  - intros Hrest. destruct (IH Hrest). split; [done|by right].
Qed.

Lemma holder_of_None manager3 position items :
  holder_of manager3 position items = None ->
  forall m, (m, position) ∈ items -> m = manager3.
Proof.
  induction items as [|[m0 p0] items IH]; intros Hnone m Hin.
  - by apply elem_of_nil in Hin.
  - simpl in Hnone.
    destruct (bool_decide (m0 ≠ manager3) && bool_decide (p0 = position)) eqn:E;
      [done|].
    apply elem_of_cons in Hin as [[= -> ->]|Hin]; [|by apply IH].
    apply andb_false_iff in E as [E|E]; apply bool_decide_eq_false in E.
    + by destruct (decide (m0 = manager3)).
    + done.
Qed.

Lemma swap_positions_spec manager1 manager2 standings pos1 pos2 :
  dict_get standings manager1 = Some pos1 ->
  dict_get standings manager2 = Some pos2 ->
  manager1 ≠ manager2 ->
  exists swapped,
    swap_positions manager1 manager2 standings = Ok swapped
    /\ dict_keys swapped = dict_keys standings
    /\ dict_values swapped ≡ₚ dict_values standings
    /\ dict_get swapped manager1 = Some pos2
    /\ dict_get swapped manager2 = Some pos1
    /\ forall m, m ≠ manager1 -> m ≠ manager2 ->
                 dict_get swapped m = dict_get standings m.
Proof.
  intros H1 H2 Hne. unfold swap_positions, getitem_str. rewrite H1, H2.
  cbn [mbind res_bind mret res_ret]. eexists. split; [done|].
  assert (dict_get (dict_set standings manager1 pos2) manager2 = Some pos2)
    as H2' by (by rewrite dict_get_set_ne).
  split; [|split; [|split; [|split]]].
  - by rewrite (dict_set_keys _ _ _ _ H2'), (dict_set_keys _ _ _ _ H1).
  - destruct (dict_set_values _ _ _ pos2 H1) as (o1 & Hs & Hs1).
    destruct (dict_set_values _ _ _ pos1 H2') as (o2 & Hs1' & Hs2).
    rewrite Hs2, Hs. apply Permutation_cons; [done|].
    rewrite Hs1 in Hs1'. symmetry. by eapply Permutation_cons_inv.
  - by rewrite dict_get_set_ne, dict_get_set_eq.
  - by rewrite dict_get_set_eq.
  - intros m Hm1 Hm2. by rewrite !dict_get_set_ne.
Qed.

Lemma move_up_spec manager3 standings pos3 :
  NoDup (dict_keys standings) ->
  dict_get standings manager3 = Some pos3 ->
  (1 < pos3 ->
   exists m, m ≠ manager3 /\ dict_get standings m = Some (pos3 - 1)) ->
  exists moved,
    move_up manager3 standings = Ok moved
    /\ dict_keys moved = dict_keys standings
    /\ dict_values moved ≡ₚ dict_values standings
    /\ forall m,
         dict_get moved m = dict_get standings m
         \/ m = manager3
         \/ dict_get standings m = Some (pos3 - 1)
            /\ dict_get moved m = Some pos3.
Proof.
  intros Hnd H3 Hholder. unfold move_up, getitem_str. rewrite H3.
  cbn [mbind res_bind]. case_bool_decide as Hpos.
  2:{ exists standings. repeat split; [done..|]. intros m. by left. }
  cbv zeta.
  set (lowered := dict_set standings manager3 (pos3 - 1)).
  assert (dict_keys lowered = dict_keys standings) as Hkeys
    by (by eapply dict_set_keys).
  destruct (holder_of manager3 (pos3 - 1) lowered) as [m0|] eqn:Hh.
  - apply holder_of_Some in Hh as [Hne Hin].
    assert (dict_get lowered m0 = Some (pos3 - 1)) as Hm0.
    { apply dict_get_elem; [by rewrite Hkeys|done]. }
    eexists. split; [done|]. split; [|split].
    + by rewrite (dict_set_keys _ _ _ _ Hm0).
    + destruct (dict_set_values _ _ _ (pos3 - 1) H3) as (o1 & Hs & Hs1).
      destruct (dict_set_values _ _ _ pos3 Hm0) as (o2 & Hs1' & Hs2).
      fold lowered in Hs1. rewrite Hs2, Hs. apply Permutation_cons; [done|].
      rewrite Hs1 in Hs1'. symmetry. by eapply Permutation_cons_inv.
    + intros m. destruct (decide (m = manager3)) as [->|Hm3]; [by right; left|].
      destruct (decide (m = m0)) as [->|Hm0'].
      * right; right. rewrite dict_get_set_eq. split; [|done].
        unfold lowered in Hm0. by rewrite dict_get_set_ne in Hm0.
      * left. unfold lowered. by rewrite !dict_get_set_ne.
  - exfalso. destruct Hholder as (m & Hne & Hm); [lia|].
    apply Hne. apply (holder_of_None _ _ _ Hh).
    apply dict_get_Some_elem. unfold lowered. by rewrite dict_get_set_ne.
Qed.

Lemma ranking_has_position (standings : dict string Z) (p : Z) :
  dict_values standings ≡ₚ seqZ 1 (Z.of_nat (length standings)) ->
  1 ≤ p ≤ Z.of_nat (length standings) ->
  exists m, (m, p) ∈ standings.
Proof.
  intros Hperm Hp.
  assert (p ∈ dict_values standings) as Hin.
  { rewrite Hperm. apply elem_of_seqZ. lia. }
  apply list_elem_of_fmap in Hin as ([m p'] & -> & Hin). by exists m.
Qed.

Lemma ranking_position_bound (standings : dict string Z) m p :
  dict_values standings ≡ₚ seqZ 1 (Z.of_nat (length standings)) ->
  dict_get standings m = Some p ->
  1 ≤ p ≤ Z.of_nat (length standings).
Proof.
  intros Hperm Hget. apply dict_get_Some_elem in Hget.
  assert (p ∈ dict_values standings) as Hin
    by (apply list_elem_of_fmap; by exists (m, p)).
  rewrite Hperm in Hin. apply elem_of_seqZ in Hin. lia.
Qed.

Lemma ranking_injective (standings : dict string Z) m1 m2 p :
  NoDup (dict_keys standings) ->
  dict_values standings ≡ₚ seqZ 1 (Z.of_nat (length standings)) ->
  dict_get standings m1 = Some p -> dict_get standings m2 = Some p ->
  m1 = m2.
Proof.
  intros Hnd Hperm H1 H2. apply dict_get_Some_elem in H1, H2.
  eapply NoDup_values_inj; [|done..]. rewrite Hperm. apply NoDup_seqZ.
Qed.

(** The swaps of [--test-movement], on standings that rank at least four
    managers 1 to N and for managers drawn as [random] draws them, keep
    the managers and leave a ranking 1 to N, and they do create movement:
    the position of the first or of the second manager drawn has changed. *)
Theorem test_swaps_keep_a_ranking manager1 manager2 manager3
    (standings : dict string Z) :
  NoDup (dict_keys standings) ->
  dict_values standings ≡ₚ seqZ 1 (Z.of_nat (length standings)) ->
  (4 ≤ length standings)%nat ->
  manager1 ∈ dict_keys standings -> manager2 ∈ dict_keys standings ->
  manager1 ≠ manager2 ->
  ((5 ≤ length standings)%nat ->
   manager3 ∈ dict_keys standings
   /\ manager3 ≠ manager1 /\ manager3 ≠ manager2) ->
  exists swapped,
    test_swaps manager1 manager2 manager3 standings = Ok swapped
    /\ dict_keys swapped = dict_keys standings
    /\ dict_values swapped ≡ₚ seqZ 1 (Z.of_nat (length standings))
    /\ (dict_get swapped manager1 ≠ dict_get standings manager1
        \/ dict_get swapped manager2 ≠ dict_get standings manager2).
Proof.
  intros Hnd Hrank Hlen Hm1 Hm2 H12 Hthird.
  assert (forall m, m ∈ dict_keys standings ->
                    exists p, dict_get standings m = Some p) as Hget.
  { intros m Hm. destruct (dict_get standings m) as [p|] eqn:E; [by exists p|].
    by apply dict_get_None in E. }
  destruct (Hget _ Hm1) as [pos1 H1], (Hget _ Hm2) as [pos2 H2].
  assert (pos1 ≠ pos2) as Hpos.
  { intros ->. apply H12. by eapply ranking_injective. }
  destruct (swap_positions_spec _ _ _ _ _ H1 H2 H12)
    as (s1 & Hswap & Hkeys1 & Hvals1 & Hs1 & Hs2 & Hother).
  assert (length s1 = length standings) as Hlen1.
  { apply (f_equal length) in Hkeys1. unfold dict_keys in Hkeys1.
    by rewrite !length_map in Hkeys1. }
  assert (length (dict_keys standings) = length standings) as Hk
    by apply length_map.
  unfold test_swaps. cbv zeta. rewrite !Hk.
  rewrite bool_decide_eq_true_2 by lia. rewrite Hswap.
  cbn [mbind res_bind]. case_bool_decide as Hfive.
  2:{ exists s1. split; [done|]. split; [done|]. split; [by rewrite Hvals1|].
      left. rewrite Hs1, H1. congruence. }
  destruct Hthird as (Hm3 & H31 & H32); [lia|].
  destruct (Hget _ Hm3) as [pos3 H3].
  assert (dict_get s1 manager3 = Some pos3) as H3' by (by rewrite Hother).
  assert (dict_values s1 ≡ₚ seqZ 1 (Z.of_nat (length s1))) as Hrank1
    by (by rewrite Hvals1, Hlen1).
  assert (NoDup (dict_keys s1)) as Hnd1 by (by rewrite Hkeys1).
  destruct (move_up_spec manager3 s1 pos3 Hnd1 H3') as
    (s2 & Hmove & Hkeys2 & Hvals2 & Hcases).
  { intros Hgt.
    pose proof (ranking_position_bound _ _ _ Hrank1 H3') as Hb.
    destruct (ranking_has_position s1 (pos3 - 1) Hrank1) as [m Hm]; [lia|].
    exists m. apply (dict_get_elem _ _ _ Hnd1) in Hm. split; [|done].
    intros ->. rewrite H3' in Hm. injection Hm. lia. }
  exists s2. split; [done|]. split; [by rewrite Hkeys2|].
  split; [by rewrite Hvals2, Hvals1|].
  destruct (Hcases manager1) as [Hsame|[?|[Hwas Hnow]]]; [|done|].
  - left. rewrite Hsame, Hs1, H1. congruence.
  - destruct (Hcases manager2) as [Hsame|[?|[Hwas' Hnow']]]; [|done|].
    + right. rewrite Hsame, Hs2, H2. congruence.
    + exfalso. apply H12. by eapply (ranking_injective s1).
Qed.

Lemma player_body_Ok el players players' :
  player_body el players = Ok players' ->
  exists p info,
    element_id el = Some p /\ player_of el = Some info
    /\ players' = <[p := info]> players.
Proof.
  unfold player_body, player_of, getitem_key.
  destruct (element_id el) as [p|]; [|done].
  destruct (web_name el) as [n|]; [|done].
  destruct (element_type el) as [ty|]; [|done].
  destruct (team el) as [tm|]; [|done].
  cbn. intros [= <-]. by eexists _, _.
Qed.

Lemma player_loop_last els : forall acc players,
  for_each els player_body acc = Ok players ->
  forall p,
    players !! p
    = match last (filter (fun el => element_id el = Some p) els) with
      | Some el => player_of el
      | None => acc !! p
      end.
Proof.
  induction els as [|el els IH]; intros acc players Hrun p.
  - injection Hrun as <-. done.
  - cbn [for_each] in Hrun.
    destruct (player_body el acc) as [acc1|] eqn:Hstep; [|done].
    apply player_body_Ok in Hstep as (q & info & Hq & Hinfo & ->).
    rewrite (IH _ _ Hrun p), filter_cons.
    destruct (decide (element_id el = Some p)) as [Hp|Hp].
    + rewrite last_cons.
      destruct (last (filter _ els)) as [el'|]; [done|].
      assert (q = p) as -> by congruence. by rewrite lookup_insert_eq.
    + destruct (last (filter _ els)) as [el'|]; [done|].
      rewrite lookup_insert_ne; [done|]. intros ->. by apply Hp.
Qed.

Lemma position_name type :
  default "Unknown"%string (dict_get POSITION_MAPPING type)
  ∈ ["GKP"; "DEF"; "MID"; "FWD"; "Unknown"]%string
  /\ (default "Unknown"%string (dict_get POSITION_MAPPING type)
      = "Unknown"%string <-> ¬ 1 ≤ type ≤ 4).
Proof.
  destruct (decide (1 ≤ type ≤ 4)) as [Hin|Hout].
  - assert (type = 1 \/ type = 2 \/ type = 3 \/ type = 4) as Hcases by lia.
    destruct Hcases as [-> | [-> | [-> | ->]]]; vm_compute;
      (split; [|split; [done | intros H; exfalso; apply H; split; discriminate]]).
    + left.
    + right; left.
    + do 2 right; left.
    + do 3 right; left.
  - unfold POSITION_MAPPING. cbn [dict_get].
    rewrite !decide_False by lia. cbn [default]. split; [|done].
    do 4 right. left.
Qed.

Lemma player_of_fields el info :
  player_of el = Some info ->
  element_id el = Some (info_id info)
  /\ web_name el = Some (info_name info)
  /\ points_by_gameweek info = ∅
  /\ info_position info
     ∈ ["GKP"; "DEF"; "MID"; "FWD"; "Unknown"]%string
  /\ (forall type, element_type el = Some type ->
        (info_position info = "Unknown"%string <-> ¬ 1 ≤ type ≤ 4)).
Proof.
  unfold player_of.
  destruct (element_id el) as [p|]; [|done].
  destruct (web_name el) as [n|]; [|done].
  destruct (element_type el) as [ty|]; [|done].
  destruct (team el) as [tm|]; [|done].
  cbn [mbind option_bind]. intros [= <-].
  cbn [info_id info_name info_position points_by_gameweek].
  destruct (position_name ty) as [Hname Hunknown].
  repeat split; try done.
  - intros Hu. injection H as <-. by apply Hunknown.
  - intros Hu. injection H as <-. by apply Hunknown.
Qed.

Lemma player_loop_raises before el after name : forall acc,
  Forall (fun el => is_Some (player_of el)) before ->
  player_body el ∅ = Raise (KeyError (KStr name)) ->
  for_each (before ++ el :: after) player_body acc
  = Raise (KeyError (KStr name)).
Proof.
  intros acc Hbefore Hel. revert acc.
  induction Hbefore as [|el0 before [info Hinfo] _ IH]; intros acc.
  - cbn [app for_each]. revert Hel. unfold player_body, getitem_key.
    destruct (element_id el); [|done]. destruct (web_name el); [|done].
    destruct (element_type el); [|done]. by destruct (team el).
  - cbn [app for_each]. revert Hinfo. unfold player_of, player_body, getitem_key.
    destruct (element_id el0); [|done]. destruct (web_name el0); [|done].
    destruct (element_type el0); [|done]. destruct (team el0); [|done].
    intros _. apply IH.
Qed.

Lemma player_loop_all els : forall acc players,
  for_each els player_body acc = Ok players ->
  Forall (fun el => is_Some (player_of el)) els.
Proof.
  induction els as [|el els IH]; intros acc players Hrun; [done|].
  cbn [for_each] in Hrun.
  destruct (player_body el acc) as [acc1|] eqn:Hstep; [|done].
  apply player_body_Ok in Hstep as (q & info & _ & Hinfo & _).
  constructor; [by eexists | by eapply IH].
Qed.

Lemma player_of_id el info : player_of el = Some info -> is_Some (element_id el).
Proof. unfold player_of. by destruct (element_id el); [eexists|]. Qed.

(** [process_player_data] keys every entry by the identifier that the
    entry holds, and of several elements with the same identifier the last
    one makes the entry; the position is one of the four of
    [POSITION_MAPPING] or "Unknown", and no points are recorded yet.  The
    warning is printed for an empty list only.  A response without
    ['elements'], and the first element without an identifier, raise
    [KeyError]. *)
Theorem process_player_data_keeps_the_last_element :
  (forall els players out,
      process_player_data (Some els) = Ok (players, out) ->
      (forall p,
          players !! p
          = last (filter (fun el => element_id el = Some p) els) ≫= player_of)
      /\ (forall p info,
             players !! p = Some info ->
             info_id info = p
             /\ points_by_gameweek info = ∅
             /\ info_position info
                ∈ ["GKP"; "DEF"; "MID"; "FWD"; "Unknown"]%string)
      /\ (forall el p, el ∈ els -> element_id el = Some p ->
                       is_Some (players !! p))
      /\ (out = if bool_decide (els = []) then [NoPlayersProcessed] else []))
  /\ process_player_data None = Raise (KeyError (KStr "elements"))
  /\ (forall before el after,
         Forall (fun el => is_Some (player_of el)) before ->
         element_id el = None ->
         process_player_data (Some (before ++ el :: after))
         = Raise (KeyError (KStr "id"))).
Proof.
  split; [|split; [done|]].
  - intros els players out Hrun. unfold process_player_data in Hrun.
    cbn [getitem_key mbind res_bind] in Hrun.
    destruct (for_each els player_body ∅) as [players'|] eqn:Hloop; [|done].
    cbn [mbind res_bind mret res_ret] in Hrun. injection Hrun as -> <-.
    pose proof (player_loop_last els ∅ players Hloop) as Hlast.
    pose proof (player_loop_all els ∅ players Hloop) as Hall.
    assert (forall p,
               players !! p
               = last (filter (fun el => element_id el = Some p) els)
                   ≫= player_of) as Hclosed.
    { intros p. rewrite Hlast. destruct (last _); [done|].
      by rewrite lookup_empty. }
    assert (forall el p, el ∈ els -> element_id el = Some p ->
                         is_Some (players !! p)) as Hkeys.
    { intros el p Hin Hid. rewrite Hclosed.
      destruct (last _) as [el'|] eqn:Hel.
      - apply last_Some_elem_of, list_elem_of_filter in Hel as [_ Hin'].
        rewrite Forall_forall in Hall. by apply Hall.
      - apply last_None in Hel.
        assert (el ∈ filter (fun el => element_id el = Some p) els) as Hf
          by (by apply list_elem_of_filter).
        rewrite Hel in Hf. by apply elem_of_nil in Hf. }
    split; [done|]. split; [|split; [done|]].
    + intros p info Hp. rewrite Hclosed in Hp.
      destruct (last _) as [el|] eqn:Hel; [|done]. cbn in Hp.
      apply last_Some_elem_of, list_elem_of_filter in Hel as [Hid _].
      destruct (player_of_fields el info Hp) as (Hid' & _ & Hpbg & Hpos & _).
      split; [congruence|done].
    + destruct els as [|el els].
      * injection Hloop as <-. done.
      * rewrite (bool_decide_eq_false_2 (el :: els = [])) by done.
        rewrite bool_decide_eq_false_2; [done|]. intros ->.
        apply Forall_cons in Hall as [[info Hinfo] _].
        destruct (player_of_id el info Hinfo) as [p Hp].
        destruct (Hkeys el p) as [? Hsome]; [left|done|].
        by rewrite lookup_empty in Hsome.
  - intros before el after Hbefore Hid. unfold process_player_data.
    cbn [getitem_key mbind res_bind].
    rewrite (player_loop_raises before el after "id"); [done..|].
    unfold player_body, getitem_key. by rewrite Hid.
Qed.

Lemma written_only_at_refl gw pd : written_only_at gw pd pd.
Proof. intros p. by destruct (pd !! p). Qed.

Lemma written_only_at_trans gw pd1 pd2 pd3 :
  written_only_at gw pd1 pd2 -> written_only_at gw pd2 pd3 ->
  written_only_at gw pd1 pd3.
Proof.
  intros H12 H23 p. specialize (H12 p). specialize (H23 p).
  destruct (pd1 !! p), (pd2 !! p), (pd3 !! p); try done.
  destruct H12 as (E1 & E2 & E3 & E4 & H12), H23 as (F1 & F2 & F3 & F4 & H23).
  repeat split; [congruence..|]. intros g Hg. by rewrite H23, H12.
Qed.

Lemma record_points_twice gw v v' info :
  record_points gw v' (record_points gw v info) = record_points gw v' info.
Proof. unfold record_points. cbn. f_equal. apply insert_insert_eq. Qed.

Lemma deciding_cons p el els :
  deciding p (el :: els)
  = match deciding p els with
    | Some el' => Some el'
    | None =>
        if decide (live_id el = Some p /\ is_Some (points_of el))
        then Some el else None
    end.
Proof.
  unfold deciding. rewrite filter_cons.
  destruct (decide _); [by rewrite last_cons|]. by destruct (last _).
Qed.

Lemma deciding_points p els el :
  deciding p els = Some el -> live_id el = Some p /\ is_Some (points_of el).
Proof.
  unfold deciding. intros Hlast.
  by apply last_Some_elem_of, list_elem_of_filter in Hlast as [? _].
Qed.

Lemma live_loop_closed cgw els : forall points0 pd0 points pd,
  for_each els (live_body cgw) (points0, pd0) = Ok (points, pd) ->
  forall p,
    points !! p
    = match deciding p els with
      | Some el => points_of el
      | None => points0 !! p
      end
    /\ pd !! p
       = match deciding p els ≫= points_of with
         | Some v => record_points cgw v <$> pd0 !! p
         | None => pd0 !! p
         end.
Proof.
  induction els as [|el els IH]; intros points0 pd0 points pd Hrun p.
  - injection Hrun as <- <-. done.
  - cbn [for_each] in Hrun.
    destruct (live_body cgw el (points0, pd0)) as [[points1 pd1]|] eqn:Hstep;
      [|done].
    destruct (IH _ _ _ _ Hrun p) as [Hpoints Hpd]. clear IH Hrun.
    rewrite deciding_cons.
    unfold live_body, getitem_key in Hstep. cbn [fst snd] in Hstep.
    destruct (live_id el) as [q|] eqn:Hq; [|done].
    cbn [mbind res_bind] in Hstep.
    destruct (deciding p els) as [el'|] eqn:Hdec.
    { destruct (deciding_points _ _ _ Hdec) as [_ [v' Hv']].
      cbn [mbind option_bind] in Hpd |- *. rewrite Hv' in Hpd |- *.
      split; [by rewrite Hpoints|]. rewrite Hpd.
      unfold points_of in *. destruct (live_stats el) as [[v|]|];
        injection Hstep as <- <-; try done.
      destruct (decide (q = p)) as [->|Hne].
      - destruct (pd0 !! p) as [info|] eqn:Hinfo; [|by rewrite Hinfo].
        rewrite lookup_insert_eq. cbn. by rewrite record_points_twice.
      - destruct (pd0 !! q); [|done]. by rewrite lookup_insert_ne. }
    cbn [mbind option_bind] in Hpd. rewrite Hpoints, Hpd.
    unfold points_of. destruct (live_stats el) as [[v|]|] eqn:Hstats;
      injection Hstep as <- <-; cbn [mbind option_bind id].
    + destruct (decide (q = p)) as [->|Hne].
      * rewrite decide_True by (split; [done | by eexists]).
        cbn [mbind option_bind]. unfold points_of. rewrite Hstats. cbn.
        rewrite lookup_insert_eq. split; [done|].
        destruct (pd0 !! p) as [info|] eqn:Hinfo; [|by rewrite Hinfo].
        by rewrite lookup_insert_eq.
      * rewrite decide_False by (intros [[= ?] _]; done).
        rewrite lookup_insert_ne by done. split; [done|].
        destruct (pd0 !! q); [|done]. by rewrite lookup_insert_ne.
    + rewrite decide_False; [done|]. by intros [_ [? ?]].
    + rewrite decide_False; [done|]. by intros [_ [? ?]].
Qed.

Lemma live_loop_written cgw els points0 pd0 points pd :
  for_each els (live_body cgw) (points0, pd0) = Ok (points, pd) ->
  written_only_at cgw pd0 pd.
Proof.
  intros Hrun p. destruct (live_loop_closed _ _ _ _ _ _ Hrun p) as [_ ->].
  destruct (deciding p els ≫= points_of) as [v|]; [|apply written_only_at_refl].
  destruct (pd0 !! p) as [info|]; [|done]. cbn. repeat split; try done.
  intros g Hg. by rewrite lookup_insert_ne.
Qed.

Lemma live_loop_raises cgw before el after : forall st,
  Forall (fun el => is_Some (live_id el)) before ->
  live_id el = None ->
  for_each (before ++ el :: after) (live_body cgw) st
  = Raise (KeyError (KStr "id")).
Proof.
  intros st Hbefore Hel. revert st.
  induction Hbefore as [|el0 before [q Hq] _ IH]; intros st.
  - cbn [app for_each]. unfold live_body, getitem_key. by rewrite Hel.
  - cbn [app for_each]. unfold live_body at 1, getitem_key. rewrite Hq.
    cbn [mbind res_bind]. by destruct (live_stats el0) as [[v|]|].
Qed.

(** Of the elements of a gameweek that name a player and carry points,
    [process_gameweek_data] keeps the points of the last; an element
    without ['stats'] or without ['total_points'] is passed over, and the
    warning is printed when none carried points.  In [player_data] the call
    writes, for the players already there that have points, under the key
    of the current gameweek only, whichever gameweek the data is of.  A
    response without ['elements'] yields no points and the two messages; an
    element without an identifier raises [KeyError]. *)
Theorem process_gameweek_data_keeps_the_last_points cgw pd :
  (forall els points pd' out,
      process_gameweek_data cgw pd (Some els) = Ok (points, pd', out) ->
      (forall p, points !! p = deciding p els ≫= points_of)
      /\ (forall p,
             pd' !! p
             = match points !! p with
               | Some v => record_points cgw v <$> pd !! p
               | None => pd !! p
               end)
      /\ written_only_at cgw pd pd'
      /\ (out = [NoPointsFound cgw]
          <-> Forall (fun el => points_of el = None) els)
      /\ (out = [] \/ out = [NoPointsFound cgw]))
  /\ process_gameweek_data cgw pd None
     = Ok (∅, pd, [NoElementsKey; AvailableKeys])
  /\ (forall before el after,
         Forall (fun el => is_Some (live_id el)) before ->
         live_id el = None ->
         process_gameweek_data cgw pd (Some (before ++ el :: after))
         = Raise (KeyError (KStr "id"))).
Proof.
  split; [|split; [done|]].
  - intros els points pd' out Hrun. unfold process_gameweek_data in Hrun.
    apply bind_Ok_inv in Hrun as ([points1 pd1] & Hloop & Hrun).
    cbn [fst snd mret res_ret] in Hrun. injection Hrun as -> -> <-.
    pose proof (live_loop_closed _ _ _ _ _ _ Hloop) as Hclosed.
    assert (forall p, points !! p = deciding p els ≫= points_of) as Hpoints.
    { intros p. destruct (Hclosed p) as [-> _].
      destruct (deciding p els); [done|]. by rewrite lookup_empty. }
    split; [done|]. split; [|split; [by eapply live_loop_written|]].
    { intros p. destruct (Hclosed p) as [_ ->]. by rewrite Hpoints. }
    assert (points = ∅ <-> Forall (fun el => points_of el = None) els)
      as Hempty.
    { split.
      - intros -> . apply Forall_forall. intros el Hin.
        destruct (points_of el) as [v|] eqn:Hv; [|done]. exfalso.
        assert (is_Some (live_id el)) as [q Hq].
        { clear -Hloop Hin. revert Hloop. generalize (∅ : gmap Z Z, pd).
          induction els as [|e els IH]; intros st Hloop.
          - by apply elem_of_nil in Hin.
          - cbn [for_each] in Hloop.
            destruct (live_body cgw e st) as [st1|] eqn:Hs; [|done].
            apply elem_of_cons in Hin as [->|Hin]; [|by eapply IH].
            unfold live_body, getitem_key in Hs.
            by destruct (live_id e); [eexists|]. }
        specialize (Hpoints q). rewrite lookup_empty in Hpoints.
        destruct (deciding q els) as [el'|] eqn:Hdec.
        + destruct (deciding_points _ _ _ Hdec) as [_ [v' Hv']].
          cbn in Hpoints. by rewrite Hv' in Hpoints.
        + apply last_None in Hdec.
          assert (el ∈ filter (fun el => live_id el = Some q
                                         /\ is_Some (points_of el)) els) as Hf
            by (apply list_elem_of_filter; by repeat split; [|eexists|]).
          rewrite Hdec in Hf. by apply elem_of_nil in Hf.
      - intros Hall. apply map_eq. intros p. rewrite lookup_empty, Hpoints.
        destruct (deciding p els) as [el|] eqn:Hdec; [|done].
        destruct (deciding_points _ _ _ Hdec) as [_ [v Hv]].
        apply last_Some_elem_of, list_elem_of_filter in Hdec as [_ Hin].
        rewrite Forall_forall in Hall. rewrite (Hall el Hin) in Hv. done. }
    split.
    + rewrite <- Hempty. case_bool_decide; [done|]. split; [done|].
      intros ?. done.
    + case_bool_decide; [by right | by left].
  - intros before el after Hbefore Hid. unfold process_gameweek_data.
    by rewrite live_loop_raises.
Qed.

Lemma process_gameweek_data_points cgw pd gw_data points pd' out :
  process_gameweek_data cgw pd gw_data = Ok (points, pd', out) ->
  (forall p, points !! p = api_points gw_data p)
  /\ written_only_at cgw pd pd'
  /\ forall p, pd' !! p
               = match points !! p with
                 | Some v => record_points cgw v <$> pd !! p
                 | None => pd !! p
                 end.
Proof.
  destruct gw_data as [els|].
  - intros Hrun. unfold process_gameweek_data in Hrun.
    apply bind_Ok_inv in Hrun as ([points1 pd1] & Hloop & Hrun).
    cbn [fst snd mret res_ret] in Hrun. injection Hrun as -> -> <-.
    pose proof (live_loop_closed _ _ _ _ _ _ Hloop) as Hclosed.
    assert (forall p, points !! p = api_points (Some els) p) as Hpoints.
    { intros p. destruct (Hclosed p) as [-> _]. unfold api_points.
      cbn [mbind option_bind].
      destruct (deciding p els); [done|]. by rewrite lookup_empty. }
    split; [done|]. split; [by eapply live_loop_written|].
    intros p. destruct (Hclosed p) as [_ ->]. rewrite Hpoints. done.
  - intros [= <- <- <-]. split; [|split].
    + intros p. by rewrite lookup_empty.
    + apply written_only_at_refl.
    + intros p. by rewrite lookup_empty.
Qed.

Lemma fetch_loop api cgw gws : forall data0 pd0 out0 data pd out,
  for_each gws (fetch_body api cgw) (data0, pd0, out0) = Ok (data, pd, out) ->
  (forall gw, gw ∈ gws ->
      exists points,
        data !! gw = Some points
        /\ forall p, points !! p = api_points (api gw) p)
  /\ (forall gw, gw ∉ gws -> data !! gw = data0 !! gw)
  /\ written_only_at cgw pd0 pd.
Proof.
  induction gws as [|g gws IH]; intros data0 pd0 out0 data pd out Hrun.
  - injection Hrun as <- <- <-. split; [|split].
    + intros gw Hin. by apply elem_of_nil in Hin.
    + done.
    + apply written_only_at_refl.
  - cbn [for_each] in Hrun. unfold fetch_body at 1 in Hrun.
    cbn [fst snd] in Hrun.
    destruct (process_gameweek_data cgw pd0 (api g)) as [[[points1 pd1] o1]|]
      eqn:Hstep; cbn [mbind res_bind mret res_ret fst snd] in Hrun; [|done].
    destruct (process_gameweek_data_points _ _ _ _ _ _ Hstep)
      as (Hpoints & Hwritten & _).
    destruct (IH _ _ _ _ _ _ Hrun) as (Hin & Hout & Hpd).
    split; [|split].
    + intros gw Hgw. destruct (decide (gw ∈ gws)) as [?|Hnot]; [by apply Hin|].
      apply elem_of_cons in Hgw as [->|?]; [|done].
      exists points1. rewrite (Hout _ Hnot), lookup_insert_eq. done.
    + intros gw Hgw. rewrite Hout.
      * rewrite lookup_insert_ne; [done|]. intros ->. apply Hgw. left.
      * intros ?. apply Hgw. by right.
    + by eapply written_only_at_trans.
Qed.

(** The loop of [main] that fetches the gameweeks up to the current one
    stores, under each of them, the points that the response carries, as
    [load_gameweeks] does for the fetch that yields them.  In
    [player_data] it writes under the key of the current gameweek only,
    whichever gameweek is being processed; what is left there is the
    score of the current gameweek for a player that has one. *)
Theorem fetched_gameweeks_are_stored_by_gameweek
    (api : Z -> option (list live_element)) cgw data pd data' pd' out :
  fetch_gameweeks api cgw data pd = Ok (data', pd', out) ->
  (forall gw,
      if bool_decide (1 ≤ gw ≤ cgw)
      then exists points,
             data' !! gw = Some points
             /\ forall p, points !! p = api_points (api gw) p
      else data' !! gw = data !! gw)
  /\ (forall fetch,
         (forall gw p, 1 ≤ gw ≤ cgw -> fetch gw !! p = api_points (api gw) p) ->
         data' = load_gameweeks fetch data cgw)
  /\ written_only_at cgw pd pd'
  /\ (forall p info' v,
         1 ≤ cgw -> pd' !! p = Some info' ->
         api_points (api cgw) p = Some v ->
         points_by_gameweek info' !! cgw = Some v).
Proof.
  intros Hrun. unfold fetch_gameweeks in Hrun.
  destruct (fetch_loop _ _ _ _ _ _ _ _ _ Hrun) as (Hin & Hout & Hwritten).
  assert (forall gw,
             if bool_decide (1 ≤ gw ≤ cgw)
             then exists points,
                    data' !! gw = Some points
                    /\ forall p, points !! p = api_points (api gw) p
             else data' !! gw = data !! gw) as Hdata.
  { intros gw. case_bool_decide as Hgw.
    - apply Hin, range_elem. lia.
    - apply Hout. rewrite range_elem. lia. }
  split; [done|]. split; [|split; [done|]].
  - intros fetch Hfetch. apply map_eq. intros gw.
    rewrite load_gameweeks_lookup. specialize (Hdata gw).
    case_bool_decide as Hgw; [|done].
    destruct Hdata as (points & -> & Hpoints). f_equal.
    apply map_eq. intros p. by rewrite Hpoints, Hfetch.
  - intros p info' v Hcgw Hp Hv.
    assert (range 1 (cgw + 1) = range 1 cgw ++ [cgw]) as Hsplit.
    { unfold range. replace (cgw + 1 - 1) with ((cgw - 1) + 1) by lia.
      rewrite seqZ_app by lia. f_equal. replace (1 + (cgw - 1)) with cgw by lia.
      done. }
    rewrite Hsplit, for_each_app in Hrun.
    apply bind_Ok_inv in Hrun as ([[data1 pd1] out1] & _ & Hlast).
    cbn [for_each] in Hlast. unfold fetch_body in Hlast.
    cbn [fst snd] in Hlast.
    destruct (process_gameweek_data cgw pd1 (api cgw))
      as [[[points2 pd2] o2]|] eqn:Hstep;
      cbn [mbind res_bind mret res_ret fst snd] in Hlast; [|done].
    injection Hlast as _ -> _.
    destruct (process_gameweek_data_points _ _ _ _ _ _ Hstep)
      as (Hpoints & _ & Hpd).
    rewrite Hpd, Hpoints, Hv in Hp.
    destruct (pd1 !! p) as [info|]; [|done]. injection Hp as <-.
    cbn. apply lookup_insert_eq.
Qed.

(** ** Sums *)

Lemma sum_perm (xs ys : list Z) : xs ≡ₚ ys -> sum xs = sum ys.
Proof.
  induction 1 as [|x xs ys _ IH|x y xs|xs ys zs _ IH1 _ IH2].
  - done.
  - by rewrite !sum_cons, IH.
  - rewrite !sum_cons. lia.
  - by rewrite IH1.
Qed.

Lemma sum_map_zero {A} (l : list A) : sum (map (fun _ => 0) l) = 0.
Proof. induction l as [|x l IH]; [done|]. cbn [map]. rewrite sum_cons. lia. Qed.

Lemma sum_map_ext {A} (f g : A -> Z) (l : list A) :
  (forall x, x ∈ l -> f x = g x) -> sum (map f l) = sum (map g l).
Proof.
  intros Hext. f_equal. apply map_ext_in. intros x Hx. apply Hext.
  by apply list_elem_of_In.
Qed.

Lemma sum_swap {A B} (f : A -> B -> Z) (xs : list A) (ys : list B) :
  sum (map (fun x => sum (map (f x) ys)) xs)
  = sum (map (fun y => sum (map (fun x => f x y) xs)) ys).
Proof.
  induction xs as [|x xs IH].
  - cbn [map]. by rewrite sum_map_zero.
  - cbn [map]. rewrite sum_cons, IH, <- sum_map_add.
    apply sum_map_ext. intros y _. by rewrite sum_cons.
Qed.

Lemma sum_filter {A} (P : A -> Prop) `{forall x, Decision (P x)}
    (f : A -> Z) (l : list A) :
  sum (map (fun x => if decide (P x) then f x else 0) l)
  = sum (map f (filter P l)).
Proof.
  induction l as [|x l IH]; [done|].
  cbn [map]. rewrite filter_cons, sum_cons, IH.
  destruct (decide (P x)); [by rewrite fmap_cons, sum_cons | lia].
Qed.

Lemma filter_subset_perm (P R : list Z) :
  NoDup P -> NoDup R -> (forall x, x ∈ R -> x ∈ P) ->
  filter (fun x => x ∈ R) P ≡ₚ R.
Proof.
  intros HP HR Hsub. apply NoDup_Permutation; [by apply NoDup_filter|done|].
  intros x. rewrite list_elem_of_filter. split; [by intros [? _]|].
  intros Hx. split; [done | by apply Hsub].
Qed.

Lemma sum_over_subset (f : Z -> Z) (P R : list Z) :
  NoDup P -> NoDup R -> (forall x, x ∈ R -> x ∈ P) ->
  sum (map (fun x => if decide (x ∈ R) then f x else 0) P) = sum (map f R).
Proof.
  intros HP HR Hsub. rewrite sum_filter.
  apply sum_perm, fmap_Permutation. by apply filter_subset_perm.
Qed.

Lemma sum_indicator (q a : Z) (ids : list Z) :
  NoDup ids ->
  sum (map (fun p => if bool_decide (p = q) then a else 0) ids)
  = if bool_decide (q ∈ ids) then a else 0.
Proof.
  induction 1 as [|p ids Hp _ IH]; [done|].
  cbn [map]. rewrite sum_cons, IH.
  destruct (decide (p = q)) as [->|Hne].
  - rewrite (bool_decide_eq_true_2 (q = q)) by done.
    rewrite (bool_decide_eq_false_2 (q ∈ ids)) by done.
    rewrite (bool_decide_eq_true_2 (q ∈ q :: ids)) by left. lia.
  - rewrite (bool_decide_eq_false_2 (p = q)) by done.
    rewrite (bool_decide_ext (q ∈ p :: ids) (q ∈ ids)); [lia|].
    rewrite elem_of_cons. split; [|by right]. by intros [->|?].
Qed.

(** ** The score of a player in a phase *)

Lemma player_phase_points_closed G p k v :
  player_phase_points G p k = Ok v -> v = player_score G p k.
Proof.
  unfold player_phase_points, getitem_int, player_score, phase_range.
  destruct (dict_get (PHASES G) k) as [gws|]; [|done].
  cbn [mbind res_bind mret res_ret from_option]. intros [= <-].
  assert (forall gws acc,
             foldl (fun acc gw =>
                      match gameweek_data G !! gw ≫= (.!! p) with
                      | Some pts => acc + pts
                      | None => acc
                      end) acc gws
             = acc + sum (map (fun gw => score G gw p) gws)) as Hraw.
  { clear. induction gws as [|gw gws IH]; intros acc.
    - cbn [foldl map]. rewrite sum_nil. lia.
    - cbn [foldl map]. rewrite IH, sum_cons.
      assert (score G gw p = default 0 (gameweek_data G !! gw ≫= (.!! p)))
        as -> by reflexivity.
      destruct (gameweek_data G !! gw ≫= (.!! p)); simpl; lia. }
  assert (forall cs acc,
             foldl (fun acc (c : Z * Z * Z) =>
                      if bool_decide (p = c.1.1) && bool_decide (k = c.1.2)
                      then acc + c.2 else acc) acc cs
             = acc + sum (map (fun c : Z * Z * Z =>
                                 if bool_decide (p = c.1.1)
                                    && bool_decide (k = c.1.2)
                                 then c.2 else 0) cs)) as Hadj.
  { clear. induction cs as [|c cs IH]; intros acc.
    - cbn [foldl map]. rewrite sum_nil. lia.
    - cbn [foldl map]. rewrite IH, sum_cons.
      destruct (bool_decide (p = c.1.1) && bool_decide (k = c.1.2)); lia. }
  rewrite Hadj, Hraw. unfold id. lia.
Qed.

Lemma player_phase_points_ok G p k :
  is_Some (dict_get (PHASES G) k) ->
  exists v, player_phase_points G p k = Ok v.
Proof.
  intros [gws Hk]. unfold player_phase_points, getitem_int. rewrite Hk.
  by eexists.
Qed.

(** The scores of the players of a roster add up to the total of the
    phase. *)
Lemma player_scores_add_up G k ids :
  NoDup ids ->
  sum (map (fun p => player_score G p k) ids) = spec_phase_total G k ids.
Proof.
  intros Hnd. unfold player_score, spec_phase_total.
  rewrite sum_map_add. f_equal.
  - unfold raw_phase_total, squad_points.
    apply (sum_swap (fun p gw => score G gw p)).
  - unfold adjustments_total.
    rewrite (sum_swap (fun p (c : Z * Z * Z) =>
                         if bool_decide (p = c.1.1) && bool_decide (k = c.1.2)
                         then c.2 else 0)).
    apply sum_map_ext. intros c _. unfold adjustment_for, list_mem.
    destruct (decide (k = c.1.2)) as [Hk|Hk].
    + rewrite (bool_decide_eq_true_2 (c.1.2 = k)) by done. cbn [andb].
      rewrite <- (sum_indicator c.1.1 c.2 ids Hnd).
      apply sum_map_ext. intros p _.
      rewrite (bool_decide_eq_true_2 (k = c.1.2)) by done.
      by rewrite andb_true_r.
    + rewrite (bool_decide_eq_false_2 (c.1.2 = k)) by done. cbn [andb].
      etrans; [|apply (sum_map_zero ids)]. apply sum_map_ext. intros p _.
      rewrite (bool_decide_eq_false_2 (k = c.1.2)) by done.
      by rewrite andb_false_r.
Qed.

(** ** The current phase of a manager *)

Lemma dict_mem_is_Some {V} (d : dict Z V) k :
  dict_mem d k = true <-> is_Some (dict_get d k).
Proof.
  unfold dict_mem. destruct (dict_get d k); split; done || by intros [? ?].
Qed.

Lemma count_down_spec n phases :
  0 ≤ count_down n phases ≤ Z.of_nat n
  /\ (count_down n phases ≠ 0 -> is_Some (dict_get phases (count_down n phases)))
  /\ (forall j, count_down n phases < j ≤ Z.of_nat n -> dict_get phases j = None).
Proof.
  induction n as [|n (Hbound & Hfound & Habove)].
  - simpl. split; [lia|]. split; [done|]. intros j Hj. lia.
  - cbn [count_down]. destruct (dict_mem phases (Z.of_nat (S n))) eqn:Hmem.
    + split; [lia|]. split; [intros _; by apply dict_mem_is_Some|].
      intros j Hj. lia.
    + split; [lia|]. split; [done|]. intros j Hj.
      destruct (decide (j = Z.of_nat (S n))) as [->|Hne].
      * destruct (dict_get phases (Z.of_nat (S n))) eqn:E; [|done].
        assert (dict_mem phases (Z.of_nat (S n)) = true) as Hyes
          by (apply dict_mem_is_Some; by eexists).
        congruence.
      * apply Habove. lia.
Qed.

(** ** The players of a squad table *)

Lemma collect_players_closed player_data ids :
  (collect_players player_data ids).1 = omap (squad_player_of player_data) ids
  /\ (collect_players player_data ids).2
     = map NoPlayerInfo (filter (fun p => player_data !! p = None) ids).
Proof.
  unfold collect_players.
  assert (forall acc : list squad_player * list notice,
             let r := foldl (fun acc player_id =>
                 match player_data !! player_id with
                 | None => (acc.1, acc.2 ++ [NoPlayerInfo player_id])
                 | Some info =>
                     (acc.1 ++ [ {| sp_id := player_id;
                                    sp_name := info_name info;
                                    sp_team := info_team info;
                                    sp_position := info_position info;
                                    sp_position_order :=
                                      default 99 (dict_get position_order
                                                    (info_position info)) |} ],
                      acc.2)
                 end) acc ids in
             r.1 = acc.1 ++ omap (squad_player_of player_data) ids
             /\ r.2 = acc.2
                      ++ map NoPlayerInfo
                           (filter (fun p => player_data !! p = None) ids))
    as Hfold.
  { induction ids as [|p ids IH]; intros acc.
    - cbn. by rewrite !app_nil_r.
    - cbn [foldl]. cbv zeta in IH |- *.
      destruct (IH (match player_data !! p with
                    | None => (acc.1, acc.2 ++ [NoPlayerInfo p])
                    | Some info =>
                        (acc.1 ++ [ {| sp_id := p;
                                       sp_name := info_name info;
                                       sp_team := info_team info;
                                       sp_position := info_position info;
                                       sp_position_order :=
                                         default 99 (dict_get position_order
                                                       (info_position info)) |} ],
                         acc.2)
                    end)) as [-> ->].
      rewrite filter_cons. cbn [omap list_omap]. unfold squad_player_of at 2.
      destruct (player_data !! p) as [info|] eqn:Hp; cbn [fst snd fmap option_fmap option_map].
      + rewrite decide_False by done. by rewrite <- app_assoc.
      + rewrite decide_True by done. cbn [map]. by rewrite <- app_assoc. }
  apply (Hfold ([], [])).
Qed.

Lemma squad_player_of_id player_data p pl :
  squad_player_of player_data p = Some pl -> sp_id pl = p.
Proof.
  unfold squad_player_of. destruct (player_data !! p); [|done].
  by intros [= <-].
Qed.

Lemma collected_ids player_data ids :
  map sp_id (collect_players player_data ids).1
  = filter (fun p => is_Some (player_data !! p)) ids.
Proof.
  destruct (collect_players_closed player_data ids) as [-> _].
  induction ids as [|p ids IH]; [done|].
  cbn [omap list_omap]. rewrite filter_cons.
  destruct (squad_player_of player_data p) as [pl|] eqn:Hpl.
  - rewrite decide_True.
    + cbn [map]. rewrite IH. f_equal. by eapply squad_player_of_id.
    + unfold squad_player_of in Hpl. by destruct (player_data !! p); [eexists|].
  - rewrite decide_False; [done|]. intros [info Hinfo].
    unfold squad_player_of in Hpl. by rewrite Hinfo in Hpl.
Qed.

Lemma sorted_asc_perm {A} (key : A -> Z) (l : list A) : sorted_asc key l ≡ₚ l.
Proof. apply sorted_desc_perm. Qed.

Lemma sorted_asc_sorted {A} (key : A -> Z) (l : list A) :
  StronglySorted (fun x y => key x ≤ key y) (sorted_asc key l).
Proof.
  pose proof (sorted_desc_sorted (fun x => - key x) l) as Hs.
  unfold sorted_asc. induction Hs as [|x l' _ IH Hall]; constructor; [done|].
  eapply Forall_impl; [exact Hall|]. intros y. unfold desc. lia.
Qed.

(** ** The rows of a squad table *)

Lemma cell_body_closed G phases p k acc acc1 :
  cell_body G phases p k acc = Ok acc1 ->
  acc1 = (acc.1 ++ [cell_of G phases p k],
          acc.2 + default 0 (cell_of G phases p k)).
Proof.
  unfold cell_body, cell_of.
  destruct (dict_get phases k) as [ids|]; cbn [default from_option id].
  - destruct (list_mem p ids).
    + intros Hstep. apply bind_Ok_inv in Hstep as (pts & Hpts & Hstep).
      injection Hstep as <-. apply player_phase_points_closed in Hpts.
      by subst pts.
    + intros [= <-]. f_equal. simpl. lia.
  - intros [= <-]. f_equal. simpl. lia.
Qed.

Lemma cell_loop G phases p ks : forall acc res,
  for_each ks (cell_body G phases p) acc = Ok res ->
  res.1 = acc.1 ++ map (cell_of G phases p) ks
  /\ res.2 = acc.2 + sum (map (fun k => default 0 (cell_of G phases p k)) ks).
Proof.
  induction ks as [|k ks IH]; intros acc res Hrun.
  - injection Hrun as <-. cbn [map]. rewrite app_nil_r, sum_nil. split; [done|lia].
  - cbn [for_each] in Hrun.
    destruct (cell_body G phases p k acc) as [acc1|] eqn:Hstep; [|done].
    destruct (IH _ _ Hrun) as [-> ->]. cbn [map]. rewrite sum_cons.
    apply cell_body_closed in Hstep. subst acc1. cbn [fst snd].
    rewrite <- app_assoc. split; [done|lia].
Qed.

Lemma squad_row_of_closed G phases pl row :
  squad_row_of G phases pl = Ok row ->
  srow_player row = pl
  /\ srow_cells row = map (cell_of G phases (sp_id pl)) (range 1 6)
  /\ srow_total row
     = sum (map (fun k => default 0 (cell_of G phases (sp_id pl) k))
                (range 1 6)).
Proof.
  unfold squad_row_of. intros Hrun.
  apply bind_Ok_inv in Hrun as (acc & Hloop & Hrun). injection Hrun as <-.
  apply cell_loop in Hloop as [-> ->]. cbn. split; [done|]. split; [done|lia].
Qed.

Lemma rows_of_players_closed G phases pls rows :
  rows_of_players G phases pls = Ok rows ->
  Forall2 (fun pl row => squad_row_of G phases pl = Ok row) pls rows.
Proof.
  unfold rows_of_players.
  assert (forall acc res,
             for_each pls
               (fun pl rows => row ← squad_row_of G phases pl;
                               mret (rows ++ [row])) acc = Ok res ->
             exists new,
               res = acc ++ new
               /\ Forall2 (fun pl row => squad_row_of G phases pl = Ok row)
                          pls new) as Hloop.
  { induction pls as [|pl pls IH]; intros acc res Hrun.
    - injection Hrun as <-. exists []. by rewrite app_nil_r.
    - cbn [for_each] in Hrun.
      destruct (squad_row_of G phases pl) as [row|] eqn:Hrow; [|done].
      cbn [mbind res_bind mret res_ret] in Hrun.
      destruct (IH _ _ Hrun) as (new & -> & Hall).
      exists (row :: new). rewrite <- app_assoc. split; [done|].
      by constructor. }
  intros Hrun. destruct (Hloop _ _ Hrun) as (new & -> & Hall). done.
Qed.

Lemma rows_players G phases pls rows :
  Forall2 (fun pl row => squad_row_of G phases pl = Ok row) pls rows ->
  map srow_player rows = pls
  /\ map srow_total rows
     = map (fun pl =>
              sum (map (fun k => default 0 (cell_of G phases (sp_id pl) k))
                       (range 1 6))) pls.
Proof.
  induction 1 as [|pl row pls rows Hrow _ [IH1 IH2]]; [done|].
  apply squad_row_of_closed in Hrow as (Hpl & _ & Htotal).
  cbn [map]. by rewrite IH1, IH2, Hpl, Htotal.
Qed.

Section Blocks.
Context (set_iter : list Z -> list Z) (Hset : iterates_sets set_iter).
Context (G : globals) (player_data : gmap Z player).

Lemma squad_block_of_None manager points_info phases b out :
  squad_block_of set_iter G player_data manager points_info phases = Ok (b, out) ->
  block_squad b = None ->
  current_phase_of phases = 0 /\ out = []
  /\ block_manager b = manager /\ block_total b = total points_info.
Proof.
  unfold squad_block_of. cbv zeta. case_bool_decide as Hcp.
  - intros [= <- <-]. done.
  - intros Hrun Hnone. apply bind_Ok_inv in Hrun as (c & _ & Hrun).
    apply bind_Ok_inv in Hrun as (p & _ & Hrun). injection Hrun as <- _.
    done.
Qed.

Lemma squad_block_of_Some manager points_info phases b out cp current past :
  squad_block_of set_iter G player_data manager points_info phases = Ok (b, out) ->
  block_squad b = Some (cp, current, past) ->
  cp = current_phase_of phases /\ cp ≠ 0
  /\ block_manager b = manager /\ block_total b = total points_info
  /\ exists roster,
       dict_get phases cp = Some roster
       /\ Forall2 (fun pl row => squad_row_of G phases pl = Ok row)
            (sorted_asc sp_position_order
               (collect_players player_data (set_iter roster)).1) current
       /\ Forall2 (fun pl row => squad_row_of G phases pl = Ok row)
            (sorted_asc sp_position_order
               (collect_players player_data
                  (set_iter (previous_players phases cp roster))).1) past
       /\ out = (collect_players player_data (set_iter roster)).2
                ++ (collect_players player_data
                      (set_iter (previous_players phases cp roster))).2.
Proof.
  unfold squad_block_of. cbv zeta. case_bool_decide as Hcp.
  - intros [= <- <-]. done.
  - intros Hrun Hsome. apply bind_Ok_inv in Hrun as (c & Hc & Hrun).
    apply bind_Ok_inv in Hrun as (p & Hp & Hrun). injection Hrun as <- <-.
    cbn [block_squad] in Hsome. injection Hsome as <- <- <-.
    split; [done|]. split; [done|]. split; [done|]. split; [done|].
    destruct (count_down_spec 5 phases) as (_ & Hfound & _).
    destruct (Hfound Hcp) as [roster Hroster].
    fold (current_phase_of phases) in Hroster. rewrite Hroster in Hc, Hp.
    cbn [default from_option id] in Hc, Hp.
    exists roster. split; [done|].
    split; [by apply rows_of_players_closed|].
    split; [by apply rows_of_players_closed|]. by rewrite Hroster.
Qed.

Lemma row_ids_of_rows phases pls rows :
  Forall2 (fun pl row => squad_row_of G phases pl = Ok row) pls rows ->
  row_ids rows = map sp_id pls.
Proof.
  intros Hall. destruct (rows_players _ _ _ _ Hall) as [<- _].
  unfold row_ids. by rewrite map_map.
Qed.

Lemma row_ids_collected phases ids rows :
  Forall2 (fun pl row => squad_row_of G phases pl = Ok row)
    (sorted_asc sp_position_order (collect_players player_data (set_iter ids)).1)
    rows ->
  row_ids rows ≡ₚ filter (fun p => is_Some (player_data !! p)) (set_iter ids).
Proof.
  intros Hall. rewrite (row_ids_of_rows _ _ _ Hall), <- collected_ids.
  apply fmap_Permutation, sorted_asc_perm.
Qed.

Lemma rows_sorted phases pls rows :
  Forall2 (fun pl row => squad_row_of G phases pl = Ok row) pls rows ->
  StronglySorted (fun x y => sp_position_order x ≤ sp_position_order y) pls ->
  StronglySorted (fun a b => sp_position_order (srow_player a)
                             ≤ sp_position_order (srow_player b)) rows.
Proof.
  intros Hall. destruct (rows_players _ _ _ _ Hall) as [<- _]. clear Hall.
  induction rows as [|row rows IH]; intros Hs; [constructor|].
  cbn [map] in Hs. apply StronglySorted_inv in Hs as [Hs Hrow].
  constructor; [by apply IH|]. rewrite Forall_forall in Hrow.
  apply Forall_forall.
  intros other Hother. apply (Hrow (srow_player other)).
  apply list_elem_of_fmap. by exists other.
Qed.

Lemma elem_of_previous_players phases cp roster p :
  p ∈ previous_players phases cp roster
  <-> (p ∉ roster) /\ exists k ids, (k, ids) ∈ phases /\ k < cp /\ p ∈ ids.
Proof.
  unfold previous_players. rewrite elem_of_flat_map. split.
  - intros ([k ids] & Hph & Hin). cbn [fst snd] in Hin.
    case_bool_decide; [|by apply elem_of_nil in Hin].
    apply list_elem_of_filter in Hin as [Hout Hin]. split; [done|].
    by exists k, ids.
  - intros (Hout & k & ids & Hph & Hk & Hin). exists (k, ids).
    split; [done|]. cbn [fst snd]. rewrite bool_decide_eq_true_2 by done.
    by apply list_elem_of_filter.
Qed.

Lemma known_ids ids p :
  p ∈ filter (fun p => is_Some (player_data !! p)) (set_iter ids)
  <-> p ∈ ids /\ is_Some (player_data !! p).
Proof.
  rewrite list_elem_of_filter. destruct (Hset ids) as [_ Hiff].
  rewrite Hiff. tauto.
Qed.

Lemma squad_block_ids manager points_info phases b out cp current past :
  squad_block_of set_iter G player_data manager points_info phases
  = Ok (b, out) ->
  block_squad b = Some (cp, current, past) ->
  1 ≤ cp ≤ 5
  /\ (forall k, cp < k ≤ 5 -> dict_get phases k = None)
  /\ exists roster,
       dict_get phases cp = Some roster
       /\ (forall p, p ∈ row_ids current
                     <-> p ∈ roster /\ is_Some (player_data !! p))
       /\ (forall p, p ∈ row_ids past
                     <-> ((p ∉ roster)
                          /\ exists k ids,
                               (k, ids) ∈ phases /\ k < cp /\ p ∈ ids)
                         /\ is_Some (player_data !! p))
       /\ NoDup (row_ids current ++ row_ids past).
Proof.
  intros Hrun Hsquad.
  destruct (squad_block_of_Some _ _ _ _ _ _ _ _ Hrun Hsquad)
    as (Hcp & Hne & Hm & Ht & roster & Hroster & Hcur & Hpast & Hout).
  destruct (count_down_spec 5 phases) as (Hbound & _ & Habove).
  fold (current_phase_of phases) in Hbound, Habove. rewrite <- Hcp in *.
  split; [lia|]. split; [intros k Hk; apply Habove; lia|].
  exists roster. split; [done|].
  pose proof (row_ids_collected _ _ _ Hcur) as Hids_cur.
  pose proof (row_ids_collected _ _ _ Hpast) as Hids_past.
  assert (forall p, p ∈ row_ids current
                    <-> p ∈ roster /\ is_Some (player_data !! p)) as Hcur_iff.
  { intros p. rewrite Hids_cur. apply known_ids. }
  assert (forall p, p ∈ row_ids past
                    <-> ((p ∉ roster)
                         /\ exists k ids,
                              (k, ids) ∈ phases /\ k < cp /\ p ∈ ids)
                        /\ is_Some (player_data !! p)) as Hpast_iff.
  { intros p. rewrite Hids_past, known_ids, elem_of_previous_players. done. }
  split; [done|]. split; [done|].
  apply NoDup_app. split; [|split].
  - rewrite Hids_cur. apply NoDup_filter, Hset.
  - intros p Hp Hp'. apply Hcur_iff in Hp as [Hp _].
    apply Hpast_iff in Hp' as [[Hp' _] _]. done.
  - rewrite Hids_past. apply NoDup_filter, Hset.
Qed.

(** The table of a manager shows the squad of the highest phase from 1
    to 5 that the manager has a roster for, and says that there is no
    squad when there is none.  The current squad is that roster and the
    previous players are those of the rosters of earlier phases that are
    not in it, every player once, those without an entry in
    [player_data] left out with a message, both lists in the order of the
    positions; a row has a cell for each of the phases 1 to 5, the score
    of the player where the manager held the player and the dash
    elsewhere, and the total of the row is the sum of the scores shown. *)
Theorem squad_block_lists_current_and_previous_players manager points_info
    phases b out :
  squad_block_of set_iter G player_data manager points_info phases
  = Ok (b, out) ->
  block_manager b = manager /\ block_total b = total points_info
  /\ match block_squad b with
     | None => (forall k, 1 ≤ k ≤ 5 -> dict_get phases k = None) /\ out = []
     | Some (cp, current, past) =>
         1 ≤ cp ≤ 5
         /\ (forall k, cp < k ≤ 5 -> dict_get phases k = None)
         /\ exists roster,
              dict_get phases cp = Some roster
              /\ (forall p, p ∈ row_ids current
                            <-> p ∈ roster /\ is_Some (player_data !! p))
              /\ (forall p, p ∈ row_ids past
                            <-> ((p ∉ roster)
                                 /\ exists k ids,
                                      (k, ids) ∈ phases /\ k < cp /\ p ∈ ids)
                                /\ is_Some (player_data !! p))
              /\ NoDup (row_ids current ++ row_ids past)
              /\ StronglySorted
                   (fun a b => sp_position_order (srow_player a)
                               ≤ sp_position_order (srow_player b)) current
              /\ StronglySorted
                   (fun a b => sp_position_order (srow_player a)
                               ≤ sp_position_order (srow_player b)) past
              /\ (forall row,
                     row ∈ current ++ past ->
                     srow_cells row
                     = map (cell_of G phases (sp_id (srow_player row)))
                           (range 1 6)
                     /\ srow_total row
                        = sum (map (default 0) (srow_cells row)))
              /\ (forall p,
                     NoPlayerInfo p ∈ out
                     <-> player_data !! p = None
                         /\ (p ∈ roster
                             \/ exists k ids,
                                  (k, ids) ∈ phases /\ k < cp /\ p ∈ ids))
     end.
Proof.
  intros Hrun. destruct (block_squad b) as [[[cp current] past]|] eqn:Hsquad.
  - destruct (squad_block_of_Some _ _ _ _ _ _ _ _ Hrun Hsquad)
      as (Hcp & Hne & Hm & Ht & roster & Hroster & Hcur & Hpast & Hout).
    split; [done|]. split; [done|].
    destruct (squad_block_ids _ _ _ _ _ _ _ _ Hrun Hsquad)
      as (Hbound & Habove & roster' & Hroster' & Hcur_iff & Hpast_iff & Hnd).
    rewrite Hroster in Hroster'. injection Hroster' as <-.
    split; [done|]. split; [done|].
    exists roster. split; [done|].
    split; [done|]. split; [done|]. split; [done|].
    split; [|split; [|split]].
    + eapply rows_sorted; [exact Hcur|]. apply sorted_asc_sorted.
    + eapply rows_sorted; [exact Hpast|]. apply sorted_asc_sorted.
    + intros row Hin.
      assert (exists pl, squad_row_of G phases pl = Ok row) as [pl Hrow].
      { apply elem_of_app in Hin as [Hin|Hin];
          apply list_elem_of_lookup in Hin as [i Hi].
        - destruct (Forall2_lookup_r _ _ _ _ _ Hcur Hi) as (pl & _ & ?).
          by exists pl.
        - destruct (Forall2_lookup_r _ _ _ _ _ Hpast Hi) as (pl & _ & ?).
          by exists pl. }
      apply squad_row_of_closed in Hrow as (-> & -> & ->).
      split; [reflexivity|]. rewrite map_map. reflexivity.
    + intros p. rewrite Hout, elem_of_app.
      destruct (collect_players_closed player_data (set_iter roster))
        as [_ ->].
      destruct (collect_players_closed player_data
                  (set_iter (previous_players phases cp roster))) as [_ ->].
      rewrite !list_elem_of_fmap. split.
      * intros [(q & [= <-] & Hq)|(q & [= <-] & Hq)];
          apply list_elem_of_filter in Hq as [Hnone Hq];
          apply (proj1 (proj2 (Hset _) _)) in Hq.
        -- split; [done | by left].
        -- apply elem_of_previous_players in Hq as [_ ?]. split; [done|by right].
      * intros [Hnone Hwhere].
        destruct (decide (p ∈ roster)) as [Hin|Hnotin].
        -- left. exists p. split; [done|]. apply list_elem_of_filter.
           split; [done|]. by apply (proj2 (proj2 (Hset _) _)).
        -- right. exists p. split; [done|]. apply list_elem_of_filter.
           split; [done|]. apply (proj2 (proj2 (Hset _) _)).
           apply elem_of_previous_players. split; [done|].
           by destruct Hwhere as [?|?].
  - destruct (squad_block_of_None _ _ _ _ _ Hrun Hsquad) as (Hcp & -> & Hm & Ht).
    split; [done|]. split; [done|]. split; [|done].
    destruct (count_down_spec 5 phases) as (_ & _ & Habove).
    fold (current_phase_of phases) in Habove. rewrite Hcp in Habove.
    intros k Hk. apply Habove. lia.
Qed.
End Blocks.

Lemma spec_phase_total_no_roster G k : spec_phase_total G k [] = 0.
Proof. by rewrite <- player_scores_add_up by constructor. Qed.

Lemma cell_of_default G phases p k :
  default 0 (cell_of G phases p k)
  = if decide (p ∈ default [] (dict_get phases k))
    then player_score G p k else 0.
Proof.
  unfold cell_of, list_mem. case_bool_decide.
  - by rewrite decide_True.
  - by rewrite decide_False.
Qed.

Lemma sum_over_phases (g : Z -> list Z -> Z) (phases : dict Z (list Z)) :
  NoDup (dict_keys phases) ->
  Forall (fun ph => 1 ≤ ph.1 ≤ 5) phases ->
  (forall k, g k [] = 0) ->
  sum (map (fun k => g k (default [] (dict_get phases k))) (range 1 6))
  = sum (map (fun ph => g ph.1 ph.2) phases).
Proof.
  intros Hnd Hkeys Hnil.
  transitivity (sum (map (fun k => if decide (k ∈ dict_keys phases)
                                   then g k (default [] (dict_get phases k))
                                   else 0) (range 1 6))).
  { apply sum_map_ext. intros k _. destruct (decide _) as [|Hout]; [done|].
    apply dict_get_None in Hout. by rewrite Hout. }
  rewrite sum_over_subset; [|apply NoDup_seqZ|done|].
  - unfold dict_keys. rewrite map_map. apply sum_map_ext.
    intros [k ids] Hin. cbn [fst snd].
    by rewrite (dict_get_elem _ _ _ Hnd Hin).
  - intros k Hk. apply list_elem_of_fmap in Hk as ([k' ids] & -> & Hin).
    rewrite Forall_forall in Hkeys. specialize (Hkeys _ Hin).
    apply range_elem. cbn [fst] in *. lia.
Qed.

Section BlockTotals.
Context (set_iter : list Z -> list Z) (Hset : iterates_sets set_iter).
Context (G : globals) (player_data : gmap Z player).

Lemma rows_totals phases pls rows :
  Forall2 (fun pl row => squad_row_of G phases pl = Ok row) pls rows ->
  map srow_total rows
  = map (fun p => sum (map (fun k => default 0 (cell_of G phases p k))
                           (range 1 6)))
        (row_ids rows).
Proof.
  intros Hall. rewrite (row_ids_of_rows _ _ _ _ Hall).
  destruct (rows_players _ _ _ _ Hall) as [_ ->]. by rewrite map_map.
Qed.

Lemma block_rows_add_up manager points_info phases b out cp current past :
  squad_block_of set_iter G player_data manager points_info phases
  = Ok (b, out) ->
  block_squad b = Some (cp, current, past) ->
  tabled_roster player_data phases ->
  sum (map srow_total (current ++ past))
  = sum (map (fun ph => spec_phase_total G ph.1 ph.2) phases).
Proof.
  intros Hrun Hsquad [Hnd Hphases].
  destruct (squad_block_of_Some _ _ _ _ _ _ _ _ _ _ _ Hrun Hsquad)
    as (_ & _ & _ & _ & roster & Hroster & Hcur & Hpast & _).
  destruct (squad_block_ids _ Hset _ _ _ _ _ _ _ _ _ _ Hrun Hsquad)
    as (Hcp & Habove & roster' & Hroster' & Hcur_iff & Hpast_iff & HndP).
  rewrite Hroster in Hroster'. injection Hroster' as <-.
  rewrite map_app, (rows_totals _ _ _ Hcur), (rows_totals _ _ _ Hpast),
    <- map_app.
  set (P := row_ids current ++ row_ids past) in *.
  rewrite (sum_swap (fun p k => default 0 (cell_of G phases p k))).
  rewrite <- (sum_over_phases (spec_phase_total G) phases Hnd);
    [| |apply spec_phase_total_no_roster].
  2:{ eapply Forall_impl; [exact Hphases|]. by intros ph [? _]. }
  apply sum_map_ext. intros k Hk. apply range_elem in Hk.
  set (ids := default [] (dict_get phases k)).
  assert (NoDup ids /\ forall p, p ∈ ids -> p ∈ P) as [Hnd_ids Hsub].
  { unfold ids. destruct (dict_get phases k) as [ids'|] eqn:Hget.
    2:{ split; [constructor|]. intros p Hp. by apply elem_of_nil in Hp. }
    cbn [default from_option id].
    pose proof (dict_get_Some_elem _ _ _ Hget) as Hin.
    rewrite Forall_forall in Hphases.
    destruct (Hphases _ Hin) as (_ & Hnd' & Hknown). cbn [snd] in Hnd', Hknown.
    split; [done|]. intros p Hp. rewrite Forall_forall in Hknown.
    unfold P. apply elem_of_app.
    destruct (decide (p ∈ roster)) as [Hyes|Hno].
    - left. apply Hcur_iff. split; [done | by apply Hknown].
    - right. apply Hpast_iff. split; [|by apply Hknown]. split; [done|].
      exists k, ids'. split; [done|]. split; [|done].
      destruct (decide (k = cp)) as [->|Hne].
      + rewrite Hroster in Hget. injection Hget as ->. done.
      + destruct (decide (k < cp)) as [?|Hge]; [done|].
        rewrite Habove in Hget by lia. done. }
  rewrite <- (player_scores_add_up G k ids Hnd_ids).
  rewrite <- (sum_over_subset (fun p => player_score G p k) P ids HndP Hnd_ids Hsub).
  apply sum_map_ext. intros p _. apply cell_of_default.
Qed.

Lemma squad_blocks_loop items : forall acc res,
  for_each items
    (fun item acc =>
       match dict_get (manager_squads G) item.1 with
       | None => Ok acc
       | Some phases =>
           b ← squad_block_of set_iter G player_data item.1 item.2 phases;
           mret (acc.1 ++ [b.1], acc.2 ++ b.2)
       end) acc = Ok res ->
  exists blocks,
    res.1 = acc.1 ++ blocks
    /\ Forall2 (fun (item : string * mp_entry) b =>
                  exists phases out,
                    dict_get (manager_squads G) item.1 = Some phases
                    /\ squad_block_of set_iter G player_data item.1 item.2
                                      phases = Ok (b, out))
               (filter (fun item : string * mp_entry =>
                          is_Some (dict_get (manager_squads G) item.1)) items)
               blocks.
Proof.
  induction items as [|item items IH]; intros acc res Hrun.
  - injection Hrun as <-. exists []. by rewrite app_nil_r.
  - cbn [for_each] in Hrun. rewrite filter_cons.
    destruct (dict_get (manager_squads G) item.1) as [phases|] eqn:Hget.
    + destruct (squad_block_of set_iter G player_data item.1 item.2 phases)
        as [[b out]|] eqn:Hblock; [|done].
      cbn [mbind res_bind mret res_ret fst snd] in Hrun.
      destruct (IH _ _ Hrun) as (blocks & -> & Hall). cbn [fst].
      exists (b :: blocks). rewrite <- app_assoc. split; [done|].
      rewrite decide_True by (by eexists). constructor; [|done].
      by exists phases, out.
    + destruct (IH _ _ Hrun) as (blocks & -> & Hall).
      exists blocks. split; [done|]. rewrite decide_False; [done|].
      by intros [? ?].
Qed.

Lemma generate_squad_details_blocks manager_points blocks out :
  generate_squad_details set_iter G player_data manager_points
  = Ok (Some blocks, out) ->
  Forall2 (fun (item : string * mp_entry) b =>
             exists phases out,
               dict_get (manager_squads G) item.1 = Some phases
               /\ squad_block_of set_iter G player_data item.1 item.2 phases
                  = Ok (b, out))
          (filter (fun item : string * mp_entry =>
                     is_Some (dict_get (manager_squads G) item.1))
                  (sorted_desc (fun x => total x.2) manager_points))
          blocks.
Proof.
  unfold generate_squad_details. destruct (is_empty_dict _); [done|].
  intros Hrun. apply bind_Ok_inv in Hrun as (acc & Hloop & Hrun).
  injection Hrun as <- _.
  by destruct (squad_blocks_loop _ _ _ Hloop) as (blocks' & -> & Hall).
Qed.

(** In the squad tables as [generate_html] makes them, from the rosters
    and the score mapping of [calculate_manager_points], the totals of
    the rows of a manager add up to the total in the heading, when the
    roster of the manager has phases 1 to 5 only, no player twice in a
    phase, and an entry in [player_data] for every player. *)
Theorem squad_rows_add_up_to_the_total r blocks out :
  wf_squads (manager_squads G) ->
  calculate_manager_points G = Ok r ->
  generate_squad_details set_iter G player_data (manager_points r)
  = Ok (Some blocks, out) ->
  forall b phases cp current past,
    b ∈ blocks ->
    dict_get (manager_squads G) (block_manager b) = Some phases ->
    block_squad b = Some (cp, current, past) ->
    tabled_roster player_data phases ->
    sum (map srow_total (current ++ past)) = block_total b
    /\ total_of (manager_points r) (block_manager b) = Some (block_total b).
Proof.
  intros Hwf Hr Hrun b phases cp current past Hb Hphases Hsquad Htabled.
  pose proof (generate_squad_details_blocks _ _ _ Hrun) as Hall.
  apply list_elem_of_lookup in Hb as [i Hi].
  destruct (Forall2_lookup_r _ _ _ _ _ Hall Hi)
    as ([m e] & Hitem & phases' & out' & Hget & Hblock).
  cbn [fst snd] in Hget, Hblock.
  destruct (squad_block_of_Some _ _ _ _ _ _ _ _ _ _ _ Hblock Hsquad)
    as (_ & _ & Hm & Ht & _).
  rewrite Hm in Hphases. rewrite Hget in Hphases. injection Hphases as ->.
  rewrite (block_rows_add_up _ _ _ _ _ _ _ _ Hblock Hsquad Htabled).
  apply list_elem_of_lookup_2, list_elem_of_filter in Hitem as [_ Hin].
  rewrite sorted_desc_perm in Hin.
  destruct (calculate_manager_points_cases G r Hwf Hr)
    as [(Hmp & _)|(_ & _ & _ & Hpp & Hmp)].
  { rewrite Hmp in Hin. by apply elem_of_nil in Hin. }
  assert (dict_get (manager_points r) m = Some e) as He.
  { apply dict_get_elem; [|done].
    rewrite Hmp, mp_shape_keys, Hpp, pp_shape_keys. apply Hwf. }
  unfold total_of. rewrite Hm, Ht, He. split; [|done].
  rewrite Hmp, dict_get_mp_shape, Hpp, dict_get_pp_shape, Hget in He.
  cbn in He. injection He as <-. cbn [total entry_of].
  unfold dict_values. by rewrite map_map.
Qed.
End BlockTotals.

Lemma filter_all {A} (P : A -> Prop) `{!forall x, Decision (P x)} (l : list A) :
  Forall P l -> filter P l = l.
Proof.
  induction 1 as [|x l Hx _ IH]; [done|].
  by rewrite filter_cons, decide_True, IH.
Qed.

Lemma rows_from_managers G pp prev diffr top items : forall pts,
  map row_manager (rows_from G pp prev diffr top pts items)
  = map (fun item => item.2.1) items.
Proof.
  induction items as [|[pos [m e]] items IH]; intros pts; [done|].
  cbn [rows_from map row_manager fst snd]. by rewrite IH.
Qed.

Lemma blocks_headings set_iter G player_data
    (items : list (string * mp_entry)) blocks :
  Forall2 (fun (item : string * mp_entry) b =>
             exists phases out,
               dict_get (manager_squads G) item.1 = Some phases
               /\ squad_block_of set_iter G player_data item.1 item.2 phases
                  = Ok (b, out))
          items blocks ->
  map block_manager blocks = map fst items
  /\ map block_total blocks = map (fun item => total item.2) items.
Proof.
  induction 1 as [|[m e] b items blocks (phases & out & _ & Hb) _ [IHm IHt]];
    [done|].
  cbn [map fst snd]. rewrite IHm, IHt. cbn [fst snd] in Hb.
  assert (block_manager b = m /\ block_total b = total e) as [-> ->]; [|done].
  destruct (block_squad b) as [[[cp cur] past]|] eqn:Hsquad.
  - by destruct (squad_block_of_Some _ _ _ _ _ _ _ _ _ _ _ Hb Hsquad)
      as (_ & _ & ? & ? & _).
  - by destruct (squad_block_of_None _ _ _ _ _ _ _ _ Hb Hsquad)
      as (_ & _ & ? & ?).
Qed.

(** The squad tables of [generate_html] come in the order of its league
    table, one for each row, with the manager and the total of the row
    in the heading. *)
Theorem squad_tables_follow_the_league_table set_iter G player_data r t
    blocks out :
  wf_squads (manager_squads G) ->
  calculate_manager_points G = Ok r ->
  generate_league_table G (manager_points r) (phase_points r) = Ok (Some t) ->
  generate_squad_details set_iter G player_data (manager_points r)
  = Ok (Some blocks, out) ->
  map block_manager blocks = map row_manager (rows t)
  /\ map block_total blocks = map row_total (rows t).
Proof.
  intros Hwf Hr Ht Hrun.
  pose proof (generate_squad_details_blocks _ _ _ _ _ _ Hrun) as Hall.
  destruct (generate_league_table_closed _ _ _ _ Ht)
    as (top & rest & diffs & highest & Hsorted & _ & Hrows & _).
  rewrite Hrows, rows_from_managers, rows_from_totals, <- Hsorted.
  rewrite <- (map_map snd fst), <- (map_map snd (fun x => total x.2)),
    enumerate_snd.
  rewrite filter_all in Hall; [by apply blocks_headings in Hall|].
  apply Forall_forall. intros [m e] Hin. cbn [fst].
  rewrite sorted_desc_perm in Hin.
  destruct (calculate_manager_points_cases G r Hwf Hr)
    as [(Hmp & _)|(_ & _ & _ & Hpp & Hmp)].
  { rewrite Hmp in Hin. by apply elem_of_nil in Hin. }
  assert (m ∈ dict_keys (manager_points r)) as Hm.
  { apply list_elem_of_fmap. by exists (m, e). }
  rewrite Hmp, mp_shape_keys, Hpp, pp_shape_keys in Hm.
  destruct (dict_get (manager_squads G) m) eqn:Hget; [by eexists|].
  by apply dict_get_None in Hget.
Qed.

Lemma add_holder_fold manager ids : forall (mm : gmap Z (list string)) p,
  default [] (foldl (add_holder manager) mm ids !! p)
  = default [] (mm !! p) ++ holds manager ids p.
Proof.
  unfold holds.
  induction ids as [|q ids IH]; intros mm p; [by rewrite app_nil_r|].
  cbn [foldl flat_map]. rewrite IH. unfold add_holder.
  destruct (decide (q = p)) as [->|Hne].
  - rewrite lookup_insert_eq. cbn [default from_option id].
    by rewrite <- app_assoc.
  - by rewrite lookup_insert_ne.
Qed.

Lemma player_manager_map_fold squads : forall (mm : gmap Z (list string)) p,
  default []
    (foldl (fun player_manager_map (item : string * dict Z (list Z)) =>
              let current_phase := current_phase_of item.2 in
              if bool_decide (current_phase > 0)
              then foldl (add_holder item.1) player_manager_map
                         (default [] (dict_get item.2 current_phase))
              else player_manager_map)
           mm squads !! p)
  = default [] (mm !! p)
    ++ flat_map (fun item => holds item.1 (current_roster item.2) p) squads.
Proof.
  induction squads as [|[m phases] squads IH]; intros mm p;
    [by rewrite app_nil_r|].
  cbn [foldl flat_map]. rewrite IH. cbn [fst snd]. unfold current_roster.
  cbv zeta. rewrite app_assoc. f_equal.
  repeat case_bool_decide; try lia.
  - apply add_holder_fold.
  - by rewrite app_nil_r.
Qed.

(** The managers that the table of all players names for a player are
    those whose current roster, the one of the highest phase from 1 to 5
    that the manager has, lists the player: in the order of the squads,
    each one once for every time the roster has the player.  A manager
    with no roster in the phases 1 to 5 is named for nobody. *)
Theorem all_players_table_names_the_current_holders
    (squads : dict string (dict Z (list Z))) (p : Z) :
  managers_of (player_manager_map_of squads) p
  = flat_map (fun item => holds item.1 (current_roster item.2) p) squads
  /\ (forall m, m ∈ managers_of (player_manager_map_of squads) p
                <-> exists phases, (m, phases) ∈ squads
                                   /\ p ∈ current_roster phases)
  /\ (Forall (fun item => NoDup (current_roster item.2)) squads ->
      managers_of (player_manager_map_of squads) p
      = dict_keys (filter (fun item => p ∈ current_roster item.2) squads)).
Proof.
  assert (managers_of (player_manager_map_of squads) p
          = flat_map (fun item => holds item.1 (current_roster item.2) p)
                     squads) as Hclosed.
  { unfold managers_of, player_manager_map_of.
    by rewrite player_manager_map_fold, lookup_empty. }
  split; [done|]. rewrite Hclosed. split.
  - intros m. rewrite elem_of_flat_map. split.
    + intros ([m' phases] & Hin & Hm). cbn [fst snd] in Hm.
      unfold holds in Hm. apply elem_of_flat_map in Hm as (q & Hq & Hm).
      destruct (decide (q = p)) as [->|]; [|by apply elem_of_nil in Hm].
      apply list_elem_of_singleton in Hm as ->. by exists phases.
    + intros (phases & Hin & Hp). exists (m, phases). split; [done|].
      cbn [fst snd]. unfold holds. apply elem_of_flat_map. exists p.
      split; [done|]. rewrite decide_True by done. by constructor.
  - clear Hclosed. induction squads as [|[m phases] squads IH]; [done|].
    intros Hnd. apply Forall_cons in Hnd as [Hnd Hrest].
    cbn [flat_map fst snd] in *. rewrite filter_cons. cbn [snd].
    rewrite (IH Hrest).
    assert (forall ids, NoDup ids ->
              holds m ids p = if decide (p ∈ ids) then [m] else [])
      as Hholds.
    { clear. unfold holds. induction 1 as [|q ids Hq _ IH]; [done|].
      cbn [flat_map]. rewrite IH. destruct (decide (q = p)) as [->|Hne].
      - rewrite decide_False by done. rewrite decide_True by left. done.
      - destruct (decide (p ∈ ids)) as [Hin|Hout].
        + rewrite decide_True by (by right). done.
        + rewrite decide_False; [done|].
          intros [->|?]%elem_of_cons; done. }
    rewrite (Hholds _ Hnd). by destruct (decide (p ∈ current_roster phases)).
Qed.

(** ** Item assignment *)

Section DictSet.
Context {K V : Type} `{EqDecision K}.
Implicit Types d : dict K V.

Lemma dict_keys_set d k v :
  dict_keys (dict_set d k v)
  = if dict_mem d k then dict_keys d else dict_keys d ++ [k].
Proof.
  unfold dict_mem. destruct (dict_get d k) as [v0|] eqn:Hget.
  - induction d as [|[k0 v1] d IH]; [done|]. simpl in Hget |- *.
    destruct (decide (k = k0)) as [->|Hne]; [done|]. simpl.
    f_equal. by apply IH.
  - by rewrite dict_set_fresh, dict_keys_app.
Qed.

Lemma dict_set_NoDup d k v :
  NoDup (dict_keys d) -> NoDup (dict_keys (dict_set d k v)).
Proof.
  intros Hnd. rewrite dict_keys_set. unfold dict_mem.
  destruct (dict_get d k) eqn:Hget; [done|].
  apply dict_get_None in Hget. apply NoDup_app. split; [done|].
  split; [|apply NoDup_singleton].
  intros x Hx ->%list_elem_of_singleton. done.
Qed.

Lemma elem_of_dict_set d k v k' v' :
  NoDup (dict_keys d) ->
  (k', v') ∈ dict_set d k v ->
  (k' = k /\ v' = v) \/ (k' ≠ k /\ (k', v') ∈ d).
Proof.
  intros Hnd Hin.
  apply dict_get_elem in Hin; [|by apply dict_set_NoDup].
  destruct (decide (k' = k)) as [->|Hne].
  - rewrite dict_get_set_eq in Hin. left. by injection Hin as ->.
  - rewrite dict_get_set_ne in Hin by done. right.
    split; [done|]. by apply dict_get_Some_elem.
Qed.
End DictSet.

(** ** Storing a roster *)

Lemma dict_get_store squads m k ids m' :
  dict_get (store squads m k ids) m'
  = if decide (m' = m)
    then Some (dict_set (default [] (dict_get squads m)) k ids)
    else dict_get squads m'.
Proof.
  unfold store, dict_mem. cbv zeta.
  destruct (decide (m' = m)) as [->|Hne].
  - rewrite dict_get_set_eq. destruct (dict_get squads m) eqn:Hget.
    + by rewrite Hget.
    + by rewrite dict_get_set_eq.
  - rewrite dict_get_set_ne by done.
    destruct (dict_get squads m); [reflexivity|].
    by rewrite dict_get_set_ne.
Qed.

Lemma roster_in_store squads m k ids m' k' :
  roster_in (store squads m k ids) m' k'
  = if bool_decide ((m', k') = (m, k)) then Some ids
    else roster_in squads m' k'.
Proof.
  unfold roster_in. rewrite dict_get_store.
  destruct (decide (m' = m)) as [->|Hm].
  - cbn [mbind option_bind]. destruct (decide (k' = k)) as [->|Hk].
    + rewrite bool_decide_eq_true_2 by done. apply dict_get_set_eq.
    + rewrite bool_decide_eq_false_2 by congruence.
      rewrite dict_get_set_ne by done. by destruct (dict_get squads m).
  - by rewrite bool_decide_eq_false_2 by congruence.
Qed.

Lemma store_keys squads m k ids :
  dict_keys (store squads m k ids)
  = if bool_decide (m ∈ dict_keys squads) then dict_keys squads
    else dict_keys squads ++ [m].
Proof.
  unfold store. cbv zeta. rewrite dict_keys_set. unfold dict_mem.
  destruct (dict_get squads m) as [phases|] eqn:Hget.
  - rewrite Hget. rewrite bool_decide_eq_true_2; [done|].
    apply dict_get_Some_elem in Hget. apply list_elem_of_fmap.
    by exists (m, phases).
  - rewrite dict_get_set_eq, dict_keys_set. unfold dict_mem. rewrite Hget.
    apply dict_get_None in Hget. by rewrite bool_decide_eq_false_2.
Qed.

Lemma store_NoDup squads m k ids :
  NoDup (dict_keys squads) -> NoDup (dict_keys (store squads m k ids)).
Proof.
  intros Hnd. rewrite store_keys. case_bool_decide; [done|].
  apply NoDup_app. split; [done|]. split; [|apply NoDup_singleton].
  intros x Hx ->%list_elem_of_singleton. done.
Qed.

Lemma store_elem squads m k ids m' phases' :
  NoDup (dict_keys squads) ->
  (m', phases') ∈ store squads m k ids ->
  (m', phases') ∈ squads
  \/ (m' = m
      /\ phases' = dict_set (default [] (dict_get squads m)) k ids).
Proof.
  intros Hnd Hin. apply dict_get_elem in Hin; [|by apply store_NoDup].
  rewrite dict_get_store in Hin. destruct (decide (m' = m)) as [->|Hne].
  - right. by injection Hin as <-.
  - left. by apply dict_get_Some_elem.
Qed.

Lemma kept_nil P : kept P [].
Proof. split; [split|]; constructor. Qed.

Lemma store_kept P squads m k ids :
  kept P squads -> P k ids -> kept P (store squads m k ids).
Proof.
  intros [[Hkeys Hphases] Hall] HP.
  rewrite Forall_forall in Hphases. rewrite Forall_forall in Hall.
  assert (NoDup (dict_keys (default [] (dict_get squads m)))
          /\ Forall (fun ph => P ph.1 ph.2) (default [] (dict_get squads m)))
    as [Hnd Hold].
  { destruct (dict_get squads m) as [phases|] eqn:Hget;
      [|split; constructor].
    apply dict_get_Some_elem in Hget. split; [by apply (Hphases _ Hget)|].
    by apply (Hall _ Hget). }
  split; [split|].
  - by apply store_NoDup.
  - apply Forall_forall. intros [m' phases'] Hin. cbn [snd].
    apply store_elem in Hin as [Hin|[-> ->]];
      [by apply (Hphases _ Hin)| |done].
    by apply dict_set_NoDup.
  - apply Forall_forall. intros [m' phases'] Hin. cbn [snd].
    apply store_elem in Hin as [Hin|[-> ->]];
      [by apply (Hall _ Hin)| |done].
    split.
    + by destruct (default [] (dict_get squads m)) as [|[k0 v0] d];
        simpl; [|case_decide].
    + apply Forall_forall. intros [k' ids'] Hin. cbn [fst snd].
      apply elem_of_dict_set in Hin as [[-> ->]|[_ Hin]]; [done| |done].
      rewrite Forall_forall in Hold. by apply (Hold _ Hin).
Qed.

Lemma store_all_kept P entries : forall squads,
  kept P squads -> Forall (fun e => P e.1.2 e.2) entries ->
  kept P (store_all squads entries).
Proof.
  induction entries as [|[[m k] ids] entries IH]; intros squads Hkept Hall;
    [done|].
  apply Forall_cons in Hall as [HP Hall]. cbn [store_all foldl fst snd].
  apply IH; [|done]. by apply store_kept.
Qed.

Lemma store_all_roster entries m k : forall squads,
  roster_in (store_all squads entries) m k
  = match last_roster entries m k with
    | Some ids => Some ids
    | None => roster_in squads m k
    end.
Proof.
  unfold last_roster.
  induction entries as [|[[m' k'] ids] entries IH]; intros squads; [done|].
  cbn [store_all foldl fst snd]. fold (store_all (store squads m' k' ids) entries).
  rewrite IH, roster_in_store, filter_cons. cbn [fst].
  destruct (decide ((m', k') = (m, k))) as [Heq|Hne].
  - rewrite bool_decide_eq_true_2 by done.
    destruct (filter _ entries) as [|e es] eqn:Hrest; [done|].
    rewrite last_cons_cons. destruct (last (e :: es)) eqn:Hlast; [done|].
    by apply last_None in Hlast.
  - rewrite bool_decide_eq_false_2 by done. done.
Qed.

Lemma store_all_keys entries : forall squads,
  dict_keys (store_all squads entries)
  = foldl (fun seen x => if bool_decide (x ∈ seen) then seen else seen ++ [x])
          (dict_keys squads) (map (fun e => e.1.1) entries).
Proof.
  induction entries as [|[[m k] ids] entries IH]; intros squads; [done|].
  cbn [store_all foldl map fst snd].
  fold (store_all (store squads m k ids) entries).
  by rewrite IH, store_keys.
Qed.

Lemma store_all_nil entries squads :
  store_all squads entries = [] <-> squads = [] /\ entries = [].
Proof.
  split; [|by intros [-> ->]].
  destruct entries as [|[[m k] ids] entries]; [done|].
  intros Hnil. apply (f_equal dict_keys) in Hnil.
  rewrite store_all_keys in Hnil. cbn [map foldl fst] in Hnil.
  exfalso. revert Hnil.
  assert (forall (l : list string) seen,
            seen ≠ [] ->
            foldl (fun seen x => if bool_decide (x ∈ seen) then seen
                                 else seen ++ [x]) seen l ≠ []) as Hgrow.
  { induction l as [|x l IH]; intros seen Hseen; [done|].
    cbn [foldl]. apply IH. case_bool_decide; [done|].
    by destruct seen. }
  apply Hgrow. case_bool_decide as Hin.
  - intros Heq. rewrite Heq in Hin. by apply elem_of_nil in Hin.
  - by destruct (dict_keys squads).
Qed.

Section CsvRows.
Context `{PyLib}.

Lemma csv_row_closed st row :
  ps_squads (csv_row st row)
  = match csv_header row, ps_current_phase st, csv_roster row with
    | None, Some k, Some (manager, ids) => store (ps_squads st) manager k ids
    | _, _, _ => ps_squads st
    end
  /\ ps_current_phase (csv_row st row)
     = match csv_header row with
       | Some k => Some k
       | None => ps_current_phase st
       end
  /\ (NoSquadsParsed ∈ ps_printed (csv_row st row)
      -> NoSquadsParsed ∈ ps_printed st).
Proof.
  assert (forall n : parse_notice,
            n ≠ NoSquadsParsed ->
            NoSquadsParsed ∈ ps_printed st ++ [n] ->
            NoSquadsParsed ∈ ps_printed st) as Hlog.
  { intros n Hn [?|Hin%list_elem_of_singleton]%elem_of_app; [done|].
    by subst n. }
  unfold csv_row, csv_header, csv_roster, csv_filled.
  destruct (bool_decide (row = [])) eqn:Hempty.
  { apply bool_decide_eq_true_1 in Hempty as ->. cbn.
    by destruct (ps_current_phase st). }
  cbn [orb]. destruct (forallb _ row) eqn:Hblank.
  { cbn. by destruct (ps_current_phase st). }
  cbn [negb andb].
  destruct (bool_decide (length row = 1%nat)) eqn:Hone.
  - apply bool_decide_eq_true_1 in Hone.
    rewrite (bool_decide_eq_false_2 (2 ≤ length row)%nat) by lia.
    cbn [andb]. destruct (py_in _ _).
    + destruct (csv_phase_of row) as [k|]; cbn.
      * split; [by destruct (ps_current_phase st)|]. split; [done|].
        by apply Hlog.
      * split; [by destruct (ps_current_phase st)|]. split; [done|].
        by apply Hlog.
    + cbn. by destruct (ps_current_phase st).
  - cbn [andb]. destruct (bool_decide (2 ≤ length row)%nat);
      [|by destruct (ps_current_phase st)].
    destruct (ps_current_phase st) as [k|] eqn:Hphase;
      [|cbn; rewrite ?Hphase; by repeat split].
    destruct (player_ids_of _) as [ids|]; cbn.
    + destruct (bool_decide (ids = [])); cbn.
      * rewrite Hphase. split; [done|]. by split.
      * split; [done|]. split; [done|]. by apply Hlog.
    + split; [done|]. split; [done|]. by apply Hlog.
Qed.

Lemma csv_rows_closed rows : forall st,
  ps_squads (foldl csv_row st rows)
  = store_all (ps_squads st) (csv_entries (ps_current_phase st) rows)
  /\ (NoSquadsParsed ∈ ps_printed (foldl csv_row st rows)
      -> NoSquadsParsed ∈ ps_printed st).
Proof.
  induction rows as [|row rows IH]; intros st; [done|].
  cbn [foldl csv_entries].
  destruct (IH (csv_row st row)) as [-> Hlog].
  destruct (csv_row_closed st row) as (-> & -> & Hlog').
  split; [|by intros ?%Hlog%Hlog'].
  destruct (csv_header row) as [k|]; [done|].
  destruct (ps_current_phase st) as [k|]; [|done].
  by destruct (csv_roster row) as [[manager ids]|].
Qed.

Lemma csv_entries_filled rows : forall current_phase,
  Forall (fun e : string * Z * list Z => e.2 ≠ [])
         (csv_entries current_phase rows).
Proof.
  induction rows as [|row rows IH]; intros current_phase; [constructor|].
  cbn [csv_entries]. destruct (csv_header row) as [k|]; [apply IH|].
  destruct current_phase as [k|]; [|apply IH].
  destruct (csv_roster row) as [[manager ids]|] eqn:Hroster; [|apply IH].
  constructor; [|apply IH]. cbn [snd]. unfold csv_roster in Hroster.
  destruct (_ && _); [|done].
  destruct (player_ids_of _) as [ids'|]; [|done].
  cbn in Hroster. case_bool_decide; [done|]. by injection Hroster as _ <-.
Qed.

(** The squads that [parse_csv_squads_file] returns have every manager
    once, with a phase or more, no phase twice and no empty roster; they
    are empty, and the warning about it is printed, exactly when no row
    of the file gives a roster under a phase header. *)
Theorem csv_squads_are_well_formed (rows : list (list string)) :
  let squads := (parse_csv_rows rows).1 in
  wf_squads squads
  /\ Forall (fun item => item.2 ≠ [] /\ Forall (fun ph => ph.2 ≠ []) item.2)
            squads
  /\ (squads = [] <-> csv_entries None rows = [])
  /\ (NoSquadsParsed ∈ (parse_csv_rows rows).2 <-> squads = []).
Proof.
  cbv zeta. unfold parse_csv_rows. cbn [fst snd].
  destruct (csv_rows_closed rows parse_start) as [Hsquads Hlog].
  rewrite Hsquads. cbn [parse_start ps_squads ps_current_phase] in *.
  destruct (store_all_kept (fun _ ids => ids ≠ []) (csv_entries None rows) [])
    as [Hwf Hall]; [apply kept_nil | apply csv_entries_filled |].
  split; [done|]. split; [done|]. split.
  - rewrite store_all_nil. split; [by intros [_ ?] | done].
  - rewrite elem_of_app. split.
    + intros [Hin|Hin]; [by apply Hlog, elem_of_nil in Hin|].
      destruct (store_all [] _); [done|]. by apply elem_of_nil in Hin.
    + intros ->. right. by left.
Qed.

(** The roster that [parse_csv_squads_file] returns for a manager and a
    phase is that of the last row of the manager under a header of that
    phase, and the managers come in the order of their first such row. *)
Theorem csv_roster_is_the_last_row (rows : list (list string)) :
  (forall manager k,
      roster_in (parse_csv_rows rows).1 manager k
      = last_roster (csv_entries None rows) manager k)
  /\ dict_keys (parse_csv_rows rows).1
     = first_seen (map (fun e => e.1.1) (csv_entries None rows)).
Proof.
  unfold parse_csv_rows. cbn [fst].
  destruct (csv_rows_closed rows parse_start) as [-> _].
  cbn [parse_start ps_squads ps_current_phase]. split.
  - intros manager k. rewrite store_all_roster.
    by destruct (last_roster _ manager k).
  - by rewrite store_all_keys.
Qed.
End CsvRows.

Section TxtLines.
Context `{PyLib}.

Lemma txt_line_closed st line :
  match txt_header line with
  | Some digits =>
      match py_int digits with
      | Some k =>
          exists st', txt_line st line = Some st'
                      /\ ps_squads st' = ps_squads st
                      /\ ps_current_phase st' = Some k
      | None => txt_line st line = None
      end
  | None =>
      exists st', txt_line st line = Some st'
                  /\ ps_current_phase st' = ps_current_phase st
                  /\ ps_squads st'
                     = match ps_current_phase st, txt_roster line with
                       | Some k, Some (manager, ids) =>
                           if bool_decide (k = 0) then ps_squads st
                           else store (ps_squads st) manager k ids
                       | _, _ => ps_squads st
                       end
  end.
Proof.
  unfold txt_line, txt_header, txt_roster. cbv zeta.
  destruct (bool_decide (py_strip line = "")).
  { exists st. split; [done|]. split; [done|].
    by destruct (ps_current_phase st). }
  destruct (re_phase (py_strip line)) as [digits|].
  { destruct (py_int digits) as [k|]; [|done]. by eexists. }
  destruct (re_manager (py_strip line)) as [[g1 g2]|]; cbn.
  - destruct (ps_current_phase st) as [k|] eqn:Hphase; [|by exists st].
    destruct (bool_decide (k = 0)).
    { exists st. split; [done|]. split; [done|].
      by destruct (player_ids_of (py_strip g2)). }
    destruct (player_ids_of (py_strip g2)) as [ids|]; by eexists.
  - exists st. split; [done|]. split; [done|].
    by destruct (ps_current_phase st).
Qed.

Lemma txt_lines_closed lines : forall st,
  ps_squads (txt_lines st lines).1
  = store_all (ps_squads st) (txt_entries (ps_current_phase st) lines).
Proof.
  induction lines as [|line lines IH]; intros st; [done|].
  cbn [txt_lines txt_entries].
  pose proof (txt_line_closed st line) as Hline.
  destruct (txt_header line) as [digits|].
  - destruct (py_int digits) as [k|].
    + destruct Hline as (st' & -> & Hsquads & Hphase).
      by rewrite IH, Hsquads, Hphase.
    + by rewrite Hline.
  - destruct Hline as (st' & -> & Hphase & Hsquads).
    rewrite IH, Hsquads, Hphase.
    destruct (ps_current_phase st) as [k|]; [|done].
    destruct (txt_roster line) as [[manager ids]|]; [|done].
    by destruct (bool_decide (k = 0)).
Qed.

Lemma txt_entries_phases lines : forall current_phase,
  Forall (fun e : string * Z * list Z => e.1.2 ≠ 0)
         (txt_entries current_phase lines).
Proof.
  induction lines as [|line lines IH]; intros current_phase; [constructor|].
  cbn [txt_entries]. destruct (txt_header line) as [digits|].
  { destruct (py_int digits); [apply IH | constructor]. }
  destruct current_phase as [k|]; [|apply IH].
  destruct (txt_roster line) as [[manager ids]|]; [|apply IH].
  case_bool_decide; [apply IH|]. constructor; [done | apply IH].
Qed.

(** The squads that [parse_squads_file] returns have every manager once,
    with a phase or more, no phase twice and never the phase 0.  The
    roster of a manager and a phase is that of the last line of the
    manager under a header of that phase, the managers come in the order
    of their first such line, and a header whose number [int] refuses
    ends the reading with what was read before it. *)
Theorem txt_roster_is_the_last_line (lines : list string) :
  let squads := (parse_txt_lines lines).1 in
  wf_squads squads
  /\ Forall (fun item => item.2 ≠ [] /\ Forall (fun ph => ph.1 ≠ 0) item.2)
            squads
  /\ (forall manager k,
         roster_in squads manager k
         = last_roster (txt_entries None lines) manager k)
  /\ dict_keys squads
     = first_seen (map (fun e => e.1.1) (txt_entries None lines)).
Proof.
  cbv zeta. unfold parse_txt_lines.
  pose proof (txt_lines_closed lines parse_start) as Hsquads.
  destruct (txt_lines parse_start lines) as [st raised]. cbn [fst] in *.
  rewrite Hsquads. cbn [parse_start ps_squads ps_current_phase].
  destruct (store_all_kept (fun k _ => k ≠ 0) (txt_entries None lines) [])
    as [Hwf Hall]; [apply kept_nil | apply txt_entries_phases |].
  split; [done|]. split; [done|]. split.
  - intros manager k. rewrite store_all_roster.
    by destruct (last_roster _ manager k).
  - by rewrite store_all_keys.
Qed.
End TxtLines.

(** ** The claims at concrete inputs *)

Lemma alice_wf cgw : wf_squads (manager_squads (alice_globals cgw)).
Proof. by_computation. Defined.

Lemma alice_data cgw : gameweek_data (alice_globals cgw) ≠ ∅.
Proof.
  intros Hgd. apply (f_equal (fun d => d !! 1)) in Hgd.
  vm_compute in Hgd. discriminate Hgd.
Defined.

Lemma grand_total_is_sum_of_phase_totals_witness :
  wf_squads (manager_squads (with_corrections (wd_globals [3]) [(3, 2, 8)]))
  /\ exists r e,
       calculate_manager_points
         (with_corrections (wd_globals [3]) [(3, 2, 8)]) = Ok r
       /\ dict_get (manager_points r) "Bob" = Some e
       /\ phase_fields e = [(1, 5); (2, 9 + 8)]
       /\ total e = 5 + (9 + 8).
Proof.
  assert (wf_squads
            (manager_squads (with_corrections (wd_globals [3]) [(3, 2, 8)])))
    as Hwf by by_computation.
  split; [exact Hwf|].
  destruct (calculate_manager_points
              (with_corrections (wd_globals [3]) [(3, 2, 8)])) as [r|?] eqn:Hr;
    [|vm_compute in Hr; discriminate Hr].
  destruct (grand_total_is_sum_of_phase_totals
              (with_corrections (wd_globals [3]) [(3, 2, 8)]) Hwf)
    as (Hcmp & _).
  destruct (Hcmp r Hr) as (_ & _ & Hfields).
  destruct Hfields as [_ Hfields].
  { intros Hgd. apply (f_equal (fun d => d !! 1)) in Hgd.
    vm_compute in Hgd. discriminate Hgd. }
  destruct (Hfields "Bob"%string [(1, [2]); (2, [3])] eq_refl)
    as (e & He & Hphase & Htotal).
  exists r, e. split; [reflexivity|]. split; [exact He|].
  rewrite Hphase, Htotal. split; vm_compute; reflexivity.
Defined.

Lemma adjustment_applies_once_per_holder_witness :
  exists r',
    calculate_manager_points
      (with_corrections adjustment_globals [(10, 1, 8)]) = Ok r'
    /\ phase_total_of (phase_points r') "Alice" 1 = Some (10 + 8)
    /\ phase_total_of (phase_points r') "Bob" 1 = Some 4
    /\ total_of (manager_points r') "Alice" = Some (10 + 8)
    /\ total_of (manager_points r') "Bob" = Some 4.
Proof.
  assert (wf_squads (manager_squads adjustment_globals)) as Hwf
    by by_computation.
  destruct (calculate_manager_points (with_corrections adjustment_globals []))
    as [r|e] eqn:Hr; [|vm_compute in Hr; discriminate Hr].
  destruct (adjustment_applies_once_per_holder adjustment_globals [] [] 10 1 8
              Hwf r Hr) as (r' & Hr' & Hphase & Htotal).
  exists r'. split; [exact Hr'|].
  rewrite !Hphase, !Htotal. vm_compute in Hr. injection Hr as <-.
  vm_compute. repeat split.
Defined.

Lemma missing_score_counts_as_zero_witness :
  exists r',
    calculate_manager_points (with_score (alice_globals 2) 2 11 0) = Ok r'
    /\ phase_points r' = [("Alice"%string, [(1, 10)])].
Proof.
  destruct missing_score_counts_as_zero as (_ & Hzero & Halice).
  destruct (Halice 2) as (r & Hr & Hpp & Hmp).
  destruct (Hzero (alice_globals 2) 2 {[ 10 := 2 ]} 11 r (alice_wf 2))
    as (r' & Hr' & _ & Hpp'); [reflexivity | reflexivity | exact Hr |].
  exists r'. split; [exact Hr' | by rewrite Hpp'].
Defined.




Lemma original_squad_ranking_is_by_difference_witness :
  exists t,
    league_table_of (wd_globals [3]) = Ok (Some t)
    /\ forall a b,
         a ∈ rows t -> b ∈ rows t ->
         row_diff_from_phase1 b < row_diff_from_phase1 a ->
         row_diff_rank a < row_diff_rank b.
Proof.
  destruct (calculate_manager_points (wd_globals [3])) as [r|e] eqn:Hr;
    [|vm_compute in Hr; discriminate Hr].
  destruct (generate_league_table (wd_globals [3]) (manager_points r)
                                  (phase_points r)) as [[t|]|e] eqn:Ht.
  - exists t. split.
    + unfold league_table_of. rewrite Hr. exact Ht.
    + destruct original_squad_ranking_is_by_difference as [Hrows _].
      apply (Hrows (wd_globals [3]) (manager_points r) (phase_points r) t);
        [|exact Ht].
      vm_compute in Hr. injection Hr as <-. by_computation.
  - vm_compute in Hr. injection Hr as <-. vm_compute in Ht. discriminate Ht.
  - vm_compute in Hr. injection Hr as <-. vm_compute in Ht. discriminate Ht.
Defined.





Lemma cutoff_keeps_adjustments_in_full_witness :
  exists mp,
    calculate_points_up_to_gameweek early_season_globals 1 = Ok mp
    /\ phase_field_of mp "Mia" 4 = Some 8
    /\ total_of mp "Mia" = Some 11.
Proof.
  destruct (cutoff_keeps_adjustments_in_full early_season_globals 1)
    as (mp & Hmp & Hfields); [by_computation | by_computation |].
  exists mp. split; [exact Hmp|].
  destruct (Hfields "Mia"%string [(1, [218]); (4, [218])] 4 [218])
    as (_ & Hbeyond & Htotal); [reflexivity | reflexivity |].
  split.
  - rewrite Hbeyond; [reflexivity|]. by_computation.
  - rewrite Htotal. vm_compute. reflexivity.
Defined.

(** ** The further properties at concrete inputs *)

Lemma cutoff_beyond_the_data_gives_the_totals_witness :
  exists r,
    calculate_manager_points (alice_globals 2) = Ok r
    /\ calculate_points_up_to_gameweek (alice_globals 2) 2
       = Ok (manager_points r).
Proof.
  destruct (calculate_manager_points (alice_globals 2)) as [r|e] eqn:Hr;
    [|vm_compute in Hr; discriminate Hr].
  exists r. split; [reflexivity|].
  destruct (cutoff_beyond_the_data_gives_the_totals (alice_globals 2) 2 r
              (alice_wf 2)) as [Hsame _]; [|exact Hr|].
  - intros gw Hdata. destruct (decide (gw ≤ 2)) as [Hle|Hgt]; [exact Hle|].
    exfalso. unfold alice_globals in Hdata. cbn [gameweek_data] in Hdata.
    rewrite lookup_insert_ne in Hdata by lia.
    rewrite lookup_singleton_ne in Hdata by lia. by destruct Hdata.
  - apply Hsame, alice_data.
Defined.

Lemma run_compares_consecutive_gameweeks_witness :
  exists run before,
    main (fun _ => None) id (fun _ => {[ 10 := 5; 11 := 3 ]}) false NoFile
         second_gameweek_globals = Ok (Some run)
    /\ calculate_points_up_to_gameweek (run_globals run) 1 = Ok before
    /\ snap_standings (previous_standings (run_globals run))
       = Some (standings_of before).
Proof.
  destruct (main (fun _ => None) id (fun _ => {[ 10 := 5; 11 := 3 ]}) false
                 NoFile second_gameweek_globals) as [[run|]|e] eqn:Hrun;
    [|vm_compute in Hrun; discriminate Hrun..].
  assert (current_gameweek (run_globals run) = 2) as Hgw.
  { pose proof Hrun as Hrun'. vm_compute in Hrun'. injection Hrun' as <-.
    reflexivity. }
  destruct (run_compares_consecutive_gameweeks
              (fun _ => None) id (fun _ => {[ 10 := 5; 11 := 3 ]}) NoFile
              second_gameweek_globals run)
    as (before & _ & Hbefore & Hprev & _);
    [by_computation | reflexivity | exact Hrun | rewrite Hgw; lia |].
  exists run, before. rewrite Hgw in Hbefore. split; [reflexivity|].
  split; [exact Hbefore|]. by rewrite Hprev.
Defined.

Ltac wd_table r t Hr Ht :=
  destruct (calculate_manager_points (wd_globals [3])) as [r|?] eqn:Hr;
    [|vm_compute in Hr; discriminate Hr];
  destruct (generate_league_table (wd_globals [3]) (manager_points r)
                                  (phase_points r)) as [[t|]|?] eqn:Ht;
    [|vm_compute in Hr; injection Hr as <-; vm_compute in Ht;
      discriminate Ht..].

Lemma gaps_follow_the_totals_witness :
  exists t,
    league_table_of (wd_globals [3]) = Ok (Some t)
    /\ map row_position (rows t) = [1; 2].
Proof.
  wd_table r t Hr Ht. exists t. split.
  - unfold league_table_of. rewrite Hr. exact Ht.
  - destruct (gaps_follow_the_totals (wd_globals [3]) (manager_points r)
                (phase_points r) t Ht) as [Hpos _].
    rewrite Hpos. vm_compute in Hr. injection Hr as <-. reflexivity.
Defined.

Lemma weekly_leader_is_the_first_best_witness :
  exists t,
    league_table_of (wd_globals [3]) = Ok (Some t)
    /\ forall row,
         row ∈ rows t ->
         row_weekly row
         = (calculate_recent_gameweek_points
              (wd_globals [3]) (row_manager row)
              [ ("Ann"%string, [(1, 5); (2, 1)]);
                ("Bob"%string, [(1, 5); (2, 9)]) ]).1.
Proof.
  wd_table r t Hr Ht. exists t. split.
  - unfold league_table_of. rewrite Hr. exact Ht.
  - destruct (weekly_leader_is_the_first_best (wd_globals [3])
                (manager_points r) (phase_points r) t Ht) as [Hweekly _].
    intros row Hin. rewrite (Hweekly row Hin). unfold weekly_of.
    vm_compute in Hr. injection Hr as <-. reflexivity.
Defined.

Lemma diff_ranks_are_a_ranking_witness :
  exists t,
    league_table_of (wd_globals [3]) = Ok (Some t)
    /\ map row_diff_rank (rows t) ≡ₚ [1; 2].
Proof.
  wd_table r t Hr Ht. exists t. split.
  - unfold league_table_of. rewrite Hr. exact Ht.
  - destruct (diff_ranks_are_a_ranking (wd_globals [3]) (manager_points r)
                (phase_points r) t) as [Hperm _]; [|exact Ht|].
    + vm_compute in Hr. injection Hr as <-. by_computation.
    + rewrite Hperm. vm_compute in Hr. injection Hr as <-. reflexivity.
Defined.

Lemma highest_gameweek_is_the_best_current_score_witness :
  exists r,
    calculate_manager_points (alice_globals 2) = Ok r
    /\ squad_points (alice_globals 2) 2 [10; 11] ≤ highest_gameweek_points r.
Proof.
  destruct (calculate_manager_points (alice_globals 2)) as [r|e] eqn:Hr;
    [|vm_compute in Hr; discriminate Hr].
  exists r. split; [reflexivity|].
  destruct (highest_gameweek_is_the_best_current_score (alice_globals 2) r Hr)
    as (_ & Hbest & _).
  apply (Hbest "Alice"%string [(1, [10; 11])] 1).
  - by_computation.
  - by_computation.
  - by_computation.
  - by eexists.
Defined.

Lemma missing_scores_are_printed_for_the_current_gameweek_witness :
  exists r,
    calculate_manager_points (alice_globals 2) = Ok r
    /\ NoPointsFor 11 2 ∈ printed r.
Proof.
  destruct (calculate_manager_points (alice_globals 2)) as [r|e] eqn:Hr;
    [|vm_compute in Hr; discriminate Hr].
  exists r. split; [reflexivity|].
  apply (missing_scores_are_printed_for_the_current_gameweek
           (alice_globals 2) r Hr); [discriminate | apply alice_data |].
  exists 11, {[ 10 := 2 ]}, "Alice"%string, [(1, [10; 11])], 1, [10; 11].
  repeat split; try reflexivity; by_computation.
Defined.

Lemma league_table_needs_the_rosters_witness :
  generate_league_table (alice_globals 2) [("Zed"%string, zero_entry)] []
  = Raise (KeyError (KStr "Zed")).
Proof.
  apply (league_table_needs_the_rosters (alice_globals 2) [] "Zed" zero_entry
           [] []).
  - constructor.
  - reflexivity.
  - exists 1. split; [simpl; lia | by eexists].
Defined.

Lemma position_changes_rank_the_roster_witness :
  exists now before,
    calculate_position_changes adjustment_globals 2
    = Ok ({| snap_gameweek := Some 2; snap_standings := Some now |},
          {| snap_gameweek := Some 1; snap_standings := Some before |})
    /\ dict_values now = [1; 2]
    /\ dict_values before = [1; 2].
Proof.
  destruct (position_changes_rank_the_roster adjustment_globals 2) as [_ Hpast].
  destruct Hpast as (now & before & Hrun & _ & _ & Hnow & Hbefore & _);
    [by_computation | by_computation | lia |].
  exists now, before. split; [exact Hrun|]. by rewrite Hnow, Hbefore.
Defined.

Lemma saved_standings_round_trip_witness :
  exists run run',
    main (fun _ => Some stored_alice) id (fun _ => {[ 10 := 5; 11 := 3 ]})
         false NoFile first_gameweek_globals = Ok (Some run)
    /\ run_saved run = stored_alice
    /\ main (fun _ => Some stored_alice) id (fun _ => {[ 10 := 5; 11 := 3 ]})
            true (Contents "standings") first_gameweek_globals
       = Ok (Some run')
    /\ forall t row,
         run_table run' = Some t -> row ∈ rows t -> row_change row = UNCHANGED.
Proof.
  destruct (main (fun _ => Some stored_alice) id
                 (fun _ => {[ 10 := 5; 11 := 3 ]}) false NoFile
                 first_gameweek_globals) as [[run|]|e] eqn:Hrun;
    [|vm_compute in Hrun; discriminate Hrun..].
  assert (run_saved run = stored_alice) as Hsaved.
  { pose proof Hrun as Hrun0. vm_compute in Hrun0. injection Hrun0 as <-.
    reflexivity. }
  destruct saved_standings_round_trip as [_ Hround].
  destruct (Hround (fun _ => Some stored_alice) id
                   (fun _ => {[ 10 := 5; 11 := 3 ]}) false NoFile
                   first_gameweek_globals run "standings")
    as (run' & Hrun' & _ & _ & Hsame);
    [by_computation | exact Hrun | by rewrite Hsaved | simpl; lia |].
  exists run, run'. split; [reflexivity|]. split; [exact Hsaved|].
  split; [exact Hrun' | exact Hsame].
Defined.


Lemma test_swaps_keep_a_ranking_witness :
  exists swapped,
    test_swaps "Ann" "Bob" "Cy" five_standings = Ok swapped
    /\ dict_keys swapped = ["Ann"; "Bob"; "Cy"; "Di"; "Ed"]%string.
Proof.
  destruct (test_swaps_keep_a_ranking "Ann" "Bob" "Cy" five_standings)
    as (swapped & Hrun & Hkeys & _).
  - by_computation.
  - reflexivity.
  - simpl. lia.
  - by_computation.
  - by_computation.
  - discriminate.
  - intros _. split; [by_computation|]. split; discriminate.
  - exists swapped. split; [exact Hrun | by rewrite Hkeys].
Defined.

Lemma process_player_data_keeps_the_last_element_witness :
  exists players out,
    process_player_data (Some two_elements) = Ok (players, out)
    /\ info_name <$> players !! 7 = Some "New"%string
    /\ info_position <$> players !! 7 = Some "Unknown"%string.
Proof.
  destruct (process_player_data (Some two_elements)) as [[players out]|e]
    eqn:Hrun; [|vm_compute in Hrun; discriminate Hrun].
  exists players, out. split; [reflexivity|].
  destruct process_player_data_keeps_the_last_element as (Hlast & _).
  destruct (Hlast two_elements players out Hrun) as (Hclosed & _).
  rewrite (Hclosed 7). split; reflexivity.
Defined.

Lemma process_gameweek_data_keeps_the_last_points_witness :
  exists points pd' out,
    process_gameweek_data 3 {[ 7 := known_player ]} (Some live_elements)
    = Ok (points, pd', out)
    /\ points !! 7 = Some 6 /\ points !! 8 = None.
Proof.
  destruct (process_gameweek_data 3 {[ 7 := known_player ]}
              (Some live_elements)) as [[[points pd'] out]|e] eqn:Hrun;
    [|vm_compute in Hrun; discriminate Hrun].
  exists points, pd', out. split; [reflexivity|].
  destruct (process_gameweek_data_keeps_the_last_points
              3 {[ 7 := known_player ]}) as (Hlast & _).
  destruct (Hlast live_elements points pd' out Hrun) as (Hpoints & _).
  rewrite !Hpoints. split; reflexivity.
Defined.

Lemma fetched_gameweeks_are_stored_by_gameweek_witness :
  exists data' pd' out,
    fetch_gameweeks (fun _ => Some live_elements) 2 ∅ {[ 7 := known_player ]}
    = Ok (data', pd', out)
    /\ forall info',
         pd' !! 7 = Some info' -> points_by_gameweek info' !! 2 = Some 6.
Proof.
  destruct (fetch_gameweeks (fun _ => Some live_elements) 2 ∅
              {[ 7 := known_player ]}) as [[[data' pd'] out]|e] eqn:Hrun;
    [|vm_compute in Hrun; discriminate Hrun].
  exists data', pd', out. split; [reflexivity|].
  destruct (fetched_gameweeks_are_stored_by_gameweek
              (fun _ => Some live_elements) 2 ∅ {[ 7 := known_player ]}
              data' pd' out Hrun) as (_ & _ & _ & Hcurrent).
  intros info' Hinfo. apply (Hcurrent 7 info' 6); [lia | exact Hinfo|].
  reflexivity.
Defined.

Lemma remove_dups_iterates : iterates_sets remove_dups.
Proof.
  intros l. split; [apply NoDup_remove_dups|].
  intros x. apply elem_of_remove_dups.
Qed.

Ltac wd_squads r blocks out Hr Hrun :=
  destruct (calculate_manager_points (wd_globals [3])) as [r|?] eqn:Hr;
    [|vm_compute in Hr; discriminate Hr];
  destruct (generate_squad_details remove_dups (wd_globals [3]) wd_players
              (manager_points r)) as [[[blocks|] out]|?] eqn:Hrun;
    [|vm_compute in Hr; injection Hr as <-; vm_compute in Hrun;
      discriminate Hrun..].

Lemma squad_block_lists_current_and_previous_players_witness :
  exists b out,
    squad_block_of remove_dups (wd_globals [3]) wd_players "Bob"
                   {| total := 19; phase_fields := [(1, 5); (2, 9)] |}
                   [(1, [2]); (2, [3])]
    = Ok (b, out)
    /\ block_manager b = "Bob"%string /\ block_total b = 19.
Proof.
  destruct (squad_block_of remove_dups (wd_globals [3]) wd_players "Bob"
              {| total := 19; phase_fields := [(1, 5); (2, 9)] |}
              [(1, [2]); (2, [3])]) as [[b out]|e] eqn:Hrun;
    [|vm_compute in Hrun; discriminate Hrun].
  exists b, out. split; [reflexivity|].
  destruct (squad_block_lists_current_and_previous_players
              remove_dups remove_dups_iterates (wd_globals [3]) wd_players
              "Bob" {| total := 19; phase_fields := [(1, 5); (2, 9)] |}
              [(1, [2]); (2, [3])] b out Hrun) as (Hm & Ht & _).
  split; [exact Hm | exact Ht].
Defined.

Lemma squad_rows_add_up_to_the_total_witness :
  exists r blocks out b cp current past,
    calculate_manager_points (wd_globals [3]) = Ok r
    /\ generate_squad_details remove_dups (wd_globals [3]) wd_players
                              (manager_points r) = Ok (Some blocks, out)
    /\ blocks !! 0%nat = Some b
    /\ block_squad b = Some (cp, current, past)
    /\ sum (map srow_total (current ++ past)) = block_total b.
Proof.
  wd_squads r blocks out Hr Hrun.
  destruct (blocks !! 0%nat) as [b|] eqn:Hb;
    [|vm_compute in Hr; injection Hr as <-; vm_compute in Hrun;
      injection Hrun as <- <-; discriminate Hb].
  destruct (block_squad b) as [[[cp current] past]|] eqn:Hsquad;
    [|vm_compute in Hr; injection Hr as <-; vm_compute in Hrun;
      injection Hrun as <- <-; injection Hb as <-; discriminate Hsquad].
  exists r, blocks, out, b, cp, current, past.
  split; [reflexivity|]. split; [exact Hrun|]. split; [exact Hb|].
  split; [exact Hsquad|].
  apply (squad_rows_add_up_to_the_total
           remove_dups remove_dups_iterates (wd_globals [3]) wd_players
           r blocks out ltac:(by_computation) Hr Hrun
           b [(1, [2]); (2, [3])] cp current past).
  - by apply list_elem_of_lookup_2 in Hb.
  - vm_compute in Hr. injection Hr as <-. vm_compute in Hrun.
    injection Hrun as <- <-. injection Hb as <-. reflexivity.
  - exact Hsquad.
  - unfold tabled_roster. by_computation.
Defined.

Lemma squad_tables_follow_the_league_table_witness :
  exists r t blocks out,
    calculate_manager_points (wd_globals [3]) = Ok r
    /\ generate_league_table (wd_globals [3]) (manager_points r)
                             (phase_points r) = Ok (Some t)
    /\ generate_squad_details remove_dups (wd_globals [3]) wd_players
                              (manager_points r) = Ok (Some blocks, out)
    /\ map block_manager blocks = map row_manager (rows t).
Proof.
  wd_squads r blocks out Hr Hrun.
  destruct (generate_league_table (wd_globals [3]) (manager_points r)
                                  (phase_points r)) as [[t|]|?] eqn:Ht;
    [|vm_compute in Hr; injection Hr as <-; vm_compute in Ht;
      discriminate Ht..].
  exists r, t, blocks, out.
  split; [reflexivity|]. split; [exact Ht|]. split; [exact Hrun|].
  apply (squad_tables_follow_the_league_table
           remove_dups (wd_globals [3]) wd_players r t blocks out
           ltac:(by_computation) Hr Ht Hrun).
Defined.

Lemma all_players_table_names_the_current_holders_witness :
  Forall (fun item : string * dict Z (list Z) => NoDup (current_roster item.2))
         (manager_squads (wd_globals [3]))
  /\ managers_of (player_manager_map_of (manager_squads (wd_globals [3]))) 3
     = dict_keys (filter (fun item : string * dict Z (list Z) =>
                            3 ∈ current_roster item.2)
                         (manager_squads (wd_globals [3]))).
Proof.
  assert (Forall (fun item : string * dict Z (list Z) =>
                    NoDup (current_roster item.2))
                 (manager_squads (wd_globals [3]))) as Hnd
    by by_computation.
  split; [exact Hnd|].
  destruct (all_players_table_names_the_current_holders
              (manager_squads (wd_globals [3])) 3) as (_ & _ & Hkeys).
  exact (Hkeys Hnd).
Defined.
